(** * Node-Editor: the editor state engine

  A shallow embedding of the undo/redo hook (hooks/useHistory.js), of the
  text node's handle derivation (nodes/TextNode.jsx) and of the editor
  component's state transitions (components/NodeEditor.jsx), with the
  properties of the specification stated over them.

  Conventions.  React state is passed explicitly.  A callback closes over
  the values of the render that created it; the hook's callbacks take
  those values as arguments ([setStateFrom], [undoFrom], [redoFrom]), and
  [setState], [undo], [redo] are the callbacks of the current render,
  which is what a user event gets when it is handled after the previous
  one has been rendered.  The editor's own callbacks are taken at the
  current render.  A [setTimeout(..., 0)] callback is an entry of an
  explicit timer queue, with the index its closure holds. *)

From Stdlib Require Import String Ascii.
From Stdlib Require Import List Bool Arith ZArith Lia.
From Stdlib Require Import DecimalString DecimalPos DecimalN.
Import ListNotations.

Local Open Scope string_scope.
Local Open Scope list_scope.
Local Open Scope nat_scope.

(* ===================================================================== *)
(** * hooks/useHistory.js *)
(* ===================================================================== *)

Module History.

Section UseHistory.

(** The hook is generic in the state it stores.  [stringify] is
    [JSON.stringify] on those values; the hook compares two states by
    comparing their serializations. *)
Variable A : Type.
Variable stringify : A -> string.

(** [useHistory(initialState, maxHistorySize = 50)] *)
Variable initialState : A.
Variable maxHistorySize : nat.

(** [history], [currentIndex] are the two [useState] cells,
    [isApplyingHistory] the [useRef] flag. *)
Record hook : Type := Hook {
  history : list A;
  currentIndex : nat;
  isApplyingHistory : bool
}.

(** [useState([initialState])], [useState(0)], [useRef(false)] *)
Definition init : hook :=
  {| history := [initialState]; currentIndex := 0; isApplyingHistory := false |}.

(** The argument of [setState]: a value or an updater function. *)
Inductive newState : Type :=
| Value (a : A)
| Updater (f : A -> A).

(** [typeof newState === 'function' ? newState(cur) : newState] *)
Definition actualNewState (ns : newState) (cur : A) : A :=
  match ns with
  | Value a => a
  | Updater f => f cur
  end.

(** [newHistory.splice(currentIndex + 1)] under its guard
    [currentIndex < newHistory.length - 1]. *)
Definition dropFuture (idx : nat) (newHistory : list A) : list A :=
  if idx <? length newHistory - 1 then firstn (idx + 1) newHistory
  else newHistory.

(** [newHistory.shift()] under its guard
    [newHistory.length > maxHistorySize]. *)
Definition limitSize (newHistory : list A) : list A :=
  if maxHistorySize <? length newHistory then tl newHistory else newHistory.

(** The function given to [setHistory] (lines 44-79).  It returns the new
    array and, when it calls [setCurrentIndex], the index it sets.
    [newHistory[currentIndex]] is [undefined] when the index is outside
    the array, and the code then goes on with [undefined] as the current
    entry.  That never happens to the callback of the current render on a
    state the hook can reach (lemma [reachable_wf]); it takes a callback
    kept from an earlier render.  The embedding has no value for
    [undefined] and is exact only for an index inside the array: outside
    it returns the array as it is, and nothing below is stated there. *)
Definition setHistoryUpdater (ns : newState) (idx : nat)
    (prevHistory : list A) : list A * option nat :=
  let newHistory := dropFuture idx prevHistory in
  match nth_error newHistory idx with
  | None => (prevHistory, None)
  | Some cur =>
      let new := actualNewState ns cur in
      if String.eqb (stringify cur) (stringify new) then (prevHistory, None)
      else
        let newHistory := limitSize (newHistory ++ [new]) in
        (newHistory, Some (length newHistory - 1))
  end.

(** [setState], as created at a render whose [currentIndex] was
    [renderedIndex] (it is rebuilt when [currentIndex] changes). *)
Definition setStateFrom (renderedIndex : nat) (ns : newState) (h : hook) : hook :=
  if isApplyingHistory h then h
  else
    let '(newHistory, newIndex) :=
      setHistoryUpdater ns renderedIndex (history h) in
    {| history := newHistory;
       currentIndex := match newIndex with
                       | Some i => i
                       | None => currentIndex h
                       end;
       isApplyingHistory := false |}.

(** [setState] of the current render. *)
Definition setState (ns : newState) (h : hook) : hook :=
  setStateFrom (currentIndex h) ns h.

(** [undo], as created at a render whose [currentIndex] was
    [renderedIndex]: the guard reads the closure, [setCurrentIndex(prev =>
    prev - 1)] the current index.  The result is the returned boolean and
    the new hook state; a [true] result also schedules the timer that clears
    the flag.  The index is a natural number, so the embedding is exact
    where the current index is at least 1 when it is decremented: always so
    for [undo] of the current render, whose guard tests that very index,
    and not for a callback kept from an earlier render and called at index
    0, where the code goes to -1. *)
Definition undoFrom (renderedIndex : nat) (h : hook) : bool * hook :=
  if 0 <? renderedIndex then
    (true, {| history := history h;
              currentIndex := currentIndex h - 1;
              isApplyingHistory := true |})
  else (false, h).

(** [undo] of the current render. *)
Definition undo (h : hook) : bool * hook := undoFrom (currentIndex h) h.

(** [redo], as created at a render whose [currentIndex] and
    [history.length] were [renderedIndex] and [renderedLength]. *)
Definition redoFrom (renderedIndex renderedLength : nat) (h : hook) : bool * hook :=
  if renderedIndex <? renderedLength - 1 then
    (true, {| history := history h;
              currentIndex := currentIndex h + 1;
              isApplyingHistory := true |})
  else (false, h).

(** [redo] of the current render. *)
Definition redo (h : hook) : bool * hook :=
  redoFrom (currentIndex h) (length (history h)) h.

(** The [setTimeout] callback of [undo] and [redo]. *)
Definition resetApplying (h : hook) : hook :=
  {| history := history h;
     currentIndex := currentIndex h;
     isApplyingHistory := false |}.

(** [clearHistory] *)
Definition clearHistory (h : hook) : hook :=
  {| history := [initialState];
     currentIndex := 0;
     isApplyingHistory := isApplyingHistory h |}.

(** The object the hook returns. *)
Definition state (h : hook) : option A := nth_error (history h) (currentIndex h).
Definition canUndo (h : hook) : bool := 0 <? currentIndex h.
Definition canRedo (h : hook) : bool := currentIndex h <? length (history h) - 1.
Definition historySize (h : hook) : nat := length (history h).

Record view : Type := View {
  v_state : option A;
  v_canUndo : bool;
  v_canRedo : bool;
  v_historySize : nat;
  v_currentIndex : nat
}.

Definition observe (h : hook) : view :=
  {| v_state := state h;
     v_canUndo := canUndo h;
     v_canRedo := canRedo h;
     v_historySize := historySize h;
     v_currentIndex := currentIndex h |}.

(** ** Sessions of the hook *)

Inductive op : Type :=
| SetState (ns : newState)
| Undo
| Redo
| ClearHistory
| Timeout.          (* a pending flag-clearing timer fires *)

Definition step (h : hook) (o : op) : hook :=
  match o with
  | SetState ns => setState ns h
  | Undo => snd (undo h)
  | Redo => snd (redo h)
  | ClearHistory => clearHistory h
  | Timeout => resetApplying h
  end.

Definition run (ops : list op) : hook := fold_left step ops init.

Inductive reachable : hook -> Prop :=
| reachable_init : reachable init
| reachable_step h o : reachable h -> reachable (step h o).

(** The invariant of the hook: the index is inside the array and the
    array is never longer than the cap (or than the single entry it
    starts with, should the cap be 0). *)
Definition wf (h : hook) : Prop :=
  currentIndex h < length (history h) /\
  length (history h) <= Nat.max 1 maxHistorySize.

(** ** Basic facts *)

Lemma dropFuture_firstn idx l :
  idx < length l -> dropFuture idx l = firstn (idx + 1) l.
Proof.
  intros Hlt. unfold dropFuture.
  destruct (idx <? length l - 1) eqn:E; [reflexivity|].
  apply Nat.ltb_ge in E.
  rewrite firstn_all2; [reflexivity | lia].
Qed.

Lemma dropFuture_length idx l :
  idx < length l -> length (dropFuture idx l) = idx + 1.
Proof.
  intros Hlt. rewrite dropFuture_firstn by assumption.
  rewrite length_firstn. lia.
Qed.

Lemma dropFuture_nth idx l :
  nth_error (dropFuture idx l) idx = nth_error l idx.
Proof.
  unfold dropFuture. destruct (idx <? length l - 1); [|reflexivity].
  rewrite nth_error_firstn.
  destruct (idx <? idx + 1) eqn:E; [reflexivity|].
  apply Nat.ltb_ge in E. lia.
Qed.

Lemma nth_error_some_lt (l : list A) i x : nth_error l i = Some x -> i < length l.
Proof.
intros H. apply nth_error_Some. rewrite H. discriminate.
Qed.

(** What the updater returns when the candidate serializes differently
    from the current entry. *)
Lemma setHistoryUpdater_push ns idx l cur :
  nth_error l idx = Some cur ->
  stringify cur <> stringify (actualNewState ns cur) ->
  setHistoryUpdater ns idx l =
    (limitSize (firstn (idx + 1) l ++ [actualNewState ns cur]),
     Some (length (limitSize (firstn (idx + 1) l ++ [actualNewState ns cur])) - 1)).
Proof.
intros Hcur Hneq. unfold setHistoryUpdater.
rewrite dropFuture_nth, Hcur. cbv zeta.
apply String.eqb_neq in Hneq. rewrite Hneq.
rewrite dropFuture_firstn by (eapply nth_error_some_lt; eassumption).
reflexivity.
Qed.

(** What the updater returns when the candidate serializes like the
    current entry. *)
Lemma setHistoryUpdater_same ns idx l cur :
  nth_error l idx = Some cur ->
  stringify cur = stringify (actualNewState ns cur) ->
  setHistoryUpdater ns idx l = (l, None).
Proof.
intros Hcur Heq. unfold setHistoryUpdater.
rewrite dropFuture_nth, Hcur. cbv zeta.
apply String.eqb_eq in Heq. rewrite Heq. reflexivity.
Qed.

Lemma limitSize_length l :
  length (limitSize l) = if maxHistorySize <? length l then length l - 1 else length l.
Proof.
unfold limitSize. destruct (maxHistorySize <? length l); [|reflexivity].
destruct l; simpl; lia.
Qed.

Lemma limitSize_le l :
  length l <= S (Nat.max 1 maxHistorySize) ->
  length (limitSize l) <= Nat.max 1 maxHistorySize.
Proof.
intros H. rewrite limitSize_length.
destruct (maxHistorySize <? length l) eqn:E.
- lia.
- apply Nat.ltb_ge in E. lia.
Qed.

Lemma limitSize_last l a :
  l <> [] ->
  nth_error (limitSize (l ++ [a])) (length (limitSize (l ++ [a])) - 1) = Some a.
Proof.
intros Hl. unfold limitSize.
destruct (maxHistorySize <? length (l ++ [a])).
- destruct l as [|x l]; [congruence|]. simpl.
  rewrite length_app. simpl.
  rewrite nth_error_app2 by lia.
  replace (length l + 1 - 1 - length l) with 0 by lia. reflexivity.
- rewrite length_app. simpl.
  rewrite nth_error_app2 by lia.
  replace (length l + 1 - 1 - length l) with 0 by lia. reflexivity.
Qed.

Lemma setState_wf ns h : wf h -> wf (setState ns h).
Proof.
intros [Hidx Hlen]. unfold setState, setStateFrom.
destruct (isApplyingHistory h); [split; assumption|].
destruct (nth_error (history h) (currentIndex h)) as [cur|] eqn:Hcur;
  [|apply nth_error_None in Hcur; lia].
destruct (String.eqb (stringify cur) (stringify (actualNewState ns cur))) eqn:E.
- apply String.eqb_eq in E.
  rewrite (setHistoryUpdater_same ns _ _ _ Hcur E). split; assumption.
- apply String.eqb_neq in E.
  rewrite (setHistoryUpdater_push ns _ _ _ Hcur E).
  unfold wf; cbn [history currentIndex].
  assert (Hf : length (firstn (currentIndex h + 1) (history h) ++ [actualNewState ns cur])
               = currentIndex h + 2)
    by (rewrite length_app, length_firstn; simpl; lia).
  split.
  + rewrite limitSize_length, Hf.
    destruct (maxHistorySize <? currentIndex h + 2); lia.
  + rewrite limitSize_length, Hf.
    destruct (maxHistorySize <? currentIndex h + 2) eqn:E'.
    * lia.
    * apply Nat.ltb_ge in E'. lia.
Qed.

Lemma step_wf h o : wf h -> wf (step h o).
Proof.
intros Hwf. destruct o; cbn [step].
- apply setState_wf; assumption.
- destruct Hwf as [Hidx Hlen]. unfold undo, undoFrom, wf.
  destruct (0 <? currentIndex h) eqn:E; cbn [snd history currentIndex];
    split; try assumption.
  apply Nat.ltb_lt in E. lia.
- destruct Hwf as [Hidx Hlen]. unfold redo, redoFrom, wf.
  destruct (currentIndex h <? length (history h) - 1) eqn:E;
    cbn [snd history currentIndex]; split; try assumption.
  apply Nat.ltb_lt in E. lia.
- unfold wf, clearHistory; cbn [history currentIndex length]. lia.
- exact Hwf.
Qed.

Lemma init_wf : wf init.
Proof.
unfold wf, init; cbn [history currentIndex length]. lia.
Qed.

Lemma reachable_wf h : reachable h -> wf h.
Proof.
induction 1 as [|h o _ IH]; [apply init_wf | apply step_wf; exact IH].
Qed.

Lemma fold_step_reachable ops : forall h, reachable h -> reachable (fold_left step ops h).
Proof.
induction ops as [|o ops IH]; intros h Hh; simpl; [exact Hh|].
apply IH. constructor; exact Hh.
Qed.

Lemma run_reachable ops : reachable (run ops).
Proof.
apply fold_step_reachable. constructor.
Qed.

Lemma reachable_run h : reachable h -> exists ops, h = run ops.
Proof.
induction 1 as [|h o _ [ops IH]].
- exists []. reflexivity.
- exists (ops ++ [o]). unfold run. rewrite fold_left_app. simpl.
  unfold run in IH. rewrite <- IH. reflexivity.
Qed.

(** [setState] on a state whose flag is clear, when the candidate serializes
    differently from the current entry. *)
Lemma setState_push ns h cur :
  isApplyingHistory h = false ->
  state h = Some cur ->
  stringify cur <> stringify (actualNewState ns cur) ->
  setState ns h =
    let newHistory :=
      limitSize (firstn (currentIndex h + 1) (history h) ++ [actualNewState ns cur]) in
    {| history := newHistory;
       currentIndex := length newHistory - 1;
       isApplyingHistory := false |}.
Proof.
intros Hflag Hcur Hneq. unfold setState, setStateFrom. rewrite Hflag.
rewrite (setHistoryUpdater_push ns _ _ _ Hcur Hneq). reflexivity.
Qed.

Lemma firstn_succ_nonempty (l : list A) i : l <> [] -> firstn (i + 1) l <> [].
Proof.
destruct l; [congruence|]. rewrite Nat.add_1_r. simpl. discriminate.
Qed.

Lemma history_nonempty h : wf h -> history h <> [].
Proof.
intros [Hidx _] E. rewrite E in Hidx. simpl in Hidx. lia.
Qed.

(** [setState] either leaves the hook as it is or pushes the candidate. *)
Lemma setState_cases ns h :
  setState ns h = h \/
  exists cur,
    state h = Some cur /\
    isApplyingHistory h = false /\
    stringify cur <> stringify (actualNewState ns cur) /\
    setState ns h =
      let newHistory :=
        limitSize (firstn (currentIndex h + 1) (history h) ++ [actualNewState ns cur]) in
      {| history := newHistory;
         currentIndex := length newHistory - 1;
         isApplyingHistory := false |}.
Proof.
destruct (isApplyingHistory h) eqn:Hflag.
- left. unfold setState, setStateFrom. rewrite Hflag. reflexivity.
- destruct (state h) as [cur|] eqn:Hcur.
  + destruct (String.eqb_spec (stringify cur) (stringify (actualNewState ns cur))) as [E|E].
    * left. unfold setState, setStateFrom. rewrite Hflag.
      rewrite (setHistoryUpdater_same ns _ _ _ Hcur E).
      destruct h; cbn in *. rewrite Hflag. reflexivity.
    * right. exists cur. repeat split; try assumption.
      apply setState_push; assumption.
  + left. unfold setState, setStateFrom, setHistoryUpdater. rewrite Hflag.
    rewrite dropFuture_nth. unfold state in Hcur. rewrite Hcur.
    destruct h; cbn in *. rewrite Hflag. reflexivity.
Qed.

(** [setState] with a candidate that serializes like the current entry. *)
Lemma setState_same ns h cur :
  state h = Some cur ->
  stringify (actualNewState ns cur) = stringify cur ->
  setState ns h = h.
Proof.
intros Hcur Heq.
unfold setState, setStateFrom. destruct (isApplyingHistory h) eqn:Hflag; [reflexivity|].
rewrite (setHistoryUpdater_same ns _ _ _ Hcur (eq_sym Heq)).
destruct h; cbn in *. rewrite Hflag. reflexivity.
Qed.

(** After a push the current entry is the candidate. *)
Lemma setState_push_state ns h cur :
  isApplyingHistory h = false ->
  state h = Some cur ->
  stringify cur <> stringify (actualNewState ns cur) ->
  state (setState ns h) = Some (actualNewState ns cur).
Proof.
intros Hflag Hcur Hneq. rewrite (setState_push ns h cur Hflag Hcur Hneq).
cbv zeta. unfold state. cbn [history currentIndex].
apply limitSize_last. apply firstn_succ_nonempty.
intros E. unfold state in Hcur. rewrite E in Hcur.
destruct (currentIndex h); discriminate.
Qed.

Lemma firstn_succ_nth (l : list A) i cur :
  nth_error l i = Some cur -> firstn (i + 1) l = firstn i l ++ [cur].
Proof.
revert i. induction l as [|a l IH]; intros [|i] H; simpl in *; try discriminate.
- inversion H. reflexivity.
- f_equal. apply IH. exact H.
Qed.

Lemma limitSize_cases l : limitSize l = l \/ limitSize l = tl l.
Proof.
unfold limitSize. destruct (maxHistorySize <? length l); [right | left]; reflexivity.
Qed.

(** ** The claims on the hook *)

(** C3. Starting from the single-entry history, after any sequence of
    [setState], [undo], [redo], [clearHistory] (and timer) operations the
    history holds at most [maxHistorySize] entries; and whenever [setState]
    appends an entry that would take the array past the cap, the oldest
    entry is dropped and [currentIndex] is the last index, where the pushed
    value sits.  The cap is at least 1, the size of the initial history. *)
Theorem history_never_exceeds_cap :
  1 <= maxHistorySize ->
  forall ops,
    let h := run ops in
    historySize h <= maxHistorySize /\
    forall ns cur,
      isApplyingHistory h = false ->
      state h = Some cur ->
      stringify cur <> stringify (actualNewState ns cur) ->
      maxHistorySize < length (firstn (currentIndex h + 1) (history h)) + 1 ->
      let h' := setState ns h in
      history h' =
        tl (firstn (currentIndex h + 1) (history h) ++ [actualNewState ns cur]) /\
      currentIndex h' = historySize h' - 1 /\
      state h' = Some (actualNewState ns cur) /\
      historySize h' <= maxHistorySize.
Proof.
intros Hmax ops h.
assert (Hwf : wf h) by (apply reachable_wf, run_reachable).
split.
- destruct Hwf as [_ Hlen]. unfold historySize. lia.
- intros ns cur Hflag Hcur Hneq Hover h'.
  assert (Hwf' : wf h') by (apply setState_wf; exact Hwf).
  subst h'. rewrite (setState_push ns h cur Hflag Hcur Hneq) in *.
  cbv zeta in *. unfold state, historySize. cbn [history currentIndex] in *.
  set (l := firstn (currentIndex h + 1) (history h)) in *.
  assert (Hlim : limitSize (l ++ [actualNewState ns cur]) = tl (l ++ [actualNewState ns cur])).
  { unfold limitSize. rewrite length_app. cbn [length].
    destruct (maxHistorySize <? length l + 1) eqn:E; [reflexivity|].
    apply Nat.ltb_ge in E. lia. }
  repeat split.
  + exact Hlim.
  + apply limitSize_last. apply firstn_succ_nonempty, history_nonempty, Hwf.
  + destruct Hwf' as [_ Hlen']. cbn [history] in Hlen'. lia.
Qed.

(** C4, as the hook has it.  When no undo or redo is being applied (the
    flag [isApplyingHistory] is clear) and [setState] is given a candidate
    that does not serialize like the current entry while [currentIndex] is
    not the last index, every entry after [currentIndex] is discarded, the
    candidate is appended, [currentIndex] moves to the new last index, and
    [canRedo] is false. *)
Theorem setState_discards_redo_branch h ns cur :
  reachable h ->
  isApplyingHistory h = false ->
  state h = Some cur ->
  stringify cur <> stringify (actualNewState ns cur) ->
  currentIndex h < historySize h - 1 ->
  let h' := setState ns h in
  history h' = firstn (currentIndex h + 1) (history h) ++ [actualNewState ns cur] /\
  currentIndex h' = currentIndex h + 1 /\
  currentIndex h' = historySize h' - 1 /\
  state h' = Some (actualNewState ns cur) /\
  canRedo h' = false.
Proof.
intros Hreach Hflag Hcur Hneq Hnottip h'.
pose proof (reachable_wf h Hreach) as Hwf.
subst h'. rewrite (setState_push ns h cur Hflag Hcur Hneq).
cbv zeta. unfold state, historySize, canRedo in *. cbn [history currentIndex].
set (l := firstn (currentIndex h + 1) (history h)).
assert (Hl : length l = currentIndex h + 1)
  by (subst l; rewrite length_firstn; lia).
assert (Hlim : limitSize (l ++ [actualNewState ns cur]) = l ++ [actualNewState ns cur]).
{ unfold limitSize. rewrite length_app, Hl. cbn [length].
  destruct (maxHistorySize <? currentIndex h + 1 + 1) eqn:E; [|reflexivity].
  apply Nat.ltb_lt in E. destruct Hwf as [_ Hlen]. lia. }
rewrite Hlim, length_app, Hl. cbn [length].
repeat split.
- lia.
- rewrite nth_error_app2 by lia.
  replace (currentIndex h + 1 + 1 - 1 - length l) with 0 by lia. reflexivity.
- apply Nat.ltb_ge. lia.
Qed.

(** C6. On every reachable state of the hook with [currentIndex > 0],
    [undo] returns true, a [redo] right after it returns true, and after
    the two calls [state], [canUndo], [canRedo], [historySize] and
    [currentIndex] are what they were before the [undo]; the array itself
    is untouched. *)
Theorem undo_then_redo_restores h :
  reachable h ->
  0 < currentIndex h ->
  let u := undo h in
  let r := redo (snd u) in
  fst u = true /\
  fst r = true /\
  observe (snd r) = observe h /\
  history (snd r) = history h /\
  currentIndex (snd r) = currentIndex h.
Proof.
intros Hreach Hpos u r.
destruct (reachable_wf h Hreach) as [Hidx _].
subst r u. unfold undo, undoFrom.
apply Nat.ltb_lt in Hpos. rewrite Hpos. apply Nat.ltb_lt in Hpos.
cbn [fst snd]. unfold redo, redoFrom. cbn [history currentIndex].
assert (E : (currentIndex h - 1 <? length (history h) - 1) = true)
  by (apply Nat.ltb_lt; lia).
rewrite E. cbn [fst snd].
assert (Hi : currentIndex h - 1 + 1 = currentIndex h) by lia.
unfold observe, state, canUndo, canRedo, historySize. cbn [history currentIndex].
rewrite Hi. repeat split.
Qed.

End UseHistory.

(** ** The hook on numbers *)

(** [JSON.stringify] of a natural number. *)
Definition stringifyNat (n : nat) : string := NilZero.string_of_uint (Nat.to_uint n).

(** With a cap of 2: a first change fills the history. *)
Definition filled : hook nat := run nat stringifyNat 0 2 [SetState nat (Value nat 1)].

(** With a cap of 5: two changes, both undone, the timers fired. *)
Definition rewound : hook nat :=
  run nat stringifyNat 0 5 [SetState nat (Value nat 1); SetState nat (Value nat 2); Undo nat; Undo nat; Timeout nat].

(** With a cap of 5: two changes, both undone, the timers of the two
    [undo] calls not fired yet. *)
Definition undoing : hook nat :=
  run nat stringifyNat 0 5 [SetState nat (Value nat 1); SetState nat (Value nat 2); Undo nat; Undo nat].

(** With a cap of 0 the history still holds one entry: the bound on the
    size needs a cap of at least 1. *)
Example cap_zero_keeps_one_entry :
  historySize nat (run nat stringifyNat 0 0 []) = 1 /\
  history nat (run nat stringifyNat 0 0 [SetState nat (Value nat 1)]) = [1].
Proof.
split; reflexivity.
Qed.

(** A [redo] kept from the render before an [undo] still tests the index
    of that render: at the last index it returns false and does nothing,
    where the [redo] of the render after the [undo] succeeds. *)
Example redo_of_an_earlier_render :
  currentIndex nat filled = 1 /\
  fst (redoFrom nat 1 2 (snd (undo nat filled))) = false /\
  fst (redo nat (snd (undo nat filled))) = true.
Proof.
repeat split.
Qed.

Lemma history_never_exceeds_cap_witness :
  1 <= 2 /\
  historySize nat filled <= 2 /\
  history nat (setState nat stringifyNat 2 (Value nat 2) filled) = [1; 2] /\
  currentIndex nat (setState nat stringifyNat 2 (Value nat 2) filled) = 1.
Proof.
assert (Hcap : 1 <= 2) by lia.
pose proof (history_never_exceeds_cap nat stringifyNat 0 2 Hcap [SetState nat (Value nat 1)])
  as [Hsize Hevict].
assert (Hflag : isApplyingHistory nat filled = false) by reflexivity.
assert (Hcur : state nat filled = Some 1) by reflexivity.
assert (Hneq : stringifyNat 1 <> stringifyNat (actualNewState nat (Value nat 2) 1))
  by (vm_compute; discriminate).
assert (Hover : 2 < length (firstn (currentIndex nat filled + 1) (history nat filled)) + 1)
  by (vm_compute; lia).
destruct (Hevict (Value nat 2) 1 Hflag Hcur Hneq Hover) as (Hh & Hi & _).
split; [exact Hcap|]. split; [exact Hsize|]. split; [exact Hh | exact Hi].
Defined.

Lemma setState_discards_redo_branch_witness :
  reachable nat stringifyNat 0 5 rewound /\
  history nat rewound = [0; 1; 2] /\
  currentIndex nat rewound = 0 /\
  history nat (setState nat stringifyNat 5 (Value nat 7) rewound) = [0; 7] /\
  canRedo nat (setState nat stringifyNat 5 (Value nat 7) rewound) = false.
Proof.
assert (Hreach : reachable nat stringifyNat 0 5 rewound) by apply run_reachable.
assert (Hflag : isApplyingHistory nat rewound = false) by reflexivity.
assert (Hcur : state nat rewound = Some 0) by reflexivity.
assert (Hneq : stringifyNat 0 <> stringifyNat (actualNewState nat (Value nat 7) 0))
  by (vm_compute; discriminate).
assert (Hlt : currentIndex nat rewound < historySize nat rewound - 1)
  by (vm_compute; lia).
destruct (setState_discards_redo_branch nat stringifyNat 0 5 rewound (Value nat 7) 0
            Hreach Hflag Hcur Hneq Hlt) as (Hh & _ & _ & _ & Hredo).
split; [exact Hreach|]. split; [reflexivity|]. split; [reflexivity|].
split; [exact Hh | exact Hredo].
Defined.

(** C4, as stated, fails: right after two undos the index is 0, below the
    last index 2, and the candidate 7 is not the current entry 0; yet
    [setState 7] is dropped by the guard of lines 39-42: the two later
    entries are still there and [redo] is still available. *)
Lemma setState_after_undo_is_dropped :
  reachable nat stringifyNat 0 5 undoing /\
  state nat undoing = Some 0 /\
  stringifyNat 0 <> stringifyNat 7 /\
  currentIndex nat undoing < historySize nat undoing - 1 /\
  history nat (setState nat stringifyNat 5 (Value nat 7) undoing) = [0; 1; 2] /\
  currentIndex nat (setState nat stringifyNat 5 (Value nat 7) undoing) = 0 /\
  canRedo nat (setState nat stringifyNat 5 (Value nat 7) undoing) = true.
Proof.
split; [apply run_reachable|].
split; [reflexivity|].
split; [vm_compute; discriminate|].
split; [vm_compute; lia|].
repeat split.
Qed.

Lemma undo_then_redo_restores_witness :
  reachable nat stringifyNat 0 2 filled /\
  0 < currentIndex nat filled /\
  observe nat (snd (redo nat (snd (undo nat filled)))) = observe nat filled.
Proof.
assert (Hreach : reachable nat stringifyNat 0 2 filled) by apply run_reachable.
assert (Hpos : 0 < currentIndex nat filled) by (vm_compute; lia).
destruct (undo_then_redo_restores nat stringifyNat 0 2 filled Hreach Hpos)
  as (_ & _ & Hobs & _).
split; [exact Hreach|]. split; [exact Hpos | exact Hobs].
Defined.

End History.

(* ===================================================================== *)
(** * nodes/TextNode.jsx *)
(* ===================================================================== *)

Module TextNode.

(** A JavaScript string is the sequence of its UTF-16 code units; a code
    unit is a number.  The regular expression of [variables] has no [u]
    flag, so it, [trim], [includes] and [length] all work on code units. *)
Definition codeUnit : Type := N.
Definition jsString : Type := list codeUnit.

(** The code units of a string literal written in ASCII. *)
Definition js (s : string) : jsString := map N_of_ascii (list_ascii_of_string s).

(** The template literal [`${n}`] of a non-negative integer. *)
Definition decimal (n : nat) : jsString := js (NilZero.string_of_uint (Nat.to_uint n)).

Definition isEmpty (s : jsString) : bool :=
  match s with
  | [] => true
  | _ :: _ => false
  end.

(** [a === b] on strings: the same code units. *)
Fixpoint eqb (a b : jsString) : bool :=
  match a, b with
  | [], [] => true
  | c :: a', d :: b' => N.eqb c d && eqb a' b'
  | _, _ => false
  end.

(** The code units [String.prototype.trim] strips (ECMAScript's WhiteSpace
    and LineTerminator): TAB, LF, VT, FF, CR, SPACE, NBSP, U+1680,
    U+2000..U+200A, LS, PS, U+202F, U+205F, U+3000 and U+FEFF. *)
Definition isWhiteSpace (c : codeUnit) : bool :=
  ((9 <=? c) && (c <=? 13) ||
   (c =? 32) || (c =? 160) || (c =? 5760) ||
   (8192 <=? c) && (c <=? 8202) ||
   (c =? 8232) || (c =? 8233) || (c =? 8239) || (c =? 8287) ||
   (c =? 12288) || (c =? 65279))%N.

Fixpoint trimStart (s : jsString) : jsString :=
  match s with
  | [] => []
  | c :: s' => if isWhiteSpace c then trimStart s' else s
  end.

Fixpoint trimEnd (s : jsString) : jsString :=
  match s with
  | [] => []
  | c :: s' =>
      let t := trimEnd s' in
      if isWhiteSpace c && isEmpty t then [] else c :: t
  end.

(** [String.prototype.trim] *)
Definition trim (s : jsString) : jsString := trimEnd (trimStart s).

(** The code units of [{] and [}]. *)
Definition openBrace : codeUnit := 123%N.
Definition closeBrace : codeUnit := 125%N.

Definition isOpen (c : codeUnit) : bool := N.eqb c openBrace.
Definition isClose (c : codeUnit) : bool := N.eqb c closeBrace.

(** ** The regular expression [/\{\{([^}]+)\}\}/g]

    A backtracking matcher for this one pattern.  All functions take the
    part of the text that starts at the position under consideration and
    return the capture group with what follows the match. *)

(** [\{\{] at the start of [s]. *)
Definition matchOpen (s : jsString) : option jsString :=
  match s with
  | a :: b :: rest => if isOpen a && isOpen b then Some rest else None
  | _ => None
  end.

(** [\}\}] at the start of [s]. *)
Definition matchClose (s : jsString) : option jsString :=
  match s with
  | a :: b :: rest => if isClose a && isClose b then Some rest else None
  | _ => None
  end.

(** [([^}]+)\}\}] at the start of [s]: the class takes one code unit, then
    the greedy repetition first tries to take more, and only when that
    fails is the closing [\}\}] tried at the current position. *)
Fixpoint matchGroup (s : jsString) : option (jsString * jsString) :=
  match s with
  | [] => None
  | c :: s' =>
      if isClose c then None
      else
        match matchGroup s' with
        | Some (m1, rest) => Some (c :: m1, rest)
        | None =>
            match matchClose s' with
            | Some rest => Some ([c], rest)
            | None => None
            end
        end
  end.

(** The whole pattern at the start of [s]. *)
Definition matchHere (s : jsString) : option (jsString * jsString) :=
  match matchOpen s with
  | Some s' => matchGroup s'
  | None => None
  end.

(** [regex.exec(text)] with [s = text.slice(regex.lastIndex)]: the first
    position at or after [lastIndex] where the pattern matches.  The result
    is [match[1]] and [text.slice(lastIndex')] for the new [lastIndex]. *)
Fixpoint exec (s : jsString) : option (jsString * jsString) :=
  match matchHere s with
  | Some r => Some r
  | None =>
      match s with
      | [] => None
      | _ :: s' => exec s'
      end
  end.

(** [matches.includes(varName)] *)
Definition includes (matches : list jsString) (varName : jsString) : bool :=
  existsb (eqb varName) matches.

(** The body of the [while] loop on one match: [varName] is truthy when it
    is not the empty string. *)
Definition pushVar (matches : list jsString) (m1 : jsString) : list jsString :=
  let varName := trim m1 in
  if negb (isEmpty varName) && negb (includes matches varName)
  then matches ++ [varName]
  else matches.

(** [while ((match = regex.exec(text)) !== null) { ... }].  Every match is
    at least five code units long, so [fuel] bounds the number of turns as
    soon as it is the length of the text (lemma [execLoop_fuel]). *)
Fixpoint execLoop (fuel : nat) (s : jsString) (matches : list jsString) : list jsString :=
  match fuel with
  | 0 => matches
  | S fuel' =>
      match exec s with
      | None => matches
      | Some (m1, rest) => execLoop fuel' rest (pushVar matches m1)
      end
  end.

(** [variables] (lines 31-44) *)
Definition variables (text : jsString) : list jsString :=
  execLoop (length text) text [].

(** The values of [match[1]] the loop sees, in order. *)
Fixpoint captures (fuel : nat) (s : jsString) : list jsString :=
  match fuel with
  | 0 => []
  | S fuel' =>
      match exec s with
      | None => []
      | Some (m1, rest) => m1 :: captures fuel' rest
      end
  end.

(** What the loop keeps of a list of captures, before it removes the
    repetitions: each trimmed, the empty results left out. *)
Definition kept (inners : list jsString) : list jsString :=
  filter (fun name => negb (isEmpty name)) (map trim inners).

Inductive handleType : Type := target | source.

(** reactflow's [Position] *)
Inductive Position : Type := Left | Top | Right | Bottom.

Record handle : Type := Handle {
  id : jsString;
  type : handleType;
  position : Position;
  color : jsString;
  style_top : option jsString
}.

(** [array.map((x, index) => f x index)] *)
Fixpoint mapi_from {X Y : Type} (f : X -> nat -> Y) (index : nat) (l : list X) : list Y :=
  match l with
  | [] => []
  | x :: l' => f x index :: mapi_from f (S index) l'
  end.

Definition inputHandle (variable : jsString) (index : nat) : handle :=
  {| id := variable;
     type := target;
     position := Left;
     color := js "#3b82f6";
     style_top := Some (decimal (30 + index * 20) ++ js "%") |}.

Definition outputHandle : handle :=
  {| id := js "output";
     type := source;
     position := Right;
     color := js "#3b82f6";
     style_top := None |}.

(** [handles] (lines 50-71) *)
Definition handles (text : jsString) : list handle :=
  mapi_from inputHandle 0 (variables text) ++ [outputHandle].

(** ** The reference definition, in the words of the specification

    Nothing below uses [trim], [isWhiteSpace] or the matcher. *)

(** Whitespace: the code units that count as such. *)
Definition whiteSpace : list codeUnit :=
  [9; 10; 11; 12; 13; 32; 160; 5760;
   8192; 8193; 8194; 8195; 8196; 8197; 8198; 8199; 8200; 8201; 8202;
   8232; 8233; 8239; 8287; 12288; 65279]%N.

Definition isSpace (c : codeUnit) : bool := existsb (N.eqb c) whiteSpace.

(** A text without the whitespace it starts with. *)
Fixpoint dropSpaces (s : jsString) : jsString :=
  match s with
  | [] => []
  | c :: s' => if isSpace c then dropSpaces s' else s
  end.

(** A name: the inner text without the whitespace around it. *)
Definition strip (inner : jsString) : jsString :=
  rev (dropSpaces (rev (dropSpaces inner))).

(** Empty or whitespace-only. *)
Definition blank (inner : jsString) : bool := forallb isSpace inner.

(** The run of code units before the first [}] and what follows it. *)
Fixpoint innerText (s : jsString) : jsString * jsString :=
  match s with
  | [] => ([], [])
  | c :: s' =>
      if N.eqb c closeBrace then ([], s)
      else let '(inner, rest) := innerText s' in (c :: inner, rest)
  end.

(** [s] without a first [prefix], when it starts with it. *)
Fixpoint after (prefix s : jsString) : option jsString :=
  match prefix, s with
  | [], _ => Some s
  | p :: prefix', c :: s' => if N.eqb p c then after prefix' s' else None
  | _ :: _, [] => None
  end.

(** A variable reference [{{<name>}}] at the start of [s]: [{{], the inner
    text up to the first [}], and [}}].  The specification is silent on the
    code units a name may hold; the inner text is taken to stop at the first
    [}], and a reference whose inner text is not followed by [}}] is
    malformed and is no reference. *)
Definition referenceAt (s : jsString) : option jsString :=
  match after (js "{{") s with
  | Some s' =>
      let '(inner, rest) := innerText s' in
      match after (js "}}") rest with
      | Some _ => Some inner
      | None => None
      end
  | None => None
  end.

(** The inner texts of the references of [s], left to right; [skip] code
    units belong to the reference just found and are passed over. *)
Fixpoint occurrencesFrom (skip : nat) (s : jsString) : list jsString :=
  match s with
  | [] => []
  | _ :: s' =>
      match skip with
      | S k => occurrencesFrom k s'
      | 0 =>
          match referenceAt s with
          | Some inner => inner :: occurrencesFrom (length inner + 3) s'
          | None => occurrencesFrom 0 s'
          end
      end
  end.

Definition occurrences (text : jsString) : list jsString := occurrencesFrom 0 text.

(** The same name: the same code units. *)
Definition sameName (a b : jsString) : bool :=
  if list_eq_dec N.eq_dec a b then true else false.

(** First-seen, de-duplicated: each name stays where it first occurs. *)
Fixpoint dedup (l : list jsString) : list jsString :=
  match l with
  | [] => []
  | x :: l' => x :: filter (fun y => negb (sameName y x)) (dedup l')
  end.

Inductive direction : Type := dir_in | dir_out.

(** The names of a list of references: the empty and whitespace-only inner
    texts are discarded, the others trimmed of surrounding whitespace. *)
Definition names (inners : list jsString) : list jsString :=
  map strip (filter (fun inner => negb (blank inner)) inners).

Definition spec_names (text : jsString) : list jsString :=
  dedup (names (occurrences text)).

Definition spec_handles (text : jsString) : list (jsString * direction) :=
  map (fun name => (name, dir_in)) (spec_names text) ++ [(js "output", dir_out)].

Definition directionOf (h : handle) : direction :=
  match type h with
  | target => dir_in
  | source => dir_out
  end.

(** ** Strings *)

Lemma eqb_spec a b : reflect (a = b) (eqb a b).
Proof.
revert b. induction a as [|c a IH]; intros [|d b]; cbn [eqb];
  try (constructor; congruence).
destruct (N.eqb_spec c d) as [->|Hne]; cbn [andb].
- destruct (IH b) as [->|Hne]; constructor; congruence.
- constructor. congruence.
Qed.

Lemma eqb_sameName a b : eqb a b = sameName a b.
Proof.
unfold sameName. destruct (eqb_spec a b) as [E|E];
  destruct (list_eq_dec N.eq_dec a b); congruence.
Qed.

Lemma sameName_refl a : sameName a a = true.
Proof.
unfold sameName. destruct (list_eq_dec N.eq_dec a a); congruence.
Qed.

Lemma sameName_eq a b : sameName a b = true -> a = b.
Proof.
unfold sameName. destruct (list_eq_dec N.eq_dec a b); congruence.
Qed.

(** ** [trim] against the reference *)

Lemma isSpace_In c : isSpace c = true <-> In c whiteSpace.
Proof.
unfold isSpace. rewrite existsb_exists. split.
- intros [d [Hin Heq]]. apply N.eqb_eq in Heq. subst. exact Hin.
- intros Hin. exists c. split; [exact Hin | apply N.eqb_refl].
Qed.

Lemma isWhiteSpace_In c : isWhiteSpace c = true <-> In c whiteSpace.
Proof.
split.
- unfold isWhiteSpace. intros H.
  repeat (apply orb_true_iff in H; destruct H as [H|H]);
    try (apply N.eqb_eq in H; subst c; cbn; tauto).
  + apply andb_true_iff in H. destruct H as [H1 H2].
    apply N.leb_le in H1, H2.
    assert (E : (c = 9 \/ c = 10 \/ c = 11 \/ c = 12 \/ c = 13)%N) by lia.
    cbn. intuition.
  + apply andb_true_iff in H. destruct H as [H1 H2].
    apply N.leb_le in H1, H2.
    assert (E : (c = 8192 \/ c = 8193 \/ c = 8194 \/ c = 8195 \/ c = 8196 \/ c = 8197 \/
                 c = 8198 \/ c = 8199 \/ c = 8200 \/ c = 8201 \/ c = 8202)%N) by lia.
    cbn. intuition.
- intros Hin. cbn in Hin.
  repeat (destruct Hin as [Hin|Hin]; [subst c; reflexivity|]).
  contradiction.
Qed.

Lemma isWhiteSpace_isSpace c : isWhiteSpace c = isSpace c.
Proof.
pose proof (isWhiteSpace_In c) as H1. pose proof (isSpace_In c) as H2.
destruct (isWhiteSpace c), (isSpace c); try reflexivity.
- symmetry. apply H2, H1. reflexivity.
- apply H1, H2. reflexivity.
Qed.

Lemma trimStart_dropSpaces s : trimStart s = dropSpaces s.
Proof.
induction s as [|c s IH]; [reflexivity|].
cbn [trimStart dropSpaces]. rewrite isWhiteSpace_isSpace, IH. reflexivity.
Qed.

Lemma dropSpaces_snoc s c :
  dropSpaces (s ++ [c]) =
  match dropSpaces s with
  | [] => if isSpace c then [] else [c]
  | d :: t => (d :: t) ++ [c]
  end.
Proof.
induction s as [|e s IH]; [reflexivity|].
cbn [List.app dropSpaces]. destruct (isSpace e); [exact IH | reflexivity].
Qed.

Lemma trimEnd_dropSpaces s : trimEnd s = rev (dropSpaces (rev s)).
Proof.
induction s as [|c s IH]; [reflexivity|].
cbn [trimEnd rev]. rewrite dropSpaces_snoc, IH, isWhiteSpace_isSpace.
destruct (dropSpaces (rev s)) as [|d t].
- cbn [rev isEmpty]. rewrite andb_true_r. destruct (isSpace c); reflexivity.
- assert (E : isEmpty (rev (d :: t)) = false).
  { cbn [rev]. destruct (rev t); reflexivity. }
  rewrite E, andb_false_r. rewrite rev_app_distr. reflexivity.
Qed.

Lemma trim_strip s : trim s = strip s.
Proof.
unfold trim, strip. rewrite trimEnd_dropSpaces, trimStart_dropSpaces. reflexivity.
Qed.

Lemma dropSpaces_nil s : dropSpaces s = [] <-> blank s = true.
Proof.
unfold blank. induction s as [|c s IH]; [split; reflexivity|].
cbn [dropSpaces forallb]. destruct (isSpace c); cbn [andb]; [exact IH|].
split; discriminate.
Qed.

Lemma dropSpaces_head s c t : dropSpaces s = c :: t -> isSpace c = false.
Proof.
induction s as [|d s IH]; [discriminate|].
cbn [dropSpaces]. destruct (isSpace d) eqn:E; [exact IH|].
intros H. inversion H; subst. exact E.
Qed.

(** Trimming leaves nothing exactly of the empty and whitespace-only
    texts. *)
Lemma strip_nil s : strip s = [] <-> blank s = true.
Proof.
unfold strip. rewrite <- dropSpaces_nil. split.
- intros H. destruct (dropSpaces s) as [|c t] eqn:E; [reflexivity|].
  exfalso. pose proof (dropSpaces_head _ _ _ E) as Hc.
  cbn [rev] in H. rewrite dropSpaces_snoc in H.
  destruct (dropSpaces (rev t)) as [|d u].
  + rewrite Hc in H. discriminate.
  + apply (f_equal (@length _)) in H. rewrite length_rev, length_app in H.
    cbn [length] in H. lia.
- intros H. rewrite H. reflexivity.
Qed.

Lemma kept_names inners : kept inners = names inners.
Proof.
unfold kept, names. induction inners as [|inner inners IH]; [reflexivity|].
cbn [map filter]. rewrite IH, trim_strip.
destruct (blank inner) eqn:E; cbn [negb].
- apply strip_nil in E. rewrite E. reflexivity.
- destruct (strip inner) as [|c t] eqn:Es.
  + apply strip_nil in Es. congruence.
  + cbn [isEmpty negb map]. rewrite Es. reflexivity.
Qed.

(** ** The matcher against the reference *)

Lemma innerText_append s inner rest :
  innerText s = (inner, rest) -> s = inner ++ rest.
Proof.
revert inner rest. induction s as [|c s IH]; intros inner rest H; cbn [innerText] in H.
- inversion H. reflexivity.
- destruct (N.eqb c closeBrace).
  + inversion H. reflexivity.
  + destruct (innerText s) as [i r]. inversion H; subst.
    cbn [List.app]. f_equal. apply IH. reflexivity.
Qed.

Lemma matchOpen_some s rest :
  matchOpen s = Some rest -> s = openBrace :: openBrace :: rest.
Proof.
unfold matchOpen, isOpen. intros H.
destruct s as [|a [|b s]]; try discriminate.
destruct (N.eqb_spec a openBrace); [|discriminate].
destruct (N.eqb_spec b openBrace); [|discriminate].
inversion H. subst. reflexivity.
Qed.

Lemma matchClose_some s rest :
  matchClose s = Some rest -> s = closeBrace :: closeBrace :: rest.
Proof.
unfold matchClose, isClose. intros H.
destruct s as [|a [|b s]]; try discriminate.
destruct (N.eqb_spec a closeBrace); [|discriminate].
destruct (N.eqb_spec b closeBrace); [|discriminate].
inversion H. subst. reflexivity.
Qed.

Lemma matchClose_close c s : isClose c = false -> matchClose (c :: s) = None.
Proof.
intros H. unfold matchClose. rewrite H. destruct s; reflexivity.
Qed.

Lemma after_open s : after (js "{{") s = matchOpen s.
Proof.
change (js "{{") with [openBrace; openBrace]. unfold matchOpen, isOpen.
destruct s as [|a [|b s]]; cbn [after]; try reflexivity.
- destruct (N.eqb openBrace a); reflexivity.
- rewrite (N.eqb_sym openBrace a), (N.eqb_sym openBrace b).
  destruct (N.eqb a openBrace), (N.eqb b openBrace); reflexivity.
Qed.

Lemma after_close s : after (js "}}") s = matchClose s.
Proof.
change (js "}}") with [closeBrace; closeBrace]. unfold matchClose, isClose.
destruct s as [|a [|b s]]; cbn [after]; try reflexivity.
- destruct (N.eqb closeBrace a); reflexivity.
- rewrite (N.eqb_sym closeBrace a), (N.eqb_sym closeBrace b).
  destruct (N.eqb a closeBrace), (N.eqb b closeBrace); reflexivity.
Qed.

(** The greedy, backtracking group takes exactly the inner text, provided
    it is not empty and [}}] follows it. *)
Lemma matchGroup_innerText s :
  matchGroup s =
    let '(inner, rest) := innerText s in
    if isEmpty inner then None
    else match matchClose rest with
         | Some rest' => Some (inner, rest')
         | None => None
         end.
Proof.
induction s as [|c s IH]; cbn [matchGroup innerText]; [reflexivity|].
change (N.eqb c closeBrace) with (isClose c).
destruct (isClose c) eqn:Ec; [reflexivity|].
rewrite IH. destruct (innerText s) as [inner rest] eqn:Ei.
destruct inner as [|d inner]; cbn [isEmpty].
- apply innerText_append in Ei. cbn [List.app] in Ei. subst rest.
  destruct (matchClose s); reflexivity.
- destruct (matchClose rest); [reflexivity|].
  assert (Hs : exists s', s = d :: s' /\ isClose d = false).
  { destruct s as [|e s']; cbn [innerText] in Ei; [discriminate|].
    change (N.eqb e closeBrace) with (isClose e) in Ei.
    destruct (isClose e) eqn:Ee; [discriminate|].
    destruct (innerText s'). inversion Ei; subst. eauto. }
  destruct Hs as [s' [-> Hd]]. rewrite matchClose_close by exact Hd.
  reflexivity.
Qed.

Lemma matchGroup_shorter s m1 rest :
  matchGroup s = Some (m1, rest) -> length rest < length s.
Proof.
revert m1 rest. induction s as [|c s IH]; intros m1 rest H; cbn [matchGroup] in H;
  [discriminate|].
destruct (isClose c); [discriminate|].
destruct (matchGroup s) as [[m r]|] eqn:E.
- inversion H; subst. specialize (IH _ _ eq_refl). cbn [length]. lia.
- destruct (matchClose s) as [r|] eqn:Ecl; [|discriminate].
  inversion H; subst. apply matchClose_some in Ecl. subst. cbn [length]. lia.
Qed.

Lemma matchHere_shorter s m1 rest :
  matchHere s = Some (m1, rest) -> length rest < length s.
Proof.
unfold matchHere. intros H.
destruct (matchOpen s) as [s'|] eqn:E; [|discriminate].
apply matchOpen_some in E. subst s.
apply matchGroup_shorter in H. cbn [length]. lia.
Qed.

Lemma exec_shorter s m1 rest :
  exec s = Some (m1, rest) -> length rest < length s.
Proof.
induction s as [|c s IH]; intros H.
- cbn in H. discriminate.
- cbn [exec] in H. destruct (matchHere (c :: s)) as [r|] eqn:E.
  + inversion H; subst. apply matchHere_shorter in E. exact E.
  + specialize (IH H). cbn [length]. lia.
Qed.

Lemma referenceAt_matchHere s :
  match referenceAt s with
  | Some [] =>
      matchHere s = None /\
      exists rest, s = openBrace :: openBrace :: closeBrace :: closeBrace :: rest
  | Some inner =>
      exists rest, matchHere s = Some (inner, rest) /\
        s = openBrace :: openBrace :: inner ++ closeBrace :: closeBrace :: rest
  | None => matchHere s = None
  end.
Proof.
unfold referenceAt, matchHere. rewrite after_open.
destruct (matchOpen s) as [s'|] eqn:Eo; [|reflexivity].
apply matchOpen_some in Eo. subst s.
rewrite matchGroup_innerText.
destruct (innerText s') as [inner rest] eqn:Ei.
apply innerText_append in Ei. rewrite after_close.
destruct (matchClose rest) as [rest'|] eqn:Ec.
- apply matchClose_some in Ec. subst rest s'.
  destruct inner as [|c inner]; cbn [isEmpty].
  + split; [reflexivity|]. eexists. reflexivity.
  + eexists. split; reflexivity.
- destruct inner; reflexivity.
Qed.

Lemma exec_cons_none c s : matchHere (c :: s) = None -> exec (c :: s) = exec s.
Proof.
intros H. cbn [exec]. rewrite H. reflexivity.
Qed.

Lemma exec_close c s : isOpen c = false -> exec (c :: s) = exec s.
Proof.
intros H. apply exec_cons_none. unfold matchHere, matchOpen.
rewrite H. destruct s; reflexivity.
Qed.

Lemma exec_open_close a b s :
  isOpen b = false -> exec (a :: b :: s) = exec (b :: s).
Proof.
intros H. apply exec_cons_none. unfold matchHere, matchOpen.
rewrite H, andb_false_r. reflexivity.
Qed.

(** ** The loop never runs out of fuel *)

Lemma captures_fuel f1 : forall f2 s,
  length s <= f1 -> length s <= f2 -> captures f1 s = captures f2 s.
Proof.
induction f1 as [|f1 IH]; intros f2 s H1 H2.
- destruct s; [|cbn [length] in H1; lia]. destruct f2; reflexivity.
- destruct f2 as [|f2].
  + destruct s; [reflexivity | cbn [length] in H2; lia].
  + cbn [captures]. destruct (exec s) as [[m1 rest]|] eqn:E; [|reflexivity].
    apply exec_shorter in E. f_equal. apply IH; lia.
Qed.

Lemma execLoop_captures fuel : forall s acc,
  execLoop fuel s acc = fold_left pushVar (captures fuel s) acc.
Proof.
induction fuel as [|fuel IH]; intros s acc; cbn [execLoop captures]; [reflexivity|].
destruct (exec s) as [[m1 rest]|]; [|reflexivity].
cbn [fold_left]. apply IH.
Qed.

(** More fuel than the length of the text changes nothing: with
    [text.length] turns the loop always ends on [exec] returning [null]. *)
Lemma execLoop_fuel fuel text acc :
  length text <= fuel ->
  execLoop fuel text acc = execLoop (length text) text acc.
Proof.
intros H. rewrite !execLoop_captures.
rewrite (captures_fuel fuel (length text) text); [reflexivity | exact H | lia].
Qed.

(** ** The scan against the reference *)

Lemma occurrencesFrom_skip inner : forall k r,
  occurrencesFrom (length inner + k) (inner ++ r) = occurrencesFrom k r.
Proof.
induction inner as [|c inner IH]; intros k r; cbn [length List.app Nat.add occurrencesFrom];
  [reflexivity|].
apply IH.
Qed.

Lemma occurrencesFrom_after inner rest :
  occurrencesFrom (length inner + 3)
    (openBrace :: inner ++ closeBrace :: closeBrace :: rest) =
  occurrencesFrom 0 rest.
Proof.
replace (length inner + 3) with (S (length inner + 2)) by lia.
cbn [occurrencesFrom]. rewrite occurrencesFrom_skip. reflexivity.
Qed.

Lemma kept_cons_empty l : kept ([] :: l) = kept l.
Proof.
reflexivity.
Qed.

Lemma captures_some s m1 rest :
  exec s = Some (m1, rest) ->
  captures (length s) s = m1 :: captures (length rest) rest.
Proof.
intros E. pose proof (exec_shorter _ _ _ E) as Hlt.
destruct s as [|c s]; [cbn [length] in Hlt; lia|].
cbn [length captures]. rewrite E. f_equal.
cbn [length] in Hlt. apply captures_fuel; lia.
Qed.

Lemma captures_none s : exec s = None -> captures (length s) s = [].
Proof.
intros E. destruct s; cbn [length captures]; [reflexivity|].
rewrite E. reflexivity.
Qed.

Lemma captures_same_exec s t :
  exec s = exec t ->
  captures (length s) s = captures (length t) t.
Proof.
intros E. destruct (exec t) as [[m1 rest]|] eqn:Et.
- rewrite (captures_some _ _ _ E), (captures_some _ _ _ Et). reflexivity.
- rewrite (captures_none _ E), (captures_none _ Et). reflexivity.
Qed.

Lemma scan_refines n : forall s,
  length s <= n ->
  kept (captures (length s) s) = kept (occurrencesFrom 0 s).
Proof.
induction n as [|n IH]; intros s Hn.
- destruct s; [reflexivity | cbn [length] in Hn; lia].
- destruct s as [|c s]; [reflexivity|].
  cbn [length] in Hn.
  pose proof (referenceAt_matchHere (c :: s)) as Href.
  cbn [occurrencesFrom].
  destruct (referenceAt (c :: s)) as [[|d inner]|].
  + (* an empty reference: the matcher moves on, the reference drops it *)
    destruct Href as [Hnone [rest Hs]].
    assert (E : exec (c :: s) = exec rest).
    { rewrite (exec_cons_none _ _ Hnone). inversion Hs; subst c s.
      rewrite (exec_open_close openBrace closeBrace) by reflexivity.
      rewrite (exec_close closeBrace) by reflexivity.
      rewrite (exec_close closeBrace) by reflexivity. reflexivity. }
    rewrite (captures_same_exec _ _ E).
    inversion Hs; subst c s. cbn [length] in Hn.
    rewrite kept_cons_empty. cbn [length Nat.add occurrencesFrom].
    apply IH. lia.
  + (* a reference with a name: both take it and go on after it *)
    destruct Href as [rest [Hsome Hs]].
    assert (E : exec (c :: s) = Some (d :: inner, rest))
      by (cbn [exec]; rewrite Hsome; reflexivity).
    rewrite (captures_some _ _ _ E).
    apply matchHere_shorter in Hsome. cbn [length] in Hsome.
    assert (Hocc : occurrencesFrom (length (d :: inner) + 3) s =
                   occurrencesFrom 0 rest).
    { inversion Hs as [[Hc Hs']]. apply (occurrencesFrom_after (d :: inner)). }
    rewrite Hocc.
    unfold kept at 1 2. cbn [map filter].
    fold (kept (captures (length rest) rest)).
    fold (kept (occurrencesFrom 0 rest)).
    rewrite (IH rest) by lia.
    reflexivity.
  + (* no reference here: both move on by one code unit *)
    rewrite (captures_same_exec _ _ (exec_cons_none _ _ Href)).
    apply IH. lia.
Qed.

(** ** The accumulating loop against de-duplication *)

Lemma filter_swap (P Q : jsString -> bool) l :
  filter P (filter Q l) = filter Q (filter P l).
Proof.
induction l as [|x l IH]; cbn [filter]; [reflexivity|].
destruct (P x) eqn:EP, (Q x) eqn:EQ; cbn [filter]; rewrite ?EP, ?EQ, IH; reflexivity.
Qed.

Lemma filter_both (P Q : jsString -> bool) l :
  filter P (filter Q l) = filter (fun y => Q y && P y) l.
Proof.
induction l as [|x l IH]; cbn [filter]; [reflexivity|].
destruct (Q x) eqn:EQ; cbn [filter andb]; [destruct (P x)|]; rewrite IH; reflexivity.
Qed.

Lemma filter_implied (P Q : jsString -> bool) l :
  (forall y, Q y = true -> P y = true) ->
  filter Q (filter P l) = filter Q l.
Proof.
intros H. induction l as [|x l IH]; cbn [filter]; [reflexivity|].
destruct (P x) eqn:EP; cbn [filter].
- rewrite IH. reflexivity.
- destruct (Q x) eqn:EQ; [|exact IH].
  apply H in EQ. congruence.
Qed.

Lemma dedup_filter (Q : jsString -> bool) l :
  dedup (filter Q l) = filter Q (dedup l).
Proof.
induction l as [|x l IH]; cbn [filter dedup]; [reflexivity|].
destruct (Q x) eqn:EQ; cbn [filter dedup].
- rewrite IH. f_equal. apply filter_swap.
- rewrite IH. symmetry. apply filter_implied.
  intros y Hy. destruct (sameName y x) eqn:E; [|reflexivity].
  apply sameName_eq in E. congruence.
Qed.

Lemma includes_snoc acc v y :
  includes (acc ++ [v]) y = includes acc y || sameName y v.
Proof.
unfold includes. rewrite existsb_app. cbn [existsb].
rewrite orb_false_r, eqb_sameName. reflexivity.
Qed.

(** The loop body folded over the captures: the names already in [matches]
    stay, and the others follow in first-seen order. *)
Lemma fold_pushVar l : forall acc,
  fold_left pushVar l acc =
  acc ++ dedup (filter (fun v => negb (isEmpty v) && negb (includes acc v)) (map trim l)).
Proof.
induction l as [|m1 l IH]; intros acc; cbn [fold_left map filter].
- cbn [dedup]. rewrite app_nil_r. reflexivity.
- unfold pushVar at 2. cbv zeta.
  destruct (negb (isEmpty (trim m1)) && negb (includes acc (trim m1))) eqn:E.
  + rewrite IH. rewrite <- app_assoc. cbn [dedup List.app]. do 2 f_equal.
    rewrite <- dedup_filter, filter_both. f_equal.
    apply filter_ext. intros y. rewrite includes_snoc, negb_orb, andb_assoc.
    reflexivity.
  + apply IH.
Qed.

Lemma variables_spec_names text : variables text = spec_names text.
Proof.
unfold variables, spec_names, occurrences.
rewrite execLoop_captures, fold_pushVar. cbn [List.app].
rewrite <- kept_names, <- (scan_refines (length text) text (le_n _)).
unfold kept. f_equal. apply filter_ext. intros v. apply andb_true_r.
Qed.

Lemma map_mapi_inputHandle l : forall index,
  map (fun h => (id h, directionOf h)) (mapi_from inputHandle index l) =
  map (fun name => (name, dir_in)) l.
Proof.
induction l as [|x l IH]; intros index; cbn [mapi_from map]; [reflexivity|].
rewrite IH. reflexivity.
Qed.

(** ** The derivation on a few texts *)

Example name_is_trimmed : variables (js "{{  x  }} and {{x}}") = [js "x"].
Proof.
vm_compute. reflexivity.
Qed.

Example unbalanced_open : variables (js "{{a and {{b}}") = [js "a and {{b"].
Proof.
vm_compute. reflexivity.
Qed.

Example single_close_inside : variables (js "{{a}b}} {{c}}") = [js "c"].
Proof.
vm_compute. reflexivity.
Qed.

Example empty_braces : variables (js "{{}}{{a}}") = [js "a"].
Proof.
vm_compute. reflexivity.
Qed.

(** A line break inside the braces is part of the inner text (the class
    [[^}]] takes it) and is trimmed away at its ends. *)
Example name_across_lines :
  variables (js "{{" ++ [10; 97; 10; 98; 13] ++ js "}}")%N = [[97; 10; 98]%N].
Proof.
vm_compute. reflexivity.
Qed.

(** ** The claim on the text node *)

(** [{{], EM SPACE, [x], ZERO WIDTH NO-BREAK SPACE, [}}]. *)
Definition wideSpaces : jsString := (js "{{" ++ [8195; 120; 65279] ++ js "}}")%N.

(** C7. For every text, the handles the text node derives are those of the
    reference definition: the references [{{name}}] found left to right,
    the empty and whitespace-only inner texts discarded, the others trimmed
    of the whitespace around them, the distinct names in first-seen order as
    input handles named after them, and one output handle ["output"] last.
    On the text of the specification the handle ids are ["name"], ["age"],
    ["output"]; a whitespace-only reference gives no handle, whichever the
    whitespace. *)
Theorem handles_refine_reference :
  (forall text,
     map (fun h => (id h, directionOf h)) (handles text) = spec_handles text) /\
  map id (handles (js "Hello {{name}}, you are {{age}} and {{name}} again")) =
    [js "name"; js "age"; js "output"] /\
  map id (handles (js "a {{ }} b")) = [js "output"] /\
  map id (handles (js "{{" ++ [9; 160; 8232; 12288] ++ js "}}")%N) = [js "output"] /\
  map id (handles wideSpaces) = [js "x"; js "output"].
Proof.
split.
- intros text. unfold handles, spec_handles.
  rewrite map_app, map_mapi_inputHandle, variables_spec_names. reflexivity.
- repeat split; vm_compute; reflexivity.
Qed.

End TextNode.

(* ===================================================================== *)
(** * JSON.stringify on the editor's values *)
(* ===================================================================== *)

Module JSON.

Definition dquote : ascii := ascii_of_nat 34.
Definition backslash : ascii := ascii_of_nat 92.

Definition hexDigit (n : nat) : ascii :=
  nth n (list_ascii_of_string "0123456789abcdef") "0"%char.

(** One code unit inside a JSON string (QuoteJSONString). *)
Definition escapeChar (c : ascii) : string :=
  let n := nat_of_ascii c in
  if n =? 34 then String backslash (String dquote EmptyString)
  else if n =? 92 then String backslash (String backslash EmptyString)
  else if n =? 8 then String backslash "b"
  else if n =? 9 then String backslash "t"
  else if n =? 10 then String backslash "n"
  else if n =? 12 then String backslash "f"
  else if n =? 13 then String backslash "r"
  else if n <? 32 then
    (String backslash "u00" ++
     String (hexDigit (n / 16)) (String (hexDigit (n mod 16)) EmptyString))%string
  else String c EmptyString.

Fixpoint escape (s : string) : string :=
  match s with
  | EmptyString => EmptyString
  | String c s' => (escapeChar c ++ escape s')%string
  end.

Definition quote (s : string) : string :=
  String dquote (escape s ++ String dquote EmptyString)%string.

Fixpoint join (l : list string) : string :=
  match l with
  | [] => EmptyString
  | [s] => s
  | s :: l' => (s ++ "," ++ join l')%string
  end.

Definition array (items : list string) : string :=
  ("[" ++ join items ++ "]")%string.

(** An object from its keys in order; a key whose value is [undefined]
    ([None]) is left out. *)
Definition member (kv : string * option string) : list string :=
  match snd kv with
  | Some v => [(quote (fst kv) ++ ":" ++ v)%string]
  | None => []
  end.

Definition object (fields : list (string * option string)) : string :=
  ("{" ++ join (flat_map member fields) ++ "}")%string.

Definition ofBool (b : bool) : string := if b then "true" else "false".
Definition ofZ (z : Z) : string := NilZero.string_of_int (Z.to_int z).
Definition ofN (n : N) : string := NilZero.string_of_uint (N.to_uint n).

(** A value that is a string or [null]. *)
Definition ofNullable (s : option string) : string :=
  match s with
  | Some s => quote s
  | None => "null"
  end.

End JSON.

(* ===================================================================== *)
(** * The hook on objects *)
(* ===================================================================== *)

Module Objects.

(** A JavaScript object whose properties hold integers: its own keys with
    their values, in insertion order.  The keys are not integer-like, so
    insertion order is the order in which [JSON.stringify] prints them. *)
Definition object : Type := list (string * Z).

(** [JSON.stringify] of such an object. *)
Definition stringify (o : object) : string :=
  JSON.object (map (fun kv => (fst kv, Some (JSON.ofZ (snd kv)))) o).

(** [o[k]] *)
Fixpoint get (k : string) (o : object) : option Z :=
  match o with
  | [] => None
  | (k', v) :: o' => if String.eqb k' k then Some v else get k o'
  end.

(** Deep equality of two such objects: as many keys, and every key with
    the same value in both, in whatever order the keys were inserted. *)
Definition deepEqual (a b : object) : Prop :=
  length a = length b /\ forall k, get k a = get k b.

(** [{ x: 1, y: 2 }] and [{ y: 2, x: 1 }] *)
Definition point : object := [("x", 1%Z); ("y", 2%Z)].
Definition samePoint : object := [("y", 2%Z); ("x", 1%Z)].

(** [useHistory(point)], with the default cap. *)
Definition started : History.hook object := History.init object point.

Definition setState (ns : History.newState object) (h : History.hook object) :
    History.hook object :=
  History.setState object stringify 50 ns h.

(** C5 fails on the code.  [samePoint] is deep-equal to the entry at
    [currentIndex], [point]; the hook compares the two [JSON.stringify]
    outputs, which print the keys in insertion order and differ; so
    [setState], given [samePoint] or an updater function that returns it,
    appends an entry and moves the index. *)
Theorem deep_equal_candidate_is_pushed :
  History.state object started = Some point /\
  deepEqual samePoint point /\
  stringify point = ("{" ++ JSON.quote "x" ++ ":1," ++ JSON.quote "y" ++ ":2}")%string /\
  stringify samePoint = ("{" ++ JSON.quote "y" ++ ":2," ++ JSON.quote "x" ++ ":1}")%string /\
  History.history object (setState (History.Value object samePoint) started) =
    [point; samePoint] /\
  History.historySize object (setState (History.Value object samePoint) started) = 2 /\
  History.currentIndex object (setState (History.Value object samePoint) started) = 1 /\
  History.history object
    (setState (History.Updater object (fun _ => samePoint)) started) = [point; samePoint].
Proof.
split; [reflexivity|]. split.
- split; [reflexivity|]. intros k. cbn [get samePoint point].
  destruct (String.eqb_spec "y" k) as [Ey|Ey], (String.eqb_spec "x" k) as [Ex|Ex];
    try reflexivity.
  subst k. discriminate.
- repeat split; vm_compute; reflexivity.
Qed.

End Objects.

(* ===================================================================== *)
(** * components/NodeEditor.jsx *)
(* ===================================================================== *)

Module Editor.

(** ** The graph state *)

(** Coordinates are stored and serialized, never computed with; they are
    taken as integers. *)
Record XY : Type := { x : Z; y : Z }.

(** A value of a node's [data]: a string, or a number given by the text
    [JSON.stringify] prints for it. *)
Inductive datum : Type :=
| DString (s : string)
| DNumber (lit : string).

(** A node object.  [selected] and [dragging] are absent ([None]) on the
    nodes the editor creates; the rendering library adds them to its copy. *)
Record Node : Type := {
  id : string;
  type : string;
  position : XY;
  data : list (string * datum);
  selected : option bool;
  dragging : option bool
}.

(** An edge object; a handle is a string or [null]. *)
Record Edge : Type := {
  edge_id : string;
  source : string;
  target : string;
  sourceHandle : option string;
  targetHandle : option string;
  edge_selected : option bool
}.

Record GraphState : Type := {
  nodes : list Node;
  edges : list Edge;
  nodeIdCounter : N
}.

Definition mkNode (i t : string) (p : XY) (d : list (string * datum)) : Node :=
  {| id := i; type := t; position := p; data := d;
     selected := None; dragging := None |}.

Definition initialNodes : list Node :=
  [ mkNode "1" "inputNode" {| x := 100; y := 100 |} [("label", DString "Input Node")];
    mkNode "2" "textNode" {| x := 400; y := 100 |} [("text", DString "Hello {{input}}!")];
    mkNode "3" "outputNode" {| x := 700; y := 100 |} [("label", DString "Output Node")] ].

Definition initialEdges : list Edge :=
  [ {| edge_id := "e1-2"; source := "1"; target := "2";
       sourceHandle := Some "output"; targetHandle := Some "input";
       edge_selected := None |};
    {| edge_id := "e2-3"; source := "2"; target := "3";
       sourceHandle := Some "output"; targetHandle := Some "input";
       edge_selected := None |} ].

Definition initialState : GraphState :=
  {| nodes := initialNodes; edges := initialEdges; nodeIdCounter := 4 |}.

(** [useHistory(initialState, 100)] *)
Definition maxHistorySize : nat := 100.

(** ** [JSON.stringify] of a graph state

    A record keeps the values of a node's properties, not the order in
    which the object received them, nor the properties the rendering
    library may add besides [selected] and [dragging].  The keys are printed
    in the order in which the editor's own code writes them.  The text below
    is therefore a function of the values the object holds: two states whose
    texts differ have different [JSON.stringify] outputs, and that direction
    alone is used where a theorem speaks of a change being recorded.  That
    two states with the same text have the same output holds where the
    second is made of the very objects of the first (as when
    [updateNodeData] finds no node to change) and in the closed runs, whose
    objects are built by one code path; it is not used for arbitrary objects
    of the library. *)

Definition stringifyXY (p : XY) : string :=
  JSON.object [("x", Some (JSON.ofZ (x p))); ("y", Some (JSON.ofZ (y p)))].

Definition stringifyDatum (d : datum) : string :=
  match d with
  | DString s => JSON.quote s
  | DNumber lit => lit
  end.

Definition stringifyData (d : list (string * datum)) : string :=
  JSON.object (map (fun kv => (fst kv, Some (stringifyDatum (snd kv)))) d).

Definition stringifyNode (n : Node) : string :=
  JSON.object
    [("id", Some (JSON.quote (id n)));
     ("type", Some (JSON.quote (type n)));
     ("position", Some (stringifyXY (position n)));
     ("data", Some (stringifyData (data n)));
     ("selected", option_map JSON.ofBool (selected n));
     ("dragging", option_map JSON.ofBool (dragging n))].

Definition stringifyEdge (e : Edge) : string :=
  JSON.object
    [("id", Some (JSON.quote (edge_id e)));
     ("source", Some (JSON.quote (source e)));
     ("target", Some (JSON.quote (target e)));
     ("sourceHandle", Some (JSON.ofNullable (sourceHandle e)));
     ("targetHandle", Some (JSON.ofNullable (targetHandle e)));
     ("selected", option_map JSON.ofBool (edge_selected e))].

Definition stringify (s : GraphState) : string :=
  JSON.object
    [("nodes", Some (JSON.array (map stringifyNode (nodes s))));
     ("edges", Some (JSON.array (map stringifyEdge (edges s))));
     ("nodeIdCounter", Some (JSON.ofN (nodeIdCounter s)))].

(** ** The hook at the editor's state *)

Definition hook : Type := History.hook GraphState.
Definition newState : Type := History.newState GraphState.

Definition setStateFrom (renderedIndex : nat) (ns : newState) (h : hook) : hook :=
  History.setStateFrom GraphState stringify maxHistorySize renderedIndex ns h.

Definition setState (ns : newState) (h : hook) : hook :=
  History.setState GraphState stringify maxHistorySize ns h.

(** The object given to [updateEditorState]: any subset of the keys. *)
Record Updates : Type := {
  u_nodes : option (list Node);
  u_edges : option (list Edge);
  u_nodeIdCounter : option N
}.

Definition orElse {X : Type} (o : option X) (d : X) : X :=
  match o with
  | Some v => v
  | None => d
  end.

(** [{ ...prevState, ...updates }] *)
Definition spread (updates : Updates) (prevState : GraphState) : GraphState :=
  {| nodes := orElse (u_nodes updates) (nodes prevState);
     edges := orElse (u_edges updates) (edges prevState);
     nodeIdCounter := orElse (u_nodeIdCounter updates) (nodeIdCounter prevState) |}.

(** ** Events *)

(** A change the rendering library reports through [onNodesChange]. *)
Record NodeChange : Type := {
  change_type : string;
  change_id : string;
  change_position : option XY;
  change_dragging : option bool;
  change_selected : option bool
}.

(** The argument of [onConnect]. *)
Record Connection : Type := {
  c_source : string;
  c_sourceHandle : option string;
  c_target : string;
  c_targetHandle : option string
}.

Record EventTarget : Type := {
  tagName : string;
  contentEditable : string
}.

Record KeyboardEvent : Type := {
  key : string;
  shiftKey : bool;
  ctrlKey : bool;
  metaKey : bool;
  event_target : EventTarget
}.

(** A pending [setTimeout(..., 0)] callback: the one of [undo]/[redo] that
    clears the flag, or the one of [handleNodesChange] that saves the
    nodes, with the [currentIndex] its [setEditorState] closes over. *)
Inductive timer : Type :=
| ResetApplying
| SaveNodes (renderedIndex : nat).

(** ** The component's state *)

Record app : Type := {
  editor : hook;
  reactFlowNodes : list Node;
  reactFlowEdges : list Edge;
  selectedEdges : list string;
  showKeyboardHelp : bool;
  isSyncingState : bool;
  timers : list timer
}.

Definition initialApp : app :=
  {| editor := History.init GraphState initialState;
     reactFlowNodes := initialNodes;
     reactFlowEdges := initialEdges;
     selectedEdges := [];
     showKeyboardHelp := false;
     isSyncingState := false;
     timers := [] |}.

Definition withEditor (h : hook) (a : app) : app :=
  {| editor := h;
     reactFlowNodes := reactFlowNodes a;
     reactFlowEdges := reactFlowEdges a;
     selectedEdges := selectedEdges a;
     showKeyboardHelp := showKeyboardHelp a;
     isSyncingState := isSyncingState a;
     timers := timers a |}.

(** [editorState]: the hook's [state]; the component renders only when it
    is defined, and the callbacks below act only then. *)
Definition editorState (a : app) : option GraphState := History.state GraphState (editor a).

(** [updateEditorState], over the [setEditorState] of a render whose
    [currentIndex] was [renderedIndex]. *)
Definition updateEditorStateFrom (renderedIndex : nat) (updates : Updates) (a : app) : app :=
  withEditor
    (setStateFrom renderedIndex (History.Updater GraphState (spread updates)) (editor a)) a.

(** [updateEditorState] of the current render. *)
Definition updateEditorState (updates : Updates) (a : app) : app :=
  withEditor (setState (History.Updater GraphState (spread updates)) (editor a)) a.

Definition includes (l : list string) (s : string) : bool :=
  existsb (String.eqb s) l.

(** [getDefaultNodeData] *)
Definition getDefaultNodeData (type : string) : list (string * datum) :=
  if String.eqb type "inputNode" then [("label", DString "Input Node")]
  else if String.eqb type "outputNode" then [("label", DString "Output Node")]
  else if String.eqb type "llmNode" then
    [("model", DString "gpt-3.5-turbo"); ("temperature", DNumber "0.7")]
  else if String.eqb type "textNode" then [("text", DString "Enter your text here...")]
  else if String.eqb type "filterNode" then
    [("condition", DString "contains"); ("value", DString "")]
  else if String.eqb type "transformNode" then [("operation", DString "uppercase")]
  else if String.eqb type "aggregateNode" then [("operation", DString "sum")]
  else if String.eqb type "conditionalNode" then [("condition", DString "if-then-else")]
  else if String.eqb type "delayNode" then [("delay", DNumber "1000")]
  else [].

(** The node [addNode] builds: [id] is [`${nodeIdCounter}`]. *)
Definition newNode (type : string) (nodePosition : XY) (nodeIdCounter : N) : Node :=
  mkNode (JSON.ofN nodeIdCounter) type nodePosition (getDefaultNodeData type).

(** [addNode(type, position = null)]; [random] is the point the two
    [Math.random()] calls give when [position] is [null]. *)
Definition addNode (type : string) (position : option XY) (random : XY) (a : app) : app :=
  match editorState a with
  | None => a
  | Some st =>
      let nodePosition := orElse position random in
      updateEditorState
        {| u_nodes := Some (nodes st ++ [newNode type nodePosition (nodeIdCounter st)]);
           u_edges := None;
           u_nodeIdCounter := Some (nodeIdCounter st + 1)%N |} a
  end.

(** The edge [onConnect] builds:
    [id] is [`e${params.source}-${params.target}-${Date.now()}`]. *)
Definition newEdge (params : Connection) (now : Z) : Edge :=
  {| edge_id := ("e" ++ c_source params ++ "-" ++ c_target params ++ "-" ++ JSON.ofZ now)%string;
     source := c_source params;
     target := c_target params;
     sourceHandle := c_sourceHandle params;
     targetHandle := c_targetHandle params;
     edge_selected := None |}.

(** [onConnect]; [now] is what [Date.now()] returns. *)
Definition onConnect (params : Connection) (now : Z) (a : app) : app :=
  match editorState a with
  | None => a
  | Some st =>
      updateEditorState
        {| u_nodes := None;
           u_edges := Some (edges st ++ [newEdge params now]);
           u_nodeIdCounter := None |} a
  end.

Definition withSelectedEdges (l : list string) (a : app) : app :=
  {| editor := editor a;
     reactFlowNodes := reactFlowNodes a;
     reactFlowEdges := reactFlowEdges a;
     selectedEdges := l;
     showKeyboardHelp := showKeyboardHelp a;
     isSyncingState := isSyncingState a;
     timers := timers a |}.

Definition withMirror (ns : list Node) (es : list Edge) (a : app) : app :=
  {| editor := editor a;
     reactFlowNodes := ns;
     reactFlowEdges := es;
     selectedEdges := selectedEdges a;
     showKeyboardHelp := showKeyboardHelp a;
     isSyncingState := isSyncingState a;
     timers := timers a |}.

Definition withHelp (b : bool) (a : app) : app :=
  {| editor := editor a;
     reactFlowNodes := reactFlowNodes a;
     reactFlowEdges := reactFlowEdges a;
     selectedEdges := selectedEdges a;
     showKeyboardHelp := b;
     isSyncingState := isSyncingState a;
     timers := timers a |}.

Definition withSyncing (b : bool) (a : app) : app :=
  {| editor := editor a;
     reactFlowNodes := reactFlowNodes a;
     reactFlowEdges := reactFlowEdges a;
     selectedEdges := selectedEdges a;
     showKeyboardHelp := showKeyboardHelp a;
     isSyncingState := b;
     timers := timers a |}.

Definition withTimers (ts : list timer) (a : app) : app :=
  {| editor := editor a;
     reactFlowNodes := reactFlowNodes a;
     reactFlowEdges := reactFlowEdges a;
     selectedEdges := selectedEdges a;
     showKeyboardHelp := showKeyboardHelp a;
     isSyncingState := isSyncingState a;
     timers := ts |}.

(** [deleteSelectedEdges] *)
Definition deleteSelectedEdges (a : app) : app :=
  match editorState a with
  | None => a
  | Some st =>
      if 0 <? length (selectedEdges a) then
        withSelectedEdges []
          (updateEditorState
             {| u_nodes := None;
                u_edges := Some (filter (fun edge => negb (includes (selectedEdges a) (edge_id edge)))
                                        (edges st));
                u_nodeIdCounter := None |} a)
      else a
  end.

(** [node.selected] as a condition. *)
Definition isSelected (node : Node) : bool := orElse (selected node) false.

(** [reactFlowNodes.filter(node => node.selected).map(node => node.id)] *)
Definition selectedNodeIds (a : app) : list string :=
  map id (filter isSelected (reactFlowNodes a)).

(** The object [deleteSelectedNodes] gives to [updateEditorState]. *)
Definition removal (selectedNodeIds : list string) (st : GraphState) : Updates :=
  {| u_nodes := Some (filter (fun node => negb (includes selectedNodeIds (id node))) (nodes st));
     u_edges := Some (filter (fun edge => negb (includes selectedNodeIds (source edge)) &&
                                          negb (includes selectedNodeIds (target edge)))
                             (edges st));
     u_nodeIdCounter := None |}.

(** [deleteSelectedNodes] *)
Definition deleteSelectedNodes (a : app) : app :=
  match editorState a with
  | None => a
  | Some st =>
      if 0 <? length (filter isSelected (reactFlowNodes a)) then
        updateEditorState (removal (selectedNodeIds a) st) a
      else a
  end.

(** [clearSelection] *)
Definition clearSelection (a : app) : app :=
  withMirror
    (map (fun node =>
            {| id := id node; type := type node; position := position node;
               data := data node; selected := Some false; dragging := dragging node |})
         (reactFlowNodes a))
    (map (fun edge =>
            {| edge_id := edge_id edge; source := source edge; target := target edge;
               sourceHandle := sourceHandle edge; targetHandle := targetHandle edge;
               edge_selected := Some false |})
         (reactFlowEdges a))
    (withSelectedEdges [] a).

(** [undo] of the hook, with the timer it starts when it succeeds. *)
Definition undo (a : app) : bool * app :=
  let '(success, h) := History.undo GraphState (editor a) in
  (success,
   if success then withTimers (timers a ++ [ResetApplying]) (withEditor h a) else a).

(** [redo] of the hook, with the timer it starts when it succeeds. *)
Definition redo (a : app) : bool * app :=
  let '(success, h) := History.redo GraphState (editor a) in
  (success,
   if success then withTimers (timers a ++ [ResetApplying]) (withEditor h a) else a).

(** [clearHistory] *)
Definition clearHistory (a : app) : app :=
  withEditor (History.clearHistory GraphState initialState (editor a)) a.

(** [isTyping] in [onKeyDown] *)
Definition isTyping (event : KeyboardEvent) : bool :=
  String.eqb (tagName (event_target event)) "INPUT" ||
  String.eqb (tagName (event_target event)) "TEXTAREA" ||
  String.eqb (contentEditable (event_target event)) "true".

(** [onKeyDown].  The toasts of [showActionFeedback], the console output
    and [event.preventDefault()] leave the component's state alone and are
    not represented. *)
Definition onKeyDown (event : KeyboardEvent) (a : app) : app :=
  let isCtrlOrCmd := ctrlKey event || metaKey event in
  if isCtrlOrCmd && (String.eqb (key event) "z" && negb (shiftKey event)) then
    snd (undo a)
  else if isCtrlOrCmd &&
          (String.eqb (key event) "y" || (String.eqb (key event) "z" && shiftKey event)) then
    snd (redo a)
  else if isTyping event then a
  else if String.eqb (key event) "?" && negb (shiftKey event) then
    withHelp (negb (showKeyboardHelp a)) a
  else if String.eqb (key event) "Delete" || String.eqb (key event) "Backspace" then
    if 0 <? length (selectedEdges a) then deleteSelectedEdges a
    else if 0 <? length (filter isSelected (reactFlowNodes a)) then deleteSelectedNodes a
    else a
  else if String.eqb (key event) "Escape" then
    if showKeyboardHelp a then withHelp false a else clearSelection a
  else a.

(** The effect of lines 128-134, run by React after a render in which
    [nodes] or [edges] changed. *)
Definition syncEffect (a : app) : app :=
  if isSyncingState a then a
  else
    match editorState a with
    | None => a
    | Some st => withMirror (nodes st) (edges st) a
    end.

(** [change.type === 'position' && change.dragging === false] on some
    change. *)
Definition hasPositionChange (changes : list NodeChange) : bool :=
  existsb (fun change =>
             String.eqb (change_type change) "position" &&
             match change_dragging change with
             | Some false => true
             | _ => false
             end)
          changes.

(** The id [addNode] gives to the node it builds on [a]. *)
Definition issuedId (a : app) : option string :=
  option_map (fun st => JSON.ofN (nodeIdCounter st)) (editorState a).

Section WithLibrary.

(** The reducer behind [onNodesChange] of the rendering library's
    [useNodesState]: how a batch of changes alters the library's copy of the
    nodes.  It is not code of this repository. *)
Variable onNodesChange : list NodeChange -> list Node -> list Node.

(** [handleNodesChange] *)
Definition handleNodesChange (changes : list NodeChange) (a : app) : app :=
  let a := withSyncing true a in
  let a := withMirror (onNodesChange changes (reactFlowNodes a)) (reactFlowEdges a) a in
  if hasPositionChange changes then
    withTimers (timers a ++ [SaveNodes (History.currentIndex GraphState (editor a))]) a
  else withSyncing false a.

(** A timer callback. *)
Definition fire (t : timer) (a : app) : app :=
  match t with
  | ResetApplying => withEditor (History.resetApplying GraphState (editor a)) a
  | SaveNodes renderedIndex =>
      withSyncing false
        (updateEditorStateFrom renderedIndex
           {| u_nodes := Some (reactFlowNodes a); u_edges := None; u_nodeIdCounter := None |}
           a)
  end.

(** The oldest pending timer fires. *)
Definition tick (a : app) : app :=
  match timers a with
  | [] => a
  | t :: ts => fire t (withTimers ts a)
  end.

(** ** Sessions of the editor *)

Inductive action : Type :=
| AddNode (type : string) (position : option XY) (random : XY)
| Connect (params : Connection) (now : Z)
| DeleteSelectedEdges
| DeleteSelectedNodes
| NodesChange (changes : list NodeChange)
| KeyDown (event : KeyboardEvent)
| Undo
| Redo
| ClearHistory
| Tick
| SyncEffect.

Definition step (a : app) (act : action) : app :=
  match act with
  | AddNode type position random => addNode type position random a
  | Connect params now => onConnect params now a
  | DeleteSelectedEdges => deleteSelectedEdges a
  | DeleteSelectedNodes => deleteSelectedNodes a
  | NodesChange changes => handleNodesChange changes a
  | KeyDown event => onKeyDown event a
  | Undo => snd (undo a)
  | Redo => snd (redo a)
  | ClearHistory => clearHistory a
  | Tick => tick a
  | SyncEffect => syncEffect a
  end.

Definition run (acts : list action) (a : app) : app := fold_left step acts a.

(** The ids handed out by the [addNode] calls of a session, in order. *)
Fixpoint issuedIds (acts : list action) (a : app) : list string :=
  match acts with
  | [] => []
  | act :: acts' =>
      match act, issuedId a with
      | AddNode _ _ _, Some i => i :: issuedIds acts' (step a act)
      | _, _ => issuedIds acts' (step a act)
      end
  end.

End WithLibrary.

(** ** A reducer to run sessions with *)

(** One change on one node, as the library's [applyNodeChanges] treats the
    changes of type [position], [select] and [remove]; [None] when the node
    is removed. *)
Definition applyChange (change : NodeChange) (node : Node) : option Node :=
  if negb (String.eqb (change_id change) (id node)) then Some node
  else if String.eqb (change_type change) "remove" then None
  else if String.eqb (change_type change) "select" then
    Some {| id := id node; type := type node; position := position node;
            data := data node;
            selected := match change_selected change with
                        | Some b => Some b
                        | None => selected node
                        end;
            dragging := dragging node |}
  else if String.eqb (change_type change) "position" then
    Some {| id := id node; type := type node;
            position := orElse (change_position change) (position node);
            data := data node;
            selected := selected node;
            dragging := match change_dragging change with
                        | Some b => Some b
                        | None => dragging node
                        end |}
  else Some node.

Definition applyNodeChanges (changes : list NodeChange) (nodes : list Node) : list Node :=
  fold_left
    (fun nodes change =>
       flat_map (fun node => match applyChange change node with
                             | Some node' => [node']
                             | None => []
                             end) nodes)
    changes nodes.

(** A [position] change of a drag: a frame while dragging, and the release. *)
Definition dragFrame (nodeId : string) (p : XY) : NodeChange :=
  {| change_type := "position"; change_id := nodeId;
     change_position := Some p; change_dragging := Some true;
     change_selected := None |}.

Definition dragRelease (nodeId : string) : NodeChange :=
  {| change_type := "position"; change_id := nodeId;
     change_position := None; change_dragging := Some false;
     change_selected := None |}.

(** ** Drag gestures *)

(** An intermediate frame of a drag: every change of the batch is a
    [position] change with [dragging] true. *)
Definition isFrame (changes : list NodeChange) : bool :=
  forallb (fun change =>
             String.eqb (change_type change) "position" &&
             match change_dragging change with
             | Some true => true
             | _ => false
             end)
          changes.

(** The state with the library's nodes in place of its own:
    [{ ...prevState, nodes: currentNodes }]. *)
Definition withNodes (currentNodes : list Node) (st : GraphState) : GraphState :=
  {| nodes := currentNodes; edges := edges st; nodeIdCounter := nodeIdCounter st |}.

(** [KeyboardEvent]s that reach the help toggle of [onKeyDown]. *)
Definition isHelpToggle (event : KeyboardEvent) : bool :=
  String.eqb (key event) "?" && negb (shiftKey event) && negb (isTyping event).

(** ** The graph of the removal example *)

Definition plainEdge (i src tgt : string) : Edge :=
  {| edge_id := i; source := src; target := tgt;
     sourceHandle := Some "output"; targetHandle := Some "input";
     edge_selected := None |}.

(** Nodes A, B, C, D with the edges A->C, B->D and C->D. *)
Definition exampleGraph : GraphState :=
  {| nodes := [ mkNode "A" "inputNode" {| x := 0; y := 0 |} [];
                mkNode "B" "inputNode" {| x := 0; y := 200 |} [];
                mkNode "C" "transformNode" {| x := 300; y := 0 |} [];
                mkNode "D" "outputNode" {| x := 600; y := 100 |} [] ];
     edges := [ plainEdge "eA-C" "A" "C"; plainEdge "eB-D" "B" "D"; plainEdge "eC-D" "C" "D" ];
     nodeIdCounter := 5 |}.

Definition select (ids : list string) (node : Node) : Node :=
  {| id := id node; type := type node; position := position node; data := data node;
     selected := Some (includes ids (id node)); dragging := dragging node |}.

(** The editor on that graph, with A and B selected on the canvas. *)
Definition exampleApp : app :=
  {| editor := History.init GraphState exampleGraph;
     reactFlowNodes := map (select ["A"; "B"]) (nodes exampleGraph);
     reactFlowEdges := edges exampleGraph;
     selectedEdges := [];
     showKeyboardHelp := false;
     isSyncingState := false;
     timers := [] |}.

(** ** Node ids and the counter *)

(** The sessions of the claim on node ids: additions, undo, redo, and the
    timers they start. *)
Definition nodeAction (act : action) : Prop :=
  match act with
  | AddNode _ _ _ | Undo | Redo | Tick => True
  | _ => False
  end.

(** Every node id of a state is the rendering of a number below the state's
    counter. *)
Definition idsBelowCounter (st : GraphState) : Prop :=
  forall node, In node (nodes st) ->
    exists k, (k < nodeIdCounter st)%N /\ id node = JSON.ofN k.

Definition entryOK (st : GraphState) : Prop :=
  NoDup (map id (nodes st)) /\ idsBelowCounter st.

(** From one history entry to the next the counter goes up by one. *)
Fixpoint countersAscend (l : list GraphState) : Prop :=
  match l with
  | st :: ((st' :: _) as l') =>
      nodeIdCounter st' = (nodeIdCounter st + 1)%N /\ countersAscend l'
  | _ => True
  end.

(** ** Facts on node ids *)

Lemma ofN_inj n m : JSON.ofN n = JSON.ofN m -> n = m.
Proof.
unfold JSON.ofN. intros H. apply DecimalN.Unsigned.to_uint_inj.
assert (Hnil : forall k, N.to_uint k <> Decimal.Nil).
{ intros [|q]; simpl; [discriminate | apply DecimalPos.Unsigned.to_uint_nonnil]. }
pose proof (NilZero.usu _ (Hnil n)) as Hn.
pose proof (NilZero.usu _ (Hnil m)) as Hm.
rewrite H in Hn. congruence.
Qed.

Lemma countersAscend_tl l : countersAscend l -> countersAscend (tl l).
Proof.
destruct l as [|a [|b l]]; simpl; tauto.
Qed.

Lemma countersAscend_firstn k : forall l, countersAscend l -> countersAscend (firstn k l).
Proof.
induction k as [|k IH]; intros l H; [exact I|].
destruct l as [|a l]; [exact I|].
destruct l as [|b l]; [destruct k; exact I|].
destruct H as [Hab H]. specialize (IH _ H).
destruct k as [|k]; [exact I|].
change (firstn (S (S k)) (a :: b :: l)) with (a :: b :: firstn k l).
change (firstn (S k) (b :: l)) with (b :: firstn k l) in IH.
split; assumption.
Qed.

Lemma countersAscend_snoc l cur new :
  countersAscend (l ++ [cur]) ->
  nodeIdCounter new = (nodeIdCounter cur + 1)%N ->
  countersAscend ((l ++ [cur]) ++ [new]).
Proof.
intros H Hnew. induction l as [|a l IH]; simpl.
- split; [exact Hnew | exact I].
- destruct l as [|b l]; simpl in *.
  + destruct H as [H _]. repeat split; assumption.
  + destruct H as [Hab H]. split; [exact Hab|]. apply IH. exact H.
Qed.

Lemma Forall_firstn {X} (P : X -> Prop) k l : Forall P l -> Forall P (firstn k l).
Proof.
intros H. rewrite <- (firstn_skipn k l) in H. apply Forall_app in H. tauto.
Qed.

Lemma Forall_tl {X} (P : X -> Prop) l : Forall P l -> Forall P (tl l).
Proof.
intros H. destruct l; [exact H | inversion H; assumption].
Qed.

(** Pushing a successor of the current entry keeps the history in order. *)
Lemma push_keeps_order l i cur new :
  Forall entryOK l -> countersAscend l ->
  nth_error l i = Some cur ->
  entryOK new -> nodeIdCounter new = (nodeIdCounter cur + 1)%N ->
  let l' := History.limitSize GraphState maxHistorySize (firstn (i + 1) l ++ [new]) in
  Forall entryOK l' /\ countersAscend l'.
Proof.
intros Hall Hasc Hcur Hnew Hcnt l'.
assert (H1 : Forall entryOK (firstn (i + 1) l ++ [new])).
{ apply Forall_app. split; [apply Forall_firstn; exact Hall | constructor; [exact Hnew | constructor]]. }
assert (H2 : countersAscend (firstn (i + 1) l ++ [new])).
{ pose proof (countersAscend_firstn (i + 1) l Hasc) as Hf.
  rewrite (History.firstn_succ_nth _ l i cur Hcur) in *.
  apply countersAscend_snoc; assumption. }
subst l'.
destruct (History.limitSize_cases GraphState maxHistorySize (firstn (i + 1) l ++ [new])) as [E|E];
  rewrite E.
- split; assumption.
- split; [apply Forall_tl | apply countersAscend_tl]; assumption.
Qed.

(** The state [addNode] builds from a good state is good. *)
Lemma addNode_entryOK type nodePosition st :
  entryOK st ->
  entryOK {| nodes := nodes st ++ [newNode type nodePosition (nodeIdCounter st)];
             edges := edges st;
             nodeIdCounter := (nodeIdCounter st + 1)%N |}.
Proof.
intros [Hnd Hbelow]. split; cbn [nodes nodeIdCounter].
- rewrite map_app. cbn [map newNode mkNode id].
  assert (Hfresh : ~ In (JSON.ofN (nodeIdCounter st)) (map id (nodes st))).
  { intros Hin. apply in_map_iff in Hin. destruct Hin as [node [Hid Hin]].
    destruct (Hbelow node Hin) as [k [Hk Hidk]].
    rewrite Hidk in Hid. apply ofN_inj in Hid. lia. }
  clear Hbelow. induction (map id (nodes st)) as [|i ids IH]; simpl.
  + constructor; [intros [] | constructor].
  + inversion Hnd; subst. constructor.
    * intros Hin. apply in_app_or in Hin. destruct Hin as [Hin|[Hin|[]]].
      -- contradiction.
      -- apply Hfresh. left. symmetry. exact Hin.
    * apply IH; [assumption|]. intros Hin. apply Hfresh. right. exact Hin.
- unfold idsBelowCounter. cbn [nodes nodeIdCounter].
  intros node Hin. apply in_app_or in Hin. destruct Hin as [Hin|[Hin|[]]].
  + destruct (Hbelow node Hin) as [k [Hk Hid]]. exists k. split; [lia | exact Hid].
  + subst node. exists (nodeIdCounter st). split; [lia | reflexivity].
Qed.

Lemma initialState_entryOK : entryOK initialState.
Proof.
split.
- cbn. repeat constructor; cbn; intuition discriminate.
- intros node Hin. cbn in Hin.
  destruct Hin as [<-|[<-|[<-|[]]]];
    [exists 1%N | exists 2%N | exists 3%N]; split; cbn; (reflexivity || lia).
Qed.

(** What node sessions keep true of the component. *)
Definition sessionInv (a : app) : Prop :=
  Forall entryOK (History.history GraphState (editor a)) /\
  countersAscend (History.history GraphState (editor a)) /\
  Forall (fun t => t = ResetApplying) (timers a).

Lemma initialApp_sessionInv : sessionInv initialApp.
Proof.
repeat split; cbn.
- constructor; [apply initialState_entryOK | constructor].
- constructor.
Qed.

Lemma addNode_sessionInv type position random a :
  sessionInv a -> sessionInv (addNode type position random a).
Proof.
intros (Hall & Hasc & Htim). unfold addNode.
destruct (editorState a) as [st|] eqn:Hst; [|repeat split; assumption].
unfold updateEditorState, setState.
match goal with
| |- context [History.setState _ _ _ ?ns ?h] =>
    destruct (History.setState_cases GraphState stringify maxHistorySize ns h)
      as [E | (cur & Hcur & _ & _ & E)]; rewrite E
end.
- repeat split; assumption.
- unfold editorState in Hst. rewrite Hst in Hcur. inversion Hcur; subst cur.
  cbv zeta. unfold sessionInv. cbn [withEditor editor timers History.history].
  cbn [History.actualNewState]. unfold spread. cbn [u_nodes u_edges u_nodeIdCounter orElse].
  assert (Hok : entryOK st).
  { unfold History.state in Hst. apply nth_error_In in Hst.
    rewrite Forall_forall in Hall. apply Hall. exact Hst. }
  pose proof (push_keeps_order _ _ st _ Hall Hasc Hst
                (addNode_entryOK type (orElse position random) st Hok) eq_refl) as [H1 H2].
  repeat split; assumption.
Qed.

Section Sessions.

Variable onNodesChange : list NodeChange -> list Node -> list Node.

Lemma nodeAction_sessionInv a act :
  nodeAction act -> sessionInv a -> sessionInv (step onNodesChange a act).
Proof.
intros Hact Hinv. destruct act; try contradiction; cbn [step].
- apply addNode_sessionInv. exact Hinv.
- destruct Hinv as (Hall & Hasc & Htim). unfold undo, History.undo, History.undoFrom.
  destruct (0 <? History.currentIndex GraphState (editor a)); cbn [snd];
    [|repeat split; assumption].
  repeat split; cbn; try assumption.
  apply Forall_app. split; [assumption | repeat constructor].
- destruct Hinv as (Hall & Hasc & Htim). unfold redo, History.redo, History.redoFrom.
  destruct (History.currentIndex GraphState (editor a) <?
            length (History.history GraphState (editor a)) - 1); cbn [snd];
    [|repeat split; assumption].
  repeat split; cbn; try assumption.
  apply Forall_app. split; [assumption | repeat constructor].
- destruct Hinv as (Hall & Hasc & Htim). unfold tick.
  destruct (timers a) as [|t ts] eqn:Et; [rewrite <- Et in Htim; repeat split; assumption|].
  inversion Htim as [|? ? Ht Hts]; subst. cbn. repeat split; assumption.
Qed.

Lemma run_sessionInv acts : forall a,
  Forall nodeAction acts -> sessionInv a -> sessionInv (run onNodesChange acts a).
Proof.
induction acts as [|act acts IH]; intros a Hacts Hinv; [exact Hinv|].
inversion Hacts; subst. cbn [run fold_left].
apply IH; [assumption|]. apply nodeAction_sessionInv; assumption.
Qed.

(** ** The claim on node ids *)

(** C1, as the editor has it.  The counter is a field of the state the
    history holds.  In every session of [addNode], [undo] and [redo] (with
    their timers), in every entry of the history the node ids are pairwise
    distinct and each is the rendering of a number below that entry's
    counter, and from one entry to the next the counter goes up by one. *)
Theorem node_ids_unique_in_every_state acts :
  Forall nodeAction acts ->
  (forall st,
     In st (History.history GraphState (editor (run onNodesChange acts initialApp))) ->
     NoDup (map id (nodes st)) /\ idsBelowCounter st) /\
  countersAscend (History.history GraphState (editor (run onNodesChange acts initialApp))).
Proof.
intros Hacts.
destruct (run_sessionInv acts initialApp Hacts initialApp_sessionInv) as (Hall & Hasc & _).
split; [|exact Hasc].
intros st Hin. rewrite Forall_forall in Hall. exact (Hall st Hin).
Qed.

End Sessions.

Definition origin : XY := {| x := 0; y := 0 |}.

(** A session in which [undo] takes back an addition and the next addition
    gets the id of the first. *)
Definition reissue : list action :=
  [AddNode "textNode" None origin; Undo; Tick; AddNode "llmNode" None origin].

Lemma node_ids_unique_in_every_state_witness :
  Forall nodeAction reissue /\
  countersAscend
    (History.history GraphState (editor (run applyNodeChanges reissue initialApp))).
Proof.
assert (H : Forall nodeAction reissue) by (repeat constructor).
split; [exact H|].
exact (proj2 (node_ids_unique_in_every_state applyNodeChanges reissue H)).
Defined.

(** C1, as stated, fails: after [addNode], [undo] and the timer, a second
    [addNode] hands out ["4"] again, and both nodes were appended to the
    state current at the time. *)
Lemma node_id_reused_after_undo :
  Forall nodeAction reissue /\
  issuedIds applyNodeChanges reissue initialApp = ["4"; "4"] /\
  ~ NoDup (issuedIds applyNodeChanges reissue initialApp) /\
  option_map (fun st => map (fun node => (id node, type node)) (nodes st))
    (editorState (run applyNodeChanges (firstn 1 reissue) initialApp)) =
    Some [("1", "inputNode"); ("2", "textNode"); ("3", "outputNode"); ("4", "textNode")] /\
  option_map (fun st => map (fun node => (id node, type node)) (nodes st))
    (editorState (run applyNodeChanges reissue initialApp)) =
    Some [("1", "inputNode"); ("2", "textNode"); ("3", "outputNode"); ("4", "llmNode")].
Proof.
split; [repeat constructor|].
assert (E : issuedIds applyNodeChanges reissue initialApp = ["4"; "4"])
  by (vm_compute; reflexivity).
split; [exact E|]. rewrite E.
split; [|split; vm_compute; reflexivity].
intros H. inversion H as [|? ? Hnotin _]. apply Hnotin. left. reflexivity.
Qed.

(** ** The claim on edge ids *)

(** C2 fails on the code: the id of a new edge is made of the two end
    nodes and the clock alone.  Two connections from node 1 to node 3 made
    in the same millisecond get one and the same id, and both edges are in
    the state. *)
Theorem edge_id_repeats_within_millisecond :
  let now := 1700000000000%Z in
  let params := {| c_source := "1"; c_sourceHandle := Some "output";
                   c_target := "3"; c_targetHandle := Some "input" |} in
  edge_id (newEdge params now) = "e1-3-1700000000000" /\
  option_map (fun st => map edge_id (edges st))
    (editorState (onConnect params now (onConnect params now initialApp))) =
    Some ["e1-2"; "e2-3"; "e1-3-1700000000000"; "e1-3-1700000000000"] /\
  History.historySize GraphState
    (editor (onConnect params now (onConnect params now initialApp))) = 3.
Proof.
repeat split; vm_compute; reflexivity.
Qed.

(** ** The claim on drag gestures *)

Lemma isFrame_hasPositionChange changes :
  isFrame changes = true -> hasPositionChange changes = false.
Proof.
unfold isFrame, hasPositionChange.
induction changes as [|c changes IH]; intros H; [reflexivity|].
cbn [forallb existsb] in *. apply andb_prop in H. destruct H as [Hc H].
rewrite (IH H), orb_false_r.
destruct (String.eqb (change_type c) "position"); [|reflexivity].
destruct (change_dragging c) as [[|]|]; simpl in *; congruence.
Qed.

(** [n] pending timers fire, the oldest first. *)
Fixpoint ticks (n : nat) (a : app) : app :=
  match n with
  | 0 => a
  | S n' => ticks n' (tick a)
  end.

(** All pending timers fire, in the order in which they were started,
    before any other event is handled. *)
Definition flush (a : app) : app := ticks (length (timers a)) a.

Lemma ticks_succ n : forall a, ticks (n + 1) a = tick (ticks n a).
Proof.
induction n as [|n IH]; intros a; [reflexivity|].
cbn [Nat.add ticks]. apply IH.
Qed.

(** The flag-clearing timers of earlier [undo] and [redo] calls fire. *)
Lemma ticks_resets ts : forall a rest,
  timers a = ts ++ rest ->
  Forall (fun t => t = ResetApplying) ts ->
  ticks (length ts) a =
    withTimers rest
      (withEditor
         match ts with
         | [] => editor a
         | _ :: _ => History.resetApplying GraphState (editor a)
         end a).
Proof.
induction ts as [|t ts IH]; intros a rest Ht Hall.
- cbn [length ticks]. destruct a. cbn in *. subst. reflexivity.
- inversion Hall as [|? ? Hreset Hrest]; subst t.
  cbn [length ticks]. unfold tick at 1. rewrite Ht. cbn [List.app].
  rewrite (IH (fire ResetApplying (withTimers (ts ++ rest) a)) rest eq_refl Hrest).
  destruct ts; reflexivity.
Qed.

Section DragGestures.

Variable onNodesChange : list NodeChange -> list Node -> list Node.

(** The library's copy of the nodes after a series of batches. *)
Definition mirrorAfter (batches : list (list NodeChange)) (nodes : list Node) : list Node :=
  fold_left (fun nodes changes => onNodesChange changes nodes) batches nodes.

Lemma run_cons act acts a :
  run onNodesChange (act :: acts) a = run onNodesChange acts (step onNodesChange a act).
Proof.
reflexivity.
Qed.

Lemma frames_keep_editor frames : forall a,
  Forall (fun changes => isFrame changes = true) frames ->
  editor (run onNodesChange (map NodesChange frames) a) = editor a /\
  timers (run onNodesChange (map NodesChange frames) a) = timers a /\
  reactFlowNodes (run onNodesChange (map NodesChange frames) a) =
    mirrorAfter frames (reactFlowNodes a).
Proof.
induction frames as [|changes frames IH]; intros a Hframes; [repeat split|].
inversion Hframes as [|? ? Hc Hrest]; subst.
cbn [map]. rewrite run_cons. cbn [step].
destruct (IH (handleNodesChange onNodesChange changes a) Hrest) as (He & Ht & Hm).
rewrite He, Ht, Hm.
unfold handleNodesChange. rewrite (isFrame_hasPositionChange _ Hc).
repeat split.
Qed.

(** ** The flag and its timers *)

(** The flag is set only while a timer that clears it is pending. *)
Definition flagPending (a : app) : Prop :=
  History.isApplyingHistory GraphState (editor a) = true -> In ResetApplying (timers a).

(** A step that neither sets the flag nor takes a timer away. *)
Definition calm (a a' : app) : Prop :=
  (History.isApplyingHistory GraphState (editor a') = true ->
   History.isApplyingHistory GraphState (editor a) = true) /\
  incl (timers a) (timers a').

Lemma calm_flagPending a a' : calm a a' -> flagPending a -> flagPending a'.
Proof.
intros [Hflag Htimers] Hp H. apply Htimers, Hp, Hflag, H.
Qed.

Lemma calm_refl a : calm a a.
Proof.
split; [tauto | apply incl_refl].
Qed.

Lemma setStateFrom_flag i ns h :
  History.isApplyingHistory GraphState (setStateFrom i ns h) = true ->
  History.isApplyingHistory GraphState h = true.
Proof.
unfold setStateFrom, History.setStateFrom.
destruct (History.isApplyingHistory GraphState h); [reflexivity|].
destruct (History.setHistoryUpdater GraphState stringify maxHistorySize ns i
            (History.history GraphState h)) as [newHistory newIndex].
cbn. discriminate.
Qed.

Lemma calm_updateEditorStateFrom i updates a : calm a (updateEditorStateFrom i updates a).
Proof.
split; [apply setStateFrom_flag | apply incl_refl].
Qed.

Lemma calm_updateEditorState updates a : calm a (updateEditorState updates a).
Proof.
apply (calm_updateEditorStateFrom (History.currentIndex GraphState (editor a))).
Qed.

Lemma calm_addNode type position random a : calm a (addNode type position random a).
Proof.
unfold addNode. destruct (editorState a); [apply calm_updateEditorState | apply calm_refl].
Qed.

Lemma calm_onConnect params now a : calm a (onConnect params now a).
Proof.
unfold onConnect. destruct (editorState a); [apply calm_updateEditorState | apply calm_refl].
Qed.

Lemma calm_deleteSelectedEdges a : calm a (deleteSelectedEdges a).
Proof.
unfold deleteSelectedEdges. destruct (editorState a); [|apply calm_refl].
destruct (0 <? length (selectedEdges a)); [|apply calm_refl].
match goal with
| |- calm a (withSelectedEdges [] (updateEditorState ?u a)) =>
    exact (calm_updateEditorState u a)
end.
Qed.

Lemma calm_deleteSelectedNodes a : calm a (deleteSelectedNodes a).
Proof.
unfold deleteSelectedNodes. destruct (editorState a); [|apply calm_refl].
destruct (0 <? length (filter isSelected (reactFlowNodes a)));
  [apply calm_updateEditorState | apply calm_refl].
Qed.

Lemma flagPending_undo a : flagPending a -> flagPending (snd (undo a)).
Proof.
intros Hp. unfold undo.
destruct (History.undo GraphState (editor a)) as [[|] h]; [|exact Hp].
intros _. cbn. apply in_or_app. right. left. reflexivity.
Qed.

Lemma flagPending_redo a : flagPending a -> flagPending (snd (redo a)).
Proof.
intros Hp. unfold redo.
destruct (History.redo GraphState (editor a)) as [[|] h]; [|exact Hp].
intros _. cbn. apply in_or_app. right. left. reflexivity.
Qed.

Lemma flagPending_onKeyDown event a : flagPending a -> flagPending (onKeyDown event a).
Proof.
intros Hp. unfold onKeyDown. cbv zeta.
destruct ((ctrlKey event || metaKey event) &&
          (String.eqb (key event) "z" && negb (shiftKey event)));
  [apply flagPending_undo, Hp|].
destruct ((ctrlKey event || metaKey event) &&
          (String.eqb (key event) "y" ||
           String.eqb (key event) "z" && shiftKey event));
  [apply flagPending_redo, Hp|].
destruct (isTyping event); [exact Hp|].
destruct (String.eqb (key event) "?" && negb (shiftKey event)); [exact Hp|].
destruct (String.eqb (key event) "Delete" || String.eqb (key event) "Backspace").
- destruct (0 <? length (selectedEdges a));
    [exact (calm_flagPending _ _ (calm_deleteSelectedEdges a) Hp)|].
  destruct (0 <? length (filter isSelected (reactFlowNodes a)));
    [exact (calm_flagPending _ _ (calm_deleteSelectedNodes a) Hp) | exact Hp].
- destruct (String.eqb (key event) "Escape"); [|exact Hp].
  destruct (showKeyboardHelp a); exact Hp.
Qed.

Lemma flagPending_tick a : flagPending a -> flagPending (tick a).
Proof.
intros Hp. unfold tick. destruct (timers a) as [|t ts] eqn:Et; [exact Hp|].
destruct t as [|i]; cbn [fire].
- intros H. discriminate H.
- intros H. cbn in H. apply setStateFrom_flag in H.
  specialize (Hp H). rewrite Et in Hp.
  destruct Hp as [Hp|Hp]; [discriminate Hp | exact Hp].
Qed.

Lemma flagPending_step a act : flagPending a -> flagPending (step onNodesChange a act).
Proof.
intros Hp. destruct act; cbn [step].
- exact (calm_flagPending _ _ (calm_addNode _ _ _ a) Hp).
- exact (calm_flagPending _ _ (calm_onConnect _ _ a) Hp).
- exact (calm_flagPending _ _ (calm_deleteSelectedEdges a) Hp).
- exact (calm_flagPending _ _ (calm_deleteSelectedNodes a) Hp).
- unfold handleNodesChange. destruct (hasPositionChange changes); [|exact Hp].
  intros H. cbn. apply in_or_app. left. exact (Hp H).
- apply flagPending_onKeyDown, Hp.
- apply flagPending_undo, Hp.
- apply flagPending_redo, Hp.
- exact Hp.
- apply flagPending_tick, Hp.
- unfold syncEffect. destruct (isSyncingState a); [exact Hp|].
  destruct (editorState a); exact Hp.
Qed.

(** In every session of the editor the flag is set only while a timer
    that clears it is pending. *)
Lemma sessions_keep_flagPending acts : flagPending (run onNodesChange acts initialApp).
Proof.
unfold run.
assert (H : forall a, flagPending a -> flagPending (fold_left (step onNodesChange) acts a)).
{ induction acts as [|act acts IH]; intros a Hp; [exact Hp|].
  cbn [fold_left]. apply IH, flagPending_step, Hp. }
apply H. intros Hflag. discriminate Hflag.
Qed.

(** C8, as the editor has it.  The gesture starts with no save of an
    earlier gesture pending: the pending timers, if any, are those that
    clear the flag after an [undo] or [redo]; and, as in every session of
    the editor, one is pending whenever the flag is set
    ([sessions_keep_flagPending]).  The frames of the drag never touch the
    history.  The
    release starts one timer, behind the pending ones.  When the timers
    fire, before any other event, the library's nodes, which are the outcome
    of the whole gesture, are given to [setState] once, with the flag clear:
    the history is left as it is or gets one entry, the state with those
    nodes, after the entry that was current; and it gets that entry whenever
    the state with those nodes serializes differently from the current
    one. *)
Theorem drag_commits_once_on_release a frames release :
  Forall (fun changes => isFrame changes = true) frames ->
  hasPositionChange release = true ->
  Forall (fun t => t = ResetApplying) (timers a) ->
  flagPending a ->
  let dragged := run onNodesChange (map NodesChange frames) a in
  let released := handleNodesChange onNodesChange release dragged in
  let settled := flush released in
  let mirror := mirrorAfter (frames ++ [release]) (reactFlowNodes a) in
  let index := History.currentIndex GraphState (editor a) in
  let entries := History.history GraphState (editor a) in
  editor dragged = editor a /\
  editor released = editor a /\
  timers released = timers a ++ [SaveNodes index] /\
  reactFlowNodes released = mirror /\
  reactFlowNodes settled = mirror /\
  timers settled = [] /\
  forall st, editorState a = Some st ->
    let pushed :=
      History.limitSize GraphState maxHistorySize
        (firstn (index + 1) entries ++ [withNodes mirror st]) in
    (History.history GraphState (editor settled) = entries /\
     History.currentIndex GraphState (editor settled) = index \/
     History.history GraphState (editor settled) = pushed /\
     History.currentIndex GraphState (editor settled) = length pushed - 1) /\
    (stringify st <> stringify (withNodes mirror st) ->
     History.history GraphState (editor settled) = pushed /\
     History.currentIndex GraphState (editor settled) = length pushed - 1 /\
     editorState settled = Some (withNodes mirror st)).
Proof.
intros Hframes Hrelease Hresets Hpending dragged released settled mirror index entries.
destruct (frames_keep_editor frames a Hframes) as (He & Ht & Hm).
fold dragged in He, Ht, Hm.
assert (Hreleased :
  released =
  {| editor := editor a;
     reactFlowNodes := mirror;
     reactFlowEdges := reactFlowEdges dragged;
     selectedEdges := selectedEdges dragged;
     showKeyboardHelp := showKeyboardHelp dragged;
     isSyncingState := true;
     timers := timers a ++ [SaveNodes index] |}).
{ subst released mirror index. unfold handleNodesChange. rewrite Hrelease.
  unfold withTimers, withMirror, withSyncing. cbn [editor reactFlowNodes reactFlowEdges
    selectedEdges showKeyboardHelp isSyncingState timers].
  rewrite He, Ht, Hm. unfold mirrorAfter. rewrite fold_left_app. reflexivity. }
(* the hook when the save fires: the flag is clear *)
set (h := {| History.history := entries;
             History.currentIndex := index;
             History.isApplyingHistory := false |}).
assert (Hh : match timers a with
             | [] => editor a
             | _ :: _ => History.resetApplying GraphState (editor a)
             end = h).
{ subst h entries index. destruct (timers a) as [|t ts] eqn:Ets; [|reflexivity].
  destruct (History.isApplyingHistory GraphState (editor a)) eqn:Hflag.
  - exfalso. specialize (Hpending Hflag). rewrite Ets in Hpending. exact Hpending.
  - destruct (editor a). cbn in *. subst. reflexivity. }
assert (Hsettled :
  settled =
  {| editor := setState (History.Updater GraphState (withNodes mirror)) h;
     reactFlowNodes := mirror;
     reactFlowEdges := reactFlowEdges dragged;
     selectedEdges := selectedEdges dragged;
     showKeyboardHelp := showKeyboardHelp dragged;
     isSyncingState := false;
     timers := [] |}).
{ subst settled. unfold flush. rewrite Hreleased. cbn [timers].
  rewrite length_app. cbn [length]. rewrite ticks_succ.
  match goal with
  | |- context [ticks (length (timers a)) ?r] =>
      rewrite (ticks_resets (timers a) r [SaveNodes index] eq_refl Hresets)
  end.
  cbn [editor]. rewrite Hh. reflexivity. }
rewrite Hreleased, Hsettled. cbn [editor reactFlowNodes timers].
split; [exact He|]. do 5 (split; [reflexivity|]).
intros st Hst.
assert (Hcur : History.state GraphState h = Some st) by exact Hst.
assert (Hflag : History.isApplyingHistory GraphState h = false) by reflexivity.
unfold editorState, setState. cbn [editor].
split.
- destruct (History.setState_cases GraphState stringify maxHistorySize
              (History.Updater GraphState (withNodes mirror)) h)
    as [E | (cur & Hcur' & _ & _ & E)]; rewrite E.
  + left. split; reflexivity.
  + right. rewrite Hcur in Hcur'. inversion Hcur'; subst cur. split; reflexivity.
- intros Hneq.
  rewrite (History.setState_push GraphState stringify maxHistorySize
             (History.Updater GraphState (withNodes mirror)) h st Hflag Hcur Hneq).
  split; [reflexivity|]. split; [reflexivity|].
  rewrite <- (History.setState_push GraphState stringify maxHistorySize
                (History.Updater GraphState (withNodes mirror)) h st Hflag Hcur Hneq).
  apply (History.setState_push_state GraphState stringify maxHistorySize
           (History.Updater GraphState (withNodes mirror)) h st Hflag Hcur Hneq).
Qed.

End DragGestures.

(** A first drag of node 1, released at (10, 10) and saved, after which
    React runs the effect that copies the saved nodes to the library. *)
Definition firstDrag : list action :=
  [NodesChange [dragFrame "1" {| x := 5; y := 5 |}];
   NodesChange [dragFrame "1" {| x := 10; y := 10 |}];
   NodesChange [dragRelease "1"];
   Tick;
   SyncEffect].

(** A second drag of node 1, away and back to (10, 10). *)
Definition secondDragFrames : list (list NodeChange) :=
  [[dragFrame "1" {| x := 50; y := 5 |}]; [dragFrame "1" {| x := 10; y := 10 |}]].

(** The editor right after an addition was undone: the flag is set and the
    timer that clears it is pending. *)
Definition undoPending : app :=
  run applyNodeChanges [AddNode "textNode" None {| x := 0; y := 0 |}; Undo] initialApp.

Lemma drag_commits_once_on_release_witness :
  Forall (fun changes => isFrame changes = true) secondDragFrames /\
  hasPositionChange [dragRelease "1"] = true /\
  Forall (fun t => t = ResetApplying) (timers undoPending) /\
  flagPending undoPending /\
  History.isApplyingHistory GraphState (editor undoPending) = true /\
  History.historySize GraphState
    (editor (flush (handleNodesChange applyNodeChanges [dragRelease "1"]
                      (run applyNodeChanges (map NodesChange secondDragFrames)
                         undoPending)))) = 2 /\
  option_map (fun st => map position (nodes st))
    (editorState
       (flush (handleNodesChange applyNodeChanges [dragRelease "1"]
                 (run applyNodeChanges (map NodesChange secondDragFrames) undoPending)))) =
    Some [{| x := 10; y := 10 |}; {| x := 400; y := 100 |}; {| x := 700; y := 100 |}].
Proof.
assert (H1 : Forall (fun changes => isFrame changes = true) secondDragFrames)
  by (repeat constructor).
assert (H2 : hasPositionChange [dragRelease "1"] = true) by reflexivity.
assert (H3 : Forall (fun t => t = ResetApplying) (timers undoPending))
  by (repeat constructor).
assert (H4 : flagPending undoPending) by (intros _; left; reflexivity).
pose proof (drag_commits_once_on_release applyNodeChanges undoPending
              secondDragFrames [dragRelease "1"] H1 H2 H3 H4)
  as (_ & _ & _ & _ & _ & _ & Hsave).
assert (Hst : editorState undoPending = Some initialState) by reflexivity.
destruct (Hsave initialState Hst) as [_ Hpush].
assert (Hneq : stringify initialState <>
               stringify (withNodes (mirrorAfter applyNodeChanges
                                       (secondDragFrames ++ [[dragRelease "1"]])
                                       (reactFlowNodes undoPending)) initialState))
  by (vm_compute; discriminate).
destruct (Hpush Hneq) as (Hhist & _ & Hcur).
split; [exact H1|]. split; [exact H2|]. split; [exact H3|]. split; [exact H4|].
split; [reflexivity|]. split.
- unfold History.historySize. rewrite Hhist. reflexivity.
- rewrite Hcur. reflexivity.
Defined.

(** C8, as stated, fails: once node 1 has been dragged to (10, 10) and
    saved, a drag that takes it away and back to (10, 10) ends with the
    library's nodes equal to the saved ones, and the release adds no entry:
    the history is what it was before the gesture. *)
Lemma drag_back_adds_no_entry :
  let a := run applyNodeChanges firstDrag initialApp in
  let settled :=
    tick (handleNodesChange applyNodeChanges [dragRelease "1"]
            (run applyNodeChanges (map NodesChange secondDragFrames) a)) in
  Forall (fun changes => isFrame changes = true) secondDragFrames /\
  hasPositionChange [dragRelease "1"] = true /\
  timers a = [] /\
  History.isApplyingHistory GraphState (editor a) = false /\
  History.historySize GraphState (editor a) = 2 /\
  History.historySize GraphState (editor settled) = 2 /\
  History.history GraphState (editor settled) = History.history GraphState (editor a) /\
  map position (reactFlowNodes settled) =
    [{| x := 10; y := 10 |}; {| x := 400; y := 100 |}; {| x := 700; y := 100 |}].
Proof.
cbv zeta. split; [repeat constructor|].
repeat split; vm_compute; reflexivity.
Qed.

(** ** The claim on removing nodes *)

Lemma includes_In l s : includes l s = true <-> In s l.
Proof.
unfold includes. rewrite existsb_exists. split.
- intros [y [Hin Heq]]. apply String.eqb_eq in Heq. subst. exact Hin.
- intros Hin. exists s. split; [exact Hin | apply String.eqb_refl].
Qed.

Lemma not_includes_In l s : negb (includes l s) = true <-> ~ In s l.
Proof.
rewrite negb_true_iff, <- includes_In. destruct (includes l s); split; congruence.
Qed.

(** C9. [deleteSelectedNodes] hands to the history the state in which
    exactly the nodes whose id is selected are gone, exactly the edges with
    a selected source or target are gone, and all else is as it was; that
    state becomes the current one (unless an undo or redo is being applied,
    or nothing serializes differently).  On the graph with edges A->C, B->D
    and C->D, removing A and B leaves the nodes C and D and the edge C->D. *)
Theorem deleteSelectedNodes_removes_exactly :
  (forall a st,
     editorState a = Some st ->
     selectedNodeIds a <> [] ->
     let ids := selectedNodeIds a in
     let st' := spread (removal ids st) st in
     deleteSelectedNodes a = updateEditorState (removal ids st) a /\
     (forall node, In node (nodes st') <-> In node (nodes st) /\ ~ In (id node) ids) /\
     (forall edge, In edge (edges st') <->
        In edge (edges st) /\ ~ In (source edge) ids /\ ~ In (target edge) ids) /\
     nodeIdCounter st' = nodeIdCounter st /\
     (History.isApplyingHistory GraphState (editor a) = false ->
      stringify st <> stringify st' ->
      editorState (deleteSelectedNodes a) = Some st')) /\
  selectedNodeIds exampleApp = ["A"; "B"] /\
  option_map (fun st => (map id (nodes st), map edge_id (edges st)))
    (editorState (deleteSelectedNodes exampleApp)) = Some (["C"; "D"], ["eC-D"]).
Proof.
split; [|split; vm_compute; reflexivity].
intros a st Hst Hsel ids st'.
assert (Hdel : deleteSelectedNodes a = updateEditorState (removal ids st) a).
{ unfold deleteSelectedNodes. rewrite Hst.
  unfold selectedNodeIds in Hsel.
  destruct (filter isSelected (reactFlowNodes a)) eqn:E; [contradiction|].
  subst ids. unfold selectedNodeIds. rewrite E. reflexivity. }
split; [exact Hdel|].
split; [|split; [|split]].
- intros node. subst st'. cbn [spread removal u_nodes orElse nodes].
  rewrite filter_In, not_includes_In. reflexivity.
- intros edge. subst st'. cbn [spread removal u_edges orElse edges].
  rewrite filter_In, andb_true_iff, !not_includes_In. reflexivity.
- reflexivity.
- intros Hflag Hneq. rewrite Hdel. unfold updateEditorState, editorState.
  cbn [withEditor editor].
  apply (History.setState_push_state GraphState stringify maxHistorySize
           (History.Updater GraphState (spread (removal ids st))) (editor a) st
           Hflag Hst Hneq).
Qed.

Lemma deleteSelectedNodes_removes_exactly_witness :
  editorState exampleApp = Some exampleGraph /\
  selectedNodeIds exampleApp <> [] /\
  deleteSelectedNodes exampleApp =
    updateEditorState (removal (selectedNodeIds exampleApp) exampleGraph) exampleApp.
Proof.
assert (H1 : editorState exampleApp = Some exampleGraph) by reflexivity.
assert (H2 : selectedNodeIds exampleApp <> []) by discriminate.
split; [exact H1|]. split; [exact H2|].
exact (proj1 (proj1 deleteSelectedNodes_removes_exactly exampleApp exampleGraph H1 H2)).
Defined.

(** ** The claim on the help shortcut *)

Lemma updateEditorState_help updates a :
  showKeyboardHelp (updateEditorState updates a) = showKeyboardHelp a.
Proof.
reflexivity.
Qed.

Lemma deleteSelectedEdges_help a :
  showKeyboardHelp (deleteSelectedEdges a) = showKeyboardHelp a.
Proof.
unfold deleteSelectedEdges. destruct (editorState a); [|reflexivity].
destruct (0 <? length (selectedEdges a)); reflexivity.
Qed.

Lemma deleteSelectedNodes_help a :
  showKeyboardHelp (deleteSelectedNodes a) = showKeyboardHelp a.
Proof.
unfold deleteSelectedNodes. destruct (editorState a); [|reflexivity].
destruct (0 <? length (filter isSelected (reactFlowNodes a))); reflexivity.
Qed.

Lemma undo_help a : showKeyboardHelp (snd (undo a)) = showKeyboardHelp a.
Proof.
unfold undo. destruct (History.undo GraphState (editor a)) as [[|] h]; reflexivity.
Qed.

Lemma redo_help a : showKeyboardHelp (snd (redo a)) = showKeyboardHelp a.
Proof.
unfold redo. destruct (History.redo GraphState (editor a)) as [[|] h]; reflexivity.
Qed.

(** C10. [onKeyDown] toggles the help overlay exactly on the events whose
    key is ["?"] with [shiftKey] false and whose target is not being typed
    in; on any other event the overlay stays as it is, except that Escape
    closes it when it is open; and an event with key ["?"] and [shiftKey]
    true changes nothing at all. *)
Theorem help_toggles_only_on_plain_question_mark event a :
  (isHelpToggle event = true ->
   showKeyboardHelp (onKeyDown event a) = negb (showKeyboardHelp a)) /\
  (isHelpToggle event = false ->
   showKeyboardHelp (onKeyDown event a) = showKeyboardHelp a \/
   (key event = "Escape" /\ isTyping event = false /\
    showKeyboardHelp a = true /\ showKeyboardHelp (onKeyDown event a) = false)) /\
  (key event = "?" -> shiftKey event = true ->
   onKeyDown event a = a /\
   showKeyboardHelp (onKeyDown event a) = showKeyboardHelp a).
Proof.
split; [|split].
- unfold isHelpToggle. intros H.
  apply andb_prop in H. destruct H as [H Htyping].
  apply andb_prop in H. destruct H as [Hkey Hshift].
  apply String.eqb_eq in Hkey. apply negb_true_iff in Hshift, Htyping.
  unfold onKeyDown. rewrite Hkey, Hshift, Htyping. cbn.
  rewrite !andb_false_r. reflexivity.
- intros Hnot. unfold onKeyDown. cbv zeta.
  destruct ((ctrlKey event || metaKey event) &&
            (String.eqb (key event) "z" && negb (shiftKey event)));
    [left; apply undo_help|].
  destruct ((ctrlKey event || metaKey event) &&
            (String.eqb (key event) "y" ||
             String.eqb (key event) "z" && shiftKey event));
    [left; apply redo_help|].
  destruct (isTyping event) eqn:Htyping; [left; reflexivity|].
  destruct (String.eqb (key event) "?" && negb (shiftKey event)) eqn:Hq.
  { unfold isHelpToggle in Hnot. rewrite Hq, Htyping in Hnot. discriminate. }
  destruct (String.eqb (key event) "Delete" || String.eqb (key event) "Backspace").
  { left. destruct (0 <? length (selectedEdges a)); [apply deleteSelectedEdges_help|].
    destruct (0 <? length (filter isSelected (reactFlowNodes a)));
      [apply deleteSelectedNodes_help | reflexivity]. }
  destruct (String.eqb (key event) "Escape") eqn:Hesc; [|left; reflexivity].
  apply String.eqb_eq in Hesc.
  destruct (showKeyboardHelp a) eqn:Hshow; [right; repeat split; assumption|].
  left. unfold clearSelection. cbn [withMirror withSelectedEdges showKeyboardHelp].
  exact Hshow.
- intros Hkey Hshift.
  assert (E : onKeyDown event a = a).
  { unfold onKeyDown. rewrite Hkey, Hshift. cbn.
    rewrite !andb_false_r. destruct (isTyping event); reflexivity. }
  rewrite E. split; reflexivity.
Qed.

(** A plain [?] typed on the canvas, and the same key with Shift held. *)
Definition canvas : EventTarget := {| tagName := "DIV"; contentEditable := "inherit" |}.

Definition questionMark (shift : bool) : KeyboardEvent :=
  {| key := "?"; shiftKey := shift; ctrlKey := false; metaKey := false;
     event_target := canvas |}.

Lemma help_toggles_only_on_plain_question_mark_witness :
  isHelpToggle (questionMark false) = true /\
  showKeyboardHelp (onKeyDown (questionMark false) initialApp) = true /\
  key (questionMark true) = "?" /\ shiftKey (questionMark true) = true /\
  onKeyDown (questionMark true) initialApp = initialApp.
Proof.
assert (H1 : isHelpToggle (questionMark false) = true) by reflexivity.
assert (H2 : key (questionMark true) = "?") by reflexivity.
assert (H3 : shiftKey (questionMark true) = true) by reflexivity.
split; [exact H1|].
split; [exact (proj1 (help_toggles_only_on_plain_question_mark (questionMark false) initialApp) H1)|].
split; [exact H2|]. split; [exact H3|].
exact (proj1 (proj2 (proj2 (help_toggles_only_on_plain_question_mark (questionMark true) initialApp)) H2 H3)).
Defined.

End Editor.

(* ===================================================================== *)
(** * More on hooks/useHistory.js *)
(* ===================================================================== *)

Module HistoryFacts.

Section Facts.

Variable A : Type.
Variable stringify : A -> string.
Variable initialState : A.
Variable maxHistorySize : nat.

Local Abbreviation hook := (History.hook A).
Local Abbreviation history := (History.history A).
Local Abbreviation currentIndex := (History.currentIndex A).
Local Abbreviation isApplyingHistory := (History.isApplyingHistory A).
Local Abbreviation state := (History.state A).
Local Abbreviation historySize := (History.historySize A).
Local Abbreviation canUndo := (History.canUndo A).
Local Abbreviation canRedo := (History.canRedo A).
Local Abbreviation observe := (History.observe A).
Local Abbreviation undo := (History.undo A).
Local Abbreviation redo := (History.redo A).
Local Abbreviation resetApplying := (History.resetApplying A).
Local Abbreviation clearHistory := (History.clearHistory A initialState).
Local Abbreviation actualNewState := (History.actualNewState A).
Local Abbreviation limitSize := (History.limitSize A maxHistorySize).
Local Abbreviation setState := (History.setState A stringify maxHistorySize).
Local Abbreviation step := (History.step A stringify initialState maxHistorySize).
Local Abbreviation run := (History.run A stringify initialState maxHistorySize).
Local Abbreviation reachable := (History.reachable A stringify initialState maxHistorySize).
Local Abbreviation wf := (History.wf A maxHistorySize).
Local Abbreviation init := (History.init A initialState).

(** The position [HistoryControls] shows: [currentIndex + 1] of
    [historySize]. *)
Definition position (h : hook) : nat * nat := (currentIndex h + 1, historySize h).

(** A history that is the initial one, or holds at least two entries. *)
Definition freshOrGrown (h : hook) : Prop :=
  history h = [initialState] \/ 2 <= length (history h).

(** X1. In every session in which each call goes through the callbacks of
    the latest render (a render happens between two calls, as between two
    user events), the index stays inside the array: [state] is never
    [undefined], the position the controls show lies between 1 and
    [historySize], an [undo] that moves starts from an index of at least 1
    and takes it down by exactly one, an [undo] that does not move is at
    index 0, and a [redo] that moves takes the index up by one to a place
    still inside the array. *)
Theorem state_is_always_defined ops :
  let h := run ops in
  currentIndex h < historySize h /\
  (exists a, state h = Some a) /\
  1 <= fst (position h) <= snd (position h) /\
  (fst (undo h) = true -> currentIndex h = S (currentIndex (snd (undo h)))) /\
  (fst (undo h) = false -> currentIndex h = 0) /\
  (fst (redo h) = true ->
   currentIndex (snd (redo h)) = S (currentIndex h) /\
   S (currentIndex h) < historySize h).
Proof.
intros h.
destruct (History.reachable_wf A stringify initialState maxHistorySize h
            (History.run_reachable A stringify initialState maxHistorySize ops))
  as [Hidx _].
unfold History.historySize, position, History.historySize. cbn [fst snd].
split; [exact Hidx|]. split; [|split; [lia|]].
- unfold History.state.
  destruct (nth_error (history h) (currentIndex h)) as [a|] eqn:E.
  + exists a. reflexivity.
  + apply nth_error_None in E. lia.
- split; [|split].
  + unfold History.undo, History.undoFrom.
    destruct (0 <? currentIndex h) eqn:Eu; cbn [fst snd History.currentIndex];
      intros E; [|discriminate E].
    apply Nat.ltb_lt in Eu. lia.
  + unfold History.undo, History.undoFrom.
    destruct (0 <? currentIndex h) eqn:Eu; cbn [fst]; intros E; [discriminate E|].
    apply Nat.ltb_ge in Eu. lia.
  + unfold History.redo, History.redoFrom.
    destruct (currentIndex h <? length (history h) - 1) eqn:Er;
      cbn [fst snd History.currentIndex]; intros E; [|discriminate E].
    apply Nat.ltb_lt in Er. lia.
Qed.

(** A series of [setState] calls, each at the render after the one before. *)
Definition setStates (nss : list (History.newState A)) (h : hook) : hook :=
  fold_left (fun h ns => setState ns h) nss h.

Lemma setStates_dropped nss : forall h : hook,
  isApplyingHistory h = true -> setStates nss h = h.
Proof.
induction nss as [|ns nss IH]; intros h Hflag; [reflexivity|].
unfold setStates. cbn [fold_left].
unfold History.setState, History.setStateFrom at 2. rewrite Hflag.
apply IH. exact Hflag.
Qed.

(** X2. The guard against re-entrance.  An [undo] or [redo] that cannot
    move returns false and leaves the hook as it is, flag included; one that
    moves returns true, and from then on every [setState], however many,
    is dropped until the timer has cleared the flag. *)
Theorem guard_follows_undo_and_redo (h : hook) (nss : list (History.newState A)) :
  (canUndo h = false -> undo h = (false, h)) /\
  (canRedo h = false -> redo h = (false, h)) /\
  (canUndo h = true ->
   fst (undo h) = true /\
   setStates nss (snd (undo h)) = snd (undo h) /\
   isApplyingHistory (resetApplying (snd (undo h))) = false) /\
  (canRedo h = true ->
   fst (redo h) = true /\
   setStates nss (snd (redo h)) = snd (redo h) /\
   isApplyingHistory (resetApplying (snd (redo h))) = false).
Proof.
unfold History.canUndo, History.canRedo, History.undo, History.undoFrom,
  History.redo, History.redoFrom.
split; [|split; [|split]]; intros Hcan; rewrite Hcan; cbn [fst snd];
  try reflexivity.
- split; [reflexivity|]. split; [apply setStates_dropped|]; reflexivity.
- split; [reflexivity|]. split; [apply setStates_dropped|]; reflexivity.
Qed.

(** X3. On every reachable state where [redo] can move, [redo] and then
    [undo] bring back what the hook showed before. *)
Theorem redo_then_undo_restores (h : hook) :
  reachable h ->
  canRedo h = true ->
  fst (redo h) = true /\
  fst (undo (snd (redo h))) = true /\
  observe (snd (undo (snd (redo h)))) = observe h /\
  history (snd (undo (snd (redo h)))) = history h.
Proof.
intros Hreach Hcan. unfold History.canRedo in Hcan.
unfold History.redo, History.redoFrom. rewrite Hcan. cbn [fst snd].
unfold History.undo, History.undoFrom. cbn [History.currentIndex History.history].
assert (E : (0 <? currentIndex h + 1) = true) by (apply Nat.ltb_lt; lia).
rewrite E. cbn [fst snd].
unfold History.observe, History.state, History.canUndo, History.canRedo,
  History.historySize. cbn [History.currentIndex History.history].
replace (currentIndex h + 1 - 1) with (currentIndex h) by lia.
repeat split.
Qed.

Lemma pushed_history (h : hook) ns cur :
  wf h ->
  state h = Some cur ->
  2 <= maxHistorySize ->
  let pushed := limitSize (firstn (currentIndex h + 1) (history h) ++ [actualNewState ns cur]) in
  2 <= length pushed /\
  nth_error pushed (length pushed - 1 - 1) = Some cur /\
  nth_error pushed (length pushed - 1) = Some (actualNewState ns cur).
Proof.
intros [Hidx Hlen] Hcur Hcap pushed.
assert (Hf : firstn (currentIndex h + 1) (history h) =
             firstn (currentIndex h) (history h) ++ [cur])
  by (apply History.firstn_succ_nth; exact Hcur).
assert (Hl : length (firstn (currentIndex h) (history h)) = currentIndex h)
  by (rewrite length_firstn; lia).
subst pushed. rewrite Hf. unfold History.limitSize.
rewrite !length_app. cbn [length]. rewrite Hl.
destruct (maxHistorySize <? currentIndex h + 1 + 1) eqn:E.
- apply Nat.ltb_lt in E.
  destruct (firstn (currentIndex h) (history h)) as [|a p] eqn:Ep.
  + simpl in Hl. lia.
  + cbn [app tl length]. simpl in Hl. rewrite !length_app. cbn [length].
    repeat split.
    * lia.
    * rewrite <- app_assoc. rewrite nth_error_app2 by lia.
      replace (length p + 1 + 1 - 1 - 1 - length p) with 0 by lia. reflexivity.
    * rewrite nth_error_app2 by (rewrite length_app; cbn [length]; lia).
      rewrite length_app. cbn [length].
      replace (length p + 1 + 1 - 1 - (length p + 1)) with 0 by lia. reflexivity.
- rewrite !length_app. cbn [length]. rewrite Hl. repeat split.
  + lia.
  + rewrite <- app_assoc. rewrite nth_error_app2 by lia.
    replace (currentIndex h + 1 + 1 - 1 - 1 - length (firstn (currentIndex h) (history h)))
      with 0 by lia.
    reflexivity.
  + rewrite nth_error_app2 by (rewrite length_app; cbn [length]; lia).
    rewrite length_app. cbn [length].
    replace (currentIndex h + 1 + 1 - 1 -
             (length (firstn (currentIndex h) (history h)) + 1)) with 0 by lia.
    reflexivity.
Qed.

(** X4. With a cap of at least 2, a change that [setState] records can be
    taken back at once: after the push [undo] succeeds and shows the state
    the change was made from, and [redo] shows the change again. *)
Theorem setState_then_undo_restores (h : hook) ns cur :
  2 <= maxHistorySize ->
  reachable h ->
  isApplyingHistory h = false ->
  state h = Some cur ->
  stringify cur <> stringify (actualNewState ns cur) ->
  let pushed := setState ns h in
  state pushed = Some (actualNewState ns cur) /\
  fst (undo pushed) = true /\
  state (snd (undo pushed)) = Some cur /\
  state (snd (redo (snd (undo pushed)))) = Some (actualNewState ns cur).
Proof.
intros Hcap Hreach Hflag Hcur Hneq pushed.
pose proof (History.reachable_wf _ _ _ _ h Hreach) as Hwf.
destruct (pushed_history h ns cur Hwf Hcur Hcap) as (Hlen & Hprev & Hlast).
subst pushed.
rewrite (History.setState_push A stringify maxHistorySize ns h cur Hflag Hcur Hneq).
cbv zeta.
set (l := limitSize (firstn (currentIndex h + 1) (history h) ++ [actualNewState ns cur])) in *.
unfold History.undo, History.undoFrom, History.state.
cbn [History.currentIndex History.history].
assert (E : (0 <? length l - 1) = true) by (apply Nat.ltb_lt; lia).
rewrite E. cbn [fst snd History.currentIndex History.history].
unfold History.redo, History.redoFrom. cbn [History.currentIndex History.history].
assert (E' : (length l - 1 - 1 <? length l - 1) = true) by (apply Nat.ltb_lt; lia).
rewrite E'. cbn [fst snd History.currentIndex History.history].
replace (length l - 1 - 1 + 1) with (length l - 1) by lia.
repeat split; assumption.
Qed.

Lemma step_freshOrGrown (h : hook) o :
  2 <= maxHistorySize -> wf h -> freshOrGrown h -> freshOrGrown (step h o).
Proof.
intros Hcap Hwf Hinv. destruct o as [ns| | | |]; cbn [History.step].
- destruct (History.setState_cases A stringify maxHistorySize ns h)
    as [E | (cur & Hcur & _ & _ & E)]; rewrite E; [exact Hinv|].
  right. cbv zeta. cbn [History.history].
  exact (proj1 (pushed_history h ns cur Hwf Hcur Hcap)).
- unfold History.undo, History.undoFrom.
  destruct (0 <? currentIndex h); exact Hinv.
- unfold History.redo, History.redoFrom.
  destruct (currentIndex h <? length (history h) - 1); exact Hinv.
- left. reflexivity.
- exact Hinv.
Qed.

(** X5. [clearHistory] leaves the one-entry history of the initial state,
    whatever came before; and with a cap of at least 2 a history of one
    entry is that history already, so the button [HistoryControls] disables
    at [historySize <= 1] has nothing left to clear. *)
Theorem single_entry_is_initial (h : hook) :
  2 <= maxHistorySize ->
  reachable h ->
  observe (clearHistory h) = observe init /\
  (historySize h <= 1 ->
   history h = [initialState] /\ state h = Some initialState /\
   history (clearHistory h) = history h).
Proof.
intros Hcap Hreach. split; [reflexivity|].
assert (Hinv : freshOrGrown h).
{ induction Hreach as [|h o Hreach IH]; [left; reflexivity|].
  apply step_freshOrGrown; [exact Hcap | | exact IH].
  apply (History.reachable_wf A stringify initialState maxHistorySize). exact Hreach. }
intros Hsize. unfold History.historySize in Hsize.
destruct Hinv as [E | Hgrown]; [|lia].
destruct (History.reachable_wf _ _ _ _ h Hreach) as [Hidx _].
rewrite E in Hidx. simpl in Hidx.
assert (Hi : currentIndex h = 0) by lia.
unfold History.state. rewrite E, Hi. repeat split.
Qed.

End Facts.

Lemma redo_then_undo_restores_witness :
  History.reachable nat History.stringifyNat 0 5 History.rewound /\
  History.canRedo nat History.rewound = true /\
  History.observe nat
    (snd (History.undo nat (snd (History.redo nat History.rewound)))) =
  History.observe nat History.rewound.
Proof.
assert (H1 : History.reachable nat History.stringifyNat 0 5 History.rewound)
  by apply History.run_reachable.
assert (H2 : History.canRedo nat History.rewound = true) by reflexivity.
split; [exact H1|]. split; [exact H2|].
exact (proj1 (proj2 (proj2
         (redo_then_undo_restores nat History.stringifyNat 0 5 History.rewound H1 H2)))).
Defined.

Lemma setState_then_undo_restores_witness :
  2 <= 2 /\
  History.reachable nat History.stringifyNat 0 2 History.filled /\
  History.state nat
    (snd (History.undo nat
            (History.setState nat History.stringifyNat 2 (History.Value nat 2)
               History.filled))) = Some 1.
Proof.
assert (H0 : 2 <= 2) by lia.
assert (H1 : History.reachable nat History.stringifyNat 0 2 History.filled)
  by apply History.run_reachable.
assert (H2 : History.isApplyingHistory nat History.filled = false) by reflexivity.
assert (H3 : History.state nat History.filled = Some 1) by reflexivity.
assert (H4 : History.stringifyNat 1 <>
             History.stringifyNat (History.actualNewState nat (History.Value nat 2) 1))
  by (vm_compute; discriminate).
split; [exact H0|]. split; [exact H1|].
exact (proj1 (proj2 (proj2
         (setState_then_undo_restores nat History.stringifyNat 0 2 History.filled
            (History.Value nat 2) 1 H0 H1 H2 H3 H4)))).
Defined.

Lemma single_entry_is_initial_witness :
  2 <= 5 /\
  History.reachable nat History.stringifyNat 0 5 (History.clearHistory nat 0 History.rewound) /\
  History.history nat (History.clearHistory nat 0 History.rewound) = [0].
Proof.
assert (H0 : 2 <= 5) by lia.
assert (H1 : History.reachable nat History.stringifyNat 0 5
               (History.clearHistory nat 0 History.rewound)).
{ apply (History.reachable_step nat History.stringifyNat 0 5 History.rewound
           (History.ClearHistory nat)).
  apply History.run_reachable. }
assert (H2 : History.historySize nat (History.clearHistory nat 0 History.rewound) <= 1)
  by (vm_compute; lia).
split; [exact H0|]. split; [exact H1|].
exact (proj1 (proj2 (single_entry_is_initial nat History.stringifyNat 0 5
                       (History.clearHistory nat 0 History.rewound) H0 H1) H2)).
Defined.

(** With a cap of 1 the push evicts the state it was made from, and there
    is nothing to undo to. *)
Example cap_one_cannot_undo :
  History.canUndo nat
    (History.run nat History.stringifyNat 0 1 [History.SetState nat (History.Value nat 1)])
  = false.
Proof.
reflexivity.
Qed.

End HistoryFacts.

(* ===================================================================== *)
(** * More on nodes/TextNode.jsx *)
(* ===================================================================== *)

Module TextNodeFacts.

Import TextNode.

(** Whether a text holds the code unit [{], and whether it holds [}]. *)
Fixpoint hasOpen (s : jsString) : bool :=
  match s with
  | [] => false
  | c :: s' => isOpen c || hasOpen s'
  end.

Fixpoint hasClose (s : jsString) : bool :=
  match s with
  | [] => false
  | c :: s' => isClose c || hasClose s'
  end.

(** ** Trimming *)

(** [trimStart] takes whitespace off the front and nothing else. *)
Lemma trimStart_split s :
  exists before, s = before ++ trimStart s /\ Forall (fun c => In c whiteSpace) before.
Proof.
induction s as [|c s IH]; [exists []; split; [reflexivity | constructor]|].
cbn [trimStart]. destruct (isWhiteSpace c) eqn:E.
- destruct IH as [before [Hs Hb]]. exists (c :: before). split.
  + cbn [List.app]. f_equal. exact Hs.
  + constructor; [apply isWhiteSpace_In; exact E | exact Hb].
- exists []. split; [reflexivity | constructor].
Qed.

(** [trimEnd] takes whitespace off the end and nothing else. *)
Lemma trimEnd_split s :
  exists after, s = trimEnd s ++ after /\ Forall (fun c => In c whiteSpace) after.
Proof.
induction s as [|c s IH]; [exists []; split; [reflexivity | constructor]|].
destruct IH as [after [Hs Ha]]. cbn [trimEnd].
destruct (isWhiteSpace c && isEmpty (trimEnd s)) eqn:E.
- apply andb_true_iff in E. destruct E as [Ec Et].
  destruct (trimEnd s); [|discriminate]. cbn [List.app] in Hs. subst after.
  exists (c :: s). split; [reflexivity|].
  constructor; [apply isWhiteSpace_In; exact Ec | exact Ha].
- exists after. split; [cbn [List.app]; f_equal; exact Hs | exact Ha].
Qed.

Lemma trimStart_head s c t : trimStart s = c :: t -> isWhiteSpace c = false.
Proof.
rewrite trimStart_dropSpaces, isWhiteSpace_isSpace. apply dropSpaces_head.
Qed.

Lemma trimEnd_head s c t :
  trimEnd s = c :: t -> exists s', s = c :: s'.
Proof.
destruct s as [|d s]; [discriminate|]. cbn [trimEnd].
destruct (isWhiteSpace d && isEmpty (trimEnd s)); [discriminate|].
intros H. inversion H; subst. eauto.
Qed.

Lemma trimEnd_last s c : hd_error (rev (trimEnd s)) = Some c -> isWhiteSpace c = false.
Proof.
induction s as [|d s IH]; [discriminate|].
cbn [trimEnd]. destruct (isWhiteSpace d && isEmpty (trimEnd s)) eqn:E; [discriminate|].
cbn [rev]. destruct (trimEnd s) as [|e t] eqn:Et.
- cbn. intros H. inversion H; subst.
  cbn [isEmpty] in E. rewrite andb_true_r in E. exact E.
- intros H. apply IH.
  destruct (rev (e :: t)) as [|f u] eqn:Er; [|exact H].
  apply (f_equal (@length _)) in Er. rewrite length_rev in Er. discriminate.
Qed.

(** ** The names found *)

Lemma innerText_no_close s : ~ In closeBrace (fst (innerText s)).
Proof.
induction s as [|c s IH]; [intros []|].
cbn [innerText]. destruct (N.eqb_spec c closeBrace) as [E|E]; [intros []|].
destruct (innerText s) as [inner rest]. cbn [fst] in *.
intros [H|H]; [congruence | contradiction].
Qed.

Lemma referenceAt_no_close s inner : referenceAt s = Some inner -> ~ In closeBrace inner.
Proof.
unfold referenceAt. destruct (after (js "{{") s) as [s'|]; [|discriminate].
pose proof (innerText_no_close s') as H.
destruct (innerText s') as [i rest]. destruct (after (js "}}") rest); [|discriminate].
intros E. inversion E; subst. exact H.
Qed.

Lemma occurrencesFrom_no_close s : forall skip,
  Forall (fun inner => ~ In closeBrace inner) (occurrencesFrom skip s).
Proof.
induction s as [|c s IH]; intros skip; [constructor|].
cbn [occurrencesFrom]. destruct skip as [|k]; [|apply IH].
destruct (referenceAt (c :: s)) as [inner|] eqn:E; [|apply IH].
constructor; [exact (referenceAt_no_close _ _ E) | apply IH].
Qed.

Lemma dedup_In l v : In v (dedup l) -> In v l.
Proof.
revert v. induction l as [|x l IH]; intros v H; [exact H|].
cbn [dedup] in H. destruct H as [H|H]; [left; exact H|].
apply filter_In in H. right. apply IH. tauto.
Qed.

Lemma dedup_NoDup l : NoDup (dedup l).
Proof.
induction l as [|x l IH]; [constructor|].
cbn [dedup]. constructor.
- intros H. apply filter_In in H. destruct H as [_ H].
  rewrite sameName_refl in H. discriminate.
- apply NoDup_filter. exact IH.
Qed.

Lemma variables_NoDup text : NoDup (variables text).
Proof.
rewrite variables_spec_names. apply dedup_NoDup.
Qed.

(** Every variable is the trimmed inner text of a reference. *)
Lemma variables_trimmed text v :
  In v (variables text) ->
  v <> [] /\ exists inner, In inner (occurrences text) /\ v = trim inner.
Proof.
rewrite variables_spec_names. unfold spec_names. rewrite <- kept_names.
intros Hin. apply dedup_In in Hin. unfold kept in Hin.
apply filter_In in Hin. destruct Hin as [Hin Hne].
apply in_map_iff in Hin. destruct Hin as [inner [Hv Hin]]. subst v.
split; [intros E; rewrite E in Hne; discriminate|].
exists inner. split; [exact Hin | reflexivity].
Qed.

(** X6. The variables a text yields are pairwise distinct, and each is a
    clean name: it is what a reference holds between its braces without the
    whitespace before and after it, it is not empty, its first and its last
    code unit are no whitespace, and it holds no [}]. *)
Theorem variables_are_clean text :
  NoDup (variables text) /\
  forall v, In v (variables text) ->
    v <> [] /\
    (exists before after,
       In (before ++ v ++ after) (occurrences text) /\
       Forall (fun c => In c whiteSpace) before /\
       Forall (fun c => In c whiteSpace) after) /\
    (forall c, hd_error v = Some c -> ~ In c whiteSpace) /\
    (forall c, hd_error (rev v) = Some c -> ~ In c whiteSpace) /\
    ~ In closeBrace v.
Proof.
split; [apply variables_NoDup|].
intros v Hin. destruct (variables_trimmed text v Hin) as [Hne [inner [Hocc Hv]]].
destruct (trimStart_split inner) as [before [Hinner Hbefore]].
destruct (trimEnd_split (trimStart inner)) as [after [Hmid Hafter]].
fold (trim inner) in Hmid. rewrite <- Hv in Hmid.
assert (Hwhole : inner = before ++ v ++ after) by (rewrite <- Hmid; exact Hinner).
split; [exact Hne|]. split; [|split; [|split]].
- exists before, after. rewrite <- Hwhole. tauto.
- intros c Hc. destruct v as [|d t]; [discriminate|]. inversion Hc; subst d.
  unfold trim in Hv. symmetry in Hv.
  destruct (trimEnd_head _ _ _ Hv) as [s' Hs'].
  apply trimStart_head in Hs'. rewrite <- isWhiteSpace_In. congruence.
- intros c Hc. rewrite Hv in Hc. unfold trim in Hc.
  apply trimEnd_last in Hc. rewrite <- isWhiteSpace_In. congruence.
- pose proof (occurrencesFrom_no_close text 0) as Hall.
  rewrite Forall_forall in Hall. specialize (Hall inner Hocc).
  intros Hc. apply Hall. rewrite Hwhole.
  apply in_or_app. right. apply in_or_app. left. exact Hc.
Qed.

Lemma NoDup_snoc (l : list jsString) x : NoDup l -> ~ In x l -> NoDup (l ++ [x]).
Proof.
intros Hnd Hnot. induction l as [|v l IH]; cbn [List.app].
- constructor; [intros [] | constructor].
- inversion Hnd; subst. constructor.
  + intros Hin. apply in_app_or in Hin. destruct Hin as [Hin|[Hin|[]]].
    * contradiction.
    * apply Hnot. left. symmetry. exact Hin.
  + apply IH; [assumption|]. intros Hin. apply Hnot. right. exact Hin.
Qed.

Lemma handle_ids text : map id (handles text) = variables text ++ [js "output"].
Proof.
unfold handles. rewrite map_app. cbn [map outputHandle id]. f_equal.
generalize 0 as index. induction (variables text) as [|v l IH]; intros index;
  [reflexivity|].
cbn [mapi_from map inputHandle id]. f_equal. apply IH.
Qed.

(** X7. The handle ids of a text node are pairwise distinct exactly when
    no variable is called [output]: a reference [{{output}}] gets an input
    handle with the id of the fixed output handle. *)
Theorem handle_ids_unique_unless_output text :
  (NoDup (map id (handles text)) <-> ~ In (js "output") (variables text)) /\
  map id (handles (js "{{a}} to {{ output }}")) = [js "a"; js "output"; js "output"].
Proof.
split; [|vm_compute; reflexivity].
rewrite handle_ids. split.
- intros H Hin. apply NoDup_remove_2 in H. rewrite app_nil_r in H. contradiction.
- intros Hnot. apply NoDup_snoc; [apply variables_NoDup | exact Hnot].
Qed.

(** ** Texts without references *)

Lemma matchGroup_no_close s : hasClose s = false -> matchGroup s = None.
Proof.
induction s as [|c s IH]; [reflexivity|]. intros H.
cbn [hasClose] in H. apply orb_false_elim in H. destruct H as [Hc Hs].
cbn [matchGroup]. rewrite Hc, (IH Hs).
destruct s as [|d s']; [reflexivity|].
cbn [hasClose] in Hs. apply orb_false_elim in Hs.
rewrite matchClose_close by tauto. reflexivity.
Qed.

Lemma exec_no_open s : hasOpen s = false -> exec s = None.
Proof.
induction s as [|c s IH]; [reflexivity|]. intros H.
cbn [hasOpen] in H. apply orb_false_elim in H. destruct H as [Hc Hs].
rewrite exec_close by exact Hc. apply IH, Hs.
Qed.

Lemma exec_no_close s : hasClose s = false -> exec s = None.
Proof.
induction s as [|c s IH]; [reflexivity|]. intros H.
assert (Hs : hasClose s = false)
  by (cbn [hasClose] in H; apply orb_false_elim in H; tauto).
rewrite exec_cons_none; [apply IH, Hs|].
unfold matchHere. destruct (matchOpen (c :: s)) as [s'|] eqn:E; [|reflexivity].
apply matchOpen_some in E. inversion E; subst.
apply matchGroup_no_close.
cbn [hasClose] in Hs. apply orb_false_elim in Hs. tauto.
Qed.

(** X8. A text that holds no [{], or no [}], has no variables: its only
    handle is the output handle.  The empty text is such a text. *)
Theorem no_braces_only_output text :
  hasOpen text = false \/ hasClose text = false ->
  variables text = [] /\ handles text = [outputHandle].
Proof.
intros H.
assert (E : exec text = None)
  by (destruct H; [apply exec_no_open | apply exec_no_close]; assumption).
assert (V : variables text = []).
{ unfold variables. destruct (length text); cbn [execLoop]; [reflexivity|].
  rewrite E. reflexivity. }
split; [exact V|]. unfold handles. rewrite V. reflexivity.
Qed.

Lemma no_braces_only_output_witness :
  (hasOpen (js "plain text }}") = false \/ hasClose (js "plain text }}") = false) /\
  handles (js "plain text }}") = [outputHandle].
Proof.
assert (H : hasOpen (js "plain text }}") = false \/ hasClose (js "plain text }}") = false)
  by (left; reflexivity).
split; [exact H|].
exact (proj2 (no_braces_only_output (js "plain text }}") H)).
Defined.

End TextNodeFacts.

(* ===================================================================== *)
(** * More on components/NodeEditor.jsx *)
(* ===================================================================== *)

Module EditorFacts.

Import Editor.

(** ** [updateNodeData] *)

(** The value of a key of a [data] object. *)
Fixpoint lookup (k : string) (obj : list (string * datum)) : option datum :=
  match obj with
  | [] => None
  | (k', v) :: obj' => if String.eqb k' k then Some v else lookup k obj'
  end.

(** Assignment to a key: an existing key keeps its place, a new one goes
    last. *)
Fixpoint setKey (k : string) (v : datum) (obj : list (string * datum))
    : list (string * datum) :=
  match obj with
  | [] => [(k, v)]
  | (k', v') :: obj' =>
      if String.eqb k' k then (k', v) :: obj' else (k', v') :: setKey k v obj'
  end.

(** [{ ...node.data, ...newData }]: the keys of [newData] are assigned in
    order (the keys of these objects are names, none is an array index). *)
Definition spreadData (data newData : list (string * datum)) : list (string * datum) :=
  fold_left (fun obj kv => setKey (fst kv) (snd kv) obj) newData data.

(** [{ ...node, data: { ...node.data, ...newData } }] *)
Definition patch (newData : list (string * datum)) (node : Node) : Node :=
  {| id := id node; type := type node; position := position node;
     data := spreadData (data node) newData;
     selected := selected node; dragging := dragging node |}.

(** [updatedNodes] of [updateNodeData] *)
Definition updatedNodes (nodeId : string) (newData : list (string * datum))
    (nodes : list Node) : list Node :=
  map (fun node => if String.eqb (id node) nodeId then patch newData node else node) nodes.

(** [updateNodeData] *)
Definition updateNodeData (nodeId : string) (newData : list (string * datum)) (a : app) : app :=
  match editorState a with
  | None => a
  | Some st =>
      updateEditorState
        {| u_nodes := Some (updatedNodes nodeId newData (nodes st));
           u_edges := None;
           u_nodeIdCounter := None |} a
  end.

(** [onSelectionChange]: the argument is the selected edges, or
    [undefined]. *)
Definition onSelectionChange (selectedEdgeElements : option (list Edge)) (a : app) : app :=
  withSelectedEdges
    (match selectedEdgeElements with
     | Some es => map edge_id es
     | None => []
     end) a.

(** ** The keyboard *)

Definition isCtrlOrCmd (event : KeyboardEvent) : bool := ctrlKey event || metaKey event.

(** Ctrl/Cmd+Z without Shift. *)
Definition isUndoKey (event : KeyboardEvent) : bool :=
  isCtrlOrCmd event && (String.eqb (key event) "z" && negb (shiftKey event)).

(** Ctrl/Cmd+Y, or Ctrl/Cmd+Shift+Z. *)
Definition isRedoKey (event : KeyboardEvent) : bool :=
  isCtrlOrCmd event &&
  (String.eqb (key event) "y" || (String.eqb (key event) "z" && shiftKey event)).

Definition isDeleteKey (event : KeyboardEvent) : bool :=
  String.eqb (key event) "Delete" || String.eqb (key event) "Backspace".

(** [handleKeyDown] of the help overlay (KeyboardShortcutsHelp): [isVisible]
    is [showKeyboardHelp] and [onClose] sets it to false. *)
Definition helpKeyDown (event : KeyboardEvent) (isVisible : bool) (a : app) : app :=
  if String.eqb (key event) "Escape" && isVisible then withHelp false a else a.

(** A [keydown] on the document: it reaches the listener of the overlay
    and the listener of the editor, both created at the render that shows
    [a]. *)
Definition documentKeyDown (event : KeyboardEvent) (a : app) : app :=
  helpKeyDown event (showKeyboardHelp a) (onKeyDown event a).

(** Every edge of a state joins two of its nodes. *)
Definition noDangling (st : GraphState) : Prop :=
  forall edge, In edge (edges st) ->
    In (source edge) (map id (nodes st)) /\ In (target edge) (map id (nodes st)).

(** ** Sessions of the editor *)

Section Commands.

(** The reducer of the rendering library, as in [Editor.handleNodesChange]. *)
Variable onNodesChange : list NodeChange -> list Node -> list Node.

Inductive command : Type :=
| CAddNode (type : string) (position : option XY) (random : XY)
| CConnect (params : Connection) (now : Z)
| CUpdateNodeData (nodeId : string) (newData : list (string * datum))
| CDeleteSelectedEdges
| CDeleteSelectedNodes
| CClearSelection
| CSelectionChange (selectedEdgeElements : option (list Edge))
| CNodesChange (changes : list NodeChange)
| CKeyDown (event : KeyboardEvent)
| CUndo
| CRedo
| CClearHistory
| CTick
| CSyncEffect.

Definition perform (a : app) (c : command) : app :=
  match c with
  | CAddNode type position random => addNode type position random a
  | CConnect params now => onConnect params now a
  | CUpdateNodeData nodeId newData => updateNodeData nodeId newData a
  | CDeleteSelectedEdges => deleteSelectedEdges a
  | CDeleteSelectedNodes => deleteSelectedNodes a
  | CClearSelection => clearSelection a
  | CSelectionChange es => onSelectionChange es a
  | CNodesChange changes => handleNodesChange onNodesChange changes a
  | CKeyDown event => documentKeyDown event a
  | CUndo => snd (undo a)
  | CRedo => snd (redo a)
  | CClearHistory => clearHistory a
  | CTick => tick a
  | CSyncEffect => syncEffect a
  end.

Definition session (cs : list command) (a : app) : app := fold_left perform cs a.

(** The batches the library reports hold no release of a drag: they are
    selections, frames of a drag and the like, which [handleNodesChange]
    does not save. *)
Definition noRelease (cs : list command) : Prop :=
  Forall (fun c => match c with
                   | CNodesChange changes => hasPositionChange changes = false
                   | _ => True
                   end) cs.

(** The two ends of a connection are nodes of the current state. *)
Definition connects (params : Connection) (a : app) : Prop :=
  exists st, editorState a = Some st /\
    In (c_source params) (map id (nodes st)) /\ In (c_target params) (map id (nodes st)).

(** Every connection of the session is made between nodes that exist when
    it is made. *)
Fixpoint wellConnected (cs : list command) (a : app) : Prop :=
  match cs with
  | [] => True
  | c :: cs' =>
      match c with
      | CConnect params _ => connects params a
      | _ => True
      end /\ wellConnected cs' (perform a c)
  end.

(** ** What every command keeps *)

Definition quiet (a : app) : Prop := Forall (fun t => t = ResetApplying) (timers a).

Lemma updateEditorState_keeps (P : GraphState -> Prop) updates a st :
  editorState a = Some st ->
  Forall P (History.history GraphState (editor a)) ->
  P (spread updates st) ->
  Forall P (History.history GraphState (editor (updateEditorState updates a))).
Proof.
intros Hst Hall Hnew. unfold updateEditorState, setState. cbn [withEditor editor].
match goal with
| |- context [History.setState _ _ _ ?ns ?h] =>
    destruct (History.setState_cases GraphState stringify maxHistorySize ns h)
      as [E | (cur & Hcur & _ & _ & E)]; rewrite E
end; [exact Hall|].
unfold editorState in Hst. rewrite Hst in Hcur. inversion Hcur; subst cur.
cbv zeta. cbn [History.history History.actualNewState].
assert (H1 : Forall P (firstn (History.currentIndex GraphState (editor a) + 1)
                         (History.history GraphState (editor a)) ++ [spread updates st])).
{ apply Forall_app. split; [apply Forall_firstn; exact Hall|].
  constructor; [exact Hnew | constructor]. }
destruct (History.limitSize_cases GraphState maxHistorySize
            (firstn (History.currentIndex GraphState (editor a) + 1)
               (History.history GraphState (editor a)) ++ [spread updates st])) as [E'|E'];
  rewrite E'; [exact H1 | apply Forall_tl; exact H1].
Qed.

Lemma current_entry (P : GraphState -> Prop) a st :
  editorState a = Some st ->
  Forall P (History.history GraphState (editor a)) -> P st.
Proof.
intros Hst Hall. unfold editorState, History.state in Hst.
apply nth_error_In in Hst. rewrite Forall_forall in Hall. exact (Hall st Hst).
Qed.

Section Kept.

Variable P : GraphState -> Prop.
Variable C : Connection -> GraphState -> Prop.

Hypothesis P_initial : P initialState.
Hypothesis P_addNode : forall st type p,
  P st ->
  P {| nodes := nodes st ++ [newNode type p (nodeIdCounter st)];
       edges := edges st;
       nodeIdCounter := (nodeIdCounter st + 1)%N |}.
Hypothesis P_connect : forall st params now,
  P st -> C params st ->
  P {| nodes := nodes st;
       edges := edges st ++ [newEdge params now];
       nodeIdCounter := nodeIdCounter st |}.
Hypothesis P_patch : forall st nodeId newData,
  P st ->
  P {| nodes := updatedNodes nodeId newData (nodes st);
       edges := edges st;
       nodeIdCounter := nodeIdCounter st |}.
Hypothesis P_edges : forall st f,
  P st ->
  P {| nodes := nodes st; edges := filter f (edges st); nodeIdCounter := nodeIdCounter st |}.
Hypothesis P_removal : forall st ids, P st -> P (spread (removal ids st) st).

Definition kept (a : app) : Prop :=
  Forall P (History.history GraphState (editor a)) /\ quiet a.

(** The condition on a command: a connection satisfies [C] on the state
    it is made on. *)
Definition allowed (c : command) (a : app) : Prop :=
  match c with
  | CConnect params _ => forall st, editorState a = Some st -> C params st
  | CNodesChange changes => hasPositionChange changes = false
  | _ => True
  end.

Fixpoint allAllowed (cs : list command) (a : app) : Prop :=
  match cs with
  | [] => True
  | c :: cs' => allowed c a /\ allAllowed cs' (perform a c)
  end.

Lemma kept_deleteSelectedEdges a : kept a -> kept (deleteSelectedEdges a).
Proof.
intros [Hall Hq]. unfold deleteSelectedEdges.
destruct (editorState a) as [st|] eqn:Hst; [|split; assumption].
destruct (0 <? length (selectedEdges a)); [|split; assumption].
split; [|exact Hq].
cbn [withSelectedEdges editor].
apply (updateEditorState_keeps P _ a st Hst Hall).
apply P_edges. exact (current_entry P a st Hst Hall).
Qed.

Lemma kept_deleteSelectedNodes a : kept a -> kept (deleteSelectedNodes a).
Proof.
intros [Hall Hq]. unfold deleteSelectedNodes.
destruct (editorState a) as [st|] eqn:Hst; [|split; assumption].
destruct (0 <? length (filter isSelected (reactFlowNodes a))); [|split; assumption].
split; [|exact Hq].
apply (updateEditorState_keeps P _ a st Hst Hall).
apply P_removal. exact (current_entry P a st Hst Hall).
Qed.

Lemma kept_undo a : kept a -> kept (snd (undo a)).
Proof.
intros [Hall Hq]. unfold undo, History.undo, History.undoFrom.
destruct (0 <? History.currentIndex GraphState (editor a)); cbn [snd];
  [|split; assumption].
split; cbn; [exact Hall|]. apply Forall_app. split; [exact Hq | repeat constructor].
Qed.

Lemma kept_redo a : kept a -> kept (snd (redo a)).
Proof.
intros [Hall Hq]. unfold redo, History.redo, History.redoFrom.
destruct (History.currentIndex GraphState (editor a) <?
          length (History.history GraphState (editor a)) - 1); cbn [snd];
  [|split; assumption].
split; cbn; [exact Hall|]. apply Forall_app. split; [exact Hq | repeat constructor].
Qed.

Lemma kept_onKeyDown event a : kept a -> kept (onKeyDown event a).
Proof.
intros Hk. unfold onKeyDown. cbv zeta.
destruct ((ctrlKey event || metaKey event) &&
          (String.eqb (key event) "z" && negb (shiftKey event))); [apply kept_undo, Hk|].
destruct ((ctrlKey event || metaKey event) &&
          (String.eqb (key event) "y" || String.eqb (key event) "z" && shiftKey event));
  [apply kept_redo, Hk|].
destruct (isTyping event); [exact Hk|].
destruct (String.eqb (key event) "?" && negb (shiftKey event)); [exact Hk|].
destruct (String.eqb (key event) "Delete" || String.eqb (key event) "Backspace").
{ destruct (0 <? length (selectedEdges a)); [apply kept_deleteSelectedEdges, Hk|].
  destruct (0 <? length (filter isSelected (reactFlowNodes a)));
    [apply kept_deleteSelectedNodes, Hk | exact Hk]. }
destruct (String.eqb (key event) "Escape"); [|exact Hk].
destruct (showKeyboardHelp a); exact Hk.
Qed.

Lemma kept_perform a c : kept a -> allowed c a -> kept (perform a c).
Proof.
intros Hk Hc. pose proof Hk as [Hall Hq].
destruct c as [ty pos random | params now | nodeId newData | | | | es | changes
                | event | | | | | ];
  cbn [perform].
- unfold addNode. destruct (editorState a) as [st|] eqn:Hst; [|exact Hk].
  split; [|exact Hq].
  apply (updateEditorState_keeps P _ a st Hst Hall).
  apply (P_addNode st ty (orElse pos random)).
  exact (current_entry P a st Hst Hall).
- unfold onConnect. destruct (editorState a) as [st|] eqn:Hst; [|exact Hk].
  split; [|exact Hq].
  apply (updateEditorState_keeps P _ a st Hst Hall).
  apply (P_connect st params now); [exact (current_entry P a st Hst Hall)|].
  apply Hc. exact Hst.
- unfold updateNodeData. destruct (editorState a) as [st|] eqn:Hst; [|exact Hk].
  split; [|exact Hq].
  apply (updateEditorState_keeps P _ a st Hst Hall).
  apply (P_patch st nodeId newData). exact (current_entry P a st Hst Hall).
- apply kept_deleteSelectedEdges, Hk.
- apply kept_deleteSelectedNodes, Hk.
- exact Hk.
- exact Hk.
- unfold handleNodesChange. cbn [allowed] in Hc. rewrite Hc. exact Hk.
- unfold documentKeyDown, helpKeyDown.
  pose proof (kept_onKeyDown event a Hk) as Hk'.
  destruct (String.eqb (key event) "Escape" && showKeyboardHelp a); exact Hk'.
- apply kept_undo, Hk.
- apply kept_redo, Hk.
- split; [|exact Hq]. cbn. constructor; [exact P_initial | constructor].
- unfold tick. destruct (timers a) as [|t ts] eqn:Et; [exact Hk|].
  unfold quiet in Hq. rewrite Et in Hq. inversion Hq as [|? ? Ht Hts]; subst.
  split; cbn; assumption.
- unfold syncEffect. destruct (isSyncingState a); [exact Hk|].
  destruct (editorState a); exact Hk.
Qed.

Lemma kept_session cs : forall a, kept a -> allAllowed cs a -> kept (session cs a).
Proof.
induction cs as [|c cs IH]; intros a Hk Hcs; [exact Hk|].
destruct Hcs as [Hc Hcs]. unfold session. cbn [fold_left].
apply IH; [apply kept_perform; assumption | exact Hcs].
Qed.

Lemma kept_initialApp : kept initialApp.
Proof.
split; cbn; [constructor; [exact P_initial | constructor] | constructor].
Qed.

End Kept.

(** ** Node ids under every command *)

Lemma entryOK_same_nodes st st' :
  nodes st' = nodes st -> nodeIdCounter st' = nodeIdCounter st ->
  entryOK st -> entryOK st'.
Proof.
intros Hn Hc [Hnd Hbelow]. unfold entryOK, idsBelowCounter. rewrite Hn, Hc.
split; assumption.
Qed.

Lemma updatedNodes_ids nodeId newData l :
  map id (updatedNodes nodeId newData l) = map id l.
Proof.
unfold updatedNodes. rewrite map_map. apply map_ext.
intros node. destruct (String.eqb (id node) nodeId); reflexivity.
Qed.

Lemma NoDup_map_filter {X Y} (g : X -> Y) (f : X -> bool) l :
  NoDup (map g l) -> NoDup (map g (filter f l)).
Proof.
induction l as [|x l IH]; intros H; [constructor|].
cbn [map] in H. inversion H as [|? ? Hnot Hnd]; subst.
cbn [filter]. destruct (f x); [|apply IH; exact Hnd].
cbn [map]. constructor; [|apply IH; exact Hnd].
intros Hin. apply Hnot. apply in_map_iff in Hin. destruct Hin as [y [Hy Hin]].
apply filter_In in Hin. apply in_map_iff. exists y. tauto.
Qed.

Lemma entryOK_patch st nodeId newData :
  entryOK st ->
  entryOK {| nodes := updatedNodes nodeId newData (nodes st);
             edges := edges st;
             nodeIdCounter := nodeIdCounter st |}.
Proof.
intros [Hnd Hbelow]. split; cbn [nodes nodeIdCounter].
- rewrite updatedNodes_ids. exact Hnd.
- unfold idsBelowCounter. cbn [nodes nodeIdCounter]. intros node Hin.
  unfold updatedNodes in Hin. apply in_map_iff in Hin.
  destruct Hin as [node0 [Hnode Hin]].
  destruct (Hbelow node0 Hin) as [k [Hk Hid]]. exists k. split; [exact Hk|].
  rewrite <- Hid. subst node. destruct (String.eqb (id node0) nodeId); reflexivity.
Qed.

Lemma entryOK_removal st ids : entryOK st -> entryOK (spread (removal ids st) st).
Proof.
intros [Hnd Hbelow]. split; cbn.
- apply NoDup_map_filter. exact Hnd.
- intros node Hin. cbn in Hin. apply filter_In in Hin. apply Hbelow. tauto.
Qed.

Lemma always_allowed cs : forall a,
  noRelease cs -> allAllowed (fun _ _ => True) cs a.
Proof.
induction cs as [|c cs IH]; intros a H; [exact I|].
inversion H as [|? ? Hc Hcs]; subst.
split; [destruct c; cbn; auto | apply IH; exact Hcs].
Qed.

(** X9. In every session of the editor's commands (adding, connecting,
    editing node data, deleting, selecting, keys, undo, redo, clearing the
    history, timers, the sync effect, and batches from the library that
    hold no release of a drag), in every entry of the history the node ids
    are pairwise distinct and each is below the entry's counter. *)
Theorem node_ids_stay_unique cs :
  noRelease cs ->
  forall st,
    In st (History.history GraphState (editor (session cs initialApp))) ->
    NoDup (map id (nodes st)) /\ idsBelowCounter st.
Proof.
intros Hcs.
assert (Hk : kept entryOK (session cs initialApp)).
{ apply (kept_session entryOK (fun _ _ => True)).
  - exact initialState_entryOK.
  - intros st ty p H. apply addNode_entryOK. exact H.
  - intros st params now H _. apply (entryOK_same_nodes st); [reflexivity.. | exact H].
  - intros st nodeId newData H. apply entryOK_patch. exact H.
  - intros st f H. apply (entryOK_same_nodes st); [reflexivity.. | exact H].
  - intros st ids H. apply entryOK_removal. exact H.
  - apply kept_initialApp. exact initialState_entryOK.
  - apply always_allowed. exact Hcs. }
destruct Hk as [Hall _]. intros st Hin.
rewrite Forall_forall in Hall. exact (Hall st Hin).
Qed.

(** ** Edges and the nodes they join *)

Lemma noDangling_initialState : noDangling initialState.
Proof.
intros edge Hin. cbn in Hin.
destruct Hin as [<-|[<-|[]]]; cbn; tauto.
Qed.

Lemma noDangling_removal st ids : noDangling st -> noDangling (spread (removal ids st) st).
Proof.
intros H edge Hin. cbn in Hin. apply filter_In in Hin. destruct Hin as [Hin Hkeep].
apply andb_true_iff in Hkeep. destruct Hkeep as [Hs Ht].
destruct (H edge Hin) as [Hsrc Htgt]. cbn.
assert (Hend : forall i, negb (includes ids i) = true ->
                 In i (map id (nodes st)) ->
                 In i (map id (filter (fun node => negb (includes ids (id node))) (nodes st)))).
{ intros i Hi Hin'. apply in_map_iff in Hin'. destruct Hin' as [node [Hid Hnode]].
  apply in_map_iff. exists node. split; [exact Hid|].
  apply filter_In. split; [exact Hnode|]. rewrite Hid. exact Hi. }
split; apply Hend; assumption.
Qed.

Lemma wellConnected_allowed cs : forall a,
  noRelease cs ->
  wellConnected cs a ->
  allAllowed (fun params st =>
                In (c_source params) (map id (nodes st)) /\
                In (c_target params) (map id (nodes st))) cs a.
Proof.
induction cs as [|c cs IH]; intros a Hr H; [exact I|].
inversion Hr as [|? ? Hc0 Hrs]; subst.
destruct H as [Hc H]. split; [|apply IH; assumption].
destruct c; cbn; auto.
intros st Hst. destruct Hc as [st' [Hst' Hends]].
rewrite Hst in Hst'. inversion Hst'; subst. exact Hends.
Qed.

(** X10. Deleting nodes takes their edges along, and nothing else breaks
    an edge: in every session of the editor's commands whose connections
    are made between existing nodes (and whose batches from the library
    hold no release of a drag), every edge of every history entry joins two
    nodes of that entry. *)
Theorem edges_never_dangle cs :
  noRelease cs ->
  wellConnected cs initialApp ->
  forall st,
    In st (History.history GraphState (editor (session cs initialApp))) ->
    noDangling st.
Proof.
intros Hr Hcs.
assert (Hk : kept noDangling (session cs initialApp)).
{ apply (kept_session noDangling
           (fun params st => In (c_source params) (map id (nodes st)) /\
                             In (c_target params) (map id (nodes st)))).
  - exact noDangling_initialState.
  - intros st ty p H edge Hin. cbn in *. destruct (H edge Hin) as [Hs Ht].
    rewrite map_app. split; apply in_or_app; left; assumption.
  - intros st params now H [Hs Ht] edge Hin. cbn in *.
    apply in_app_or in Hin. destruct Hin as [Hin|[<-|[]]]; [exact (H edge Hin)|].
    cbn. split; assumption.
  - intros st nodeId newData H edge Hin. cbn in *.
    rewrite updatedNodes_ids. exact (H edge Hin).
  - intros st f H edge Hin. cbn in *. apply filter_In in Hin. apply H. tauto.
  - intros st ids H. apply noDangling_removal. exact H.
  - apply kept_initialApp. exact noDangling_initialState.
  - apply wellConnected_allowed; assumption. }
destruct Hk as [Hall _]. intros st Hin.
rewrite Forall_forall in Hall. exact (Hall st Hin).
Qed.

End Commands.

(** A [select] change, as the library reports a click on a node. *)
Definition selectNode (nodeId : string) : NodeChange :=
  {| change_type := "select"; change_id := nodeId;
     change_position := None; change_dragging := None;
     change_selected := Some true |}.

Definition deleteKey : KeyboardEvent :=
  {| key := "Delete"; shiftKey := false; ctrlKey := false; metaKey := false;
     event_target := canvas |}.

(** Node 4 is added, joined to node 1, edited, shown, selected and
    deleted. *)
Definition addJoinRemove : list command :=
  [ CAddNode "llmNode" None origin;
    CConnect {| c_source := "1"; c_sourceHandle := Some "output";
                c_target := "4"; c_targetHandle := Some "prompt" |} 1700000000000;
    CUpdateNodeData "4" [("model", DString "gpt-4")];
    CSyncEffect;
    CNodesChange [selectNode "4"];
    CKeyDown deleteKey ].

Lemma addJoinRemove_noRelease : noRelease addJoinRemove.
Proof.
repeat constructor.
Qed.

Lemma addJoinRemove_wellConnected :
  wellConnected applyNodeChanges addJoinRemove initialApp.
Proof.
cbn [wellConnected addJoinRemove]. repeat split.
exists (nth 1 (History.history GraphState
                 (editor (perform applyNodeChanges initialApp
                            (CAddNode "llmNode" None origin))))
          initialState).
vm_compute. repeat split; tauto.
Qed.

Lemma node_ids_stay_unique_witness :
  noRelease addJoinRemove /\
  option_map (fun st => map id (nodes st))
    (editorState (session applyNodeChanges addJoinRemove initialApp)) =
    Some ["1"; "2"; "3"] /\
  NoDup ["1"; "2"; "3"].
Proof.
split; [exact addJoinRemove_noRelease|]. split; [reflexivity|].
apply (node_ids_stay_unique applyNodeChanges addJoinRemove addJoinRemove_noRelease
         (nth 4 (History.history GraphState
                   (editor (session applyNodeChanges addJoinRemove initialApp)))
              initialState)).
vm_compute. tauto.
Defined.

Lemma edges_never_dangle_witness :
  noRelease addJoinRemove /\
  wellConnected applyNodeChanges addJoinRemove initialApp /\
  History.historySize GraphState
    (editor (session applyNodeChanges addJoinRemove initialApp)) = 5 /\
  noDangling
    (nth 4 (History.history GraphState
              (editor (session applyNodeChanges addJoinRemove initialApp)))
         initialState).
Proof.
split; [exact addJoinRemove_noRelease|].
split; [exact addJoinRemove_wellConnected|].
split; [reflexivity|].
apply (edges_never_dangle applyNodeChanges addJoinRemove
         addJoinRemove_noRelease addJoinRemove_wellConnected).
vm_compute. tauto.
Defined.

(** ** Editing the data of a node *)

Lemma lookup_setKey k v obj k' :
  lookup k' (setKey k v obj) = if String.eqb k k' then Some v else lookup k' obj.
Proof.
induction obj as [|[k0 v0] obj IH]; cbn [setKey lookup].
- reflexivity.
- destruct (String.eqb_spec k0 k) as [->|Hne]; cbn [lookup].
  + destruct (String.eqb k k'); reflexivity.
  + rewrite IH. destruct (String.eqb_spec k0 k') as [->|Hne']; [|reflexivity].
    destruct (String.eqb_spec k k'); [congruence | reflexivity].
Qed.

Lemma lookup_snoc k obj k1 v1 :
  lookup k (obj ++ [(k1, v1)]) =
  match lookup k obj with
  | Some v => Some v
  | None => if String.eqb k1 k then Some v1 else None
  end.
Proof.
induction obj as [|[k0 v0] obj IH]; cbn [List.app lookup]; [reflexivity|].
destruct (String.eqb k0 k); [reflexivity | exact IH].
Qed.

(** In the merged object a key has the value [newData] gives it (the last
    one, should [newData] be listed with a key twice), and otherwise the
    value it had. *)
Lemma lookup_spreadData newData : forall data k,
  lookup k (spreadData data newData) =
  match lookup k (rev newData) with
  | Some v => Some v
  | None => lookup k data
  end.
Proof.
unfold spreadData.
induction newData as [|[k1 v1] newData IH]; intros data k; [reflexivity|].
cbn [fold_left fst snd rev]. rewrite IH, lookup_snoc, lookup_setKey.
destruct (lookup k (rev newData)); [reflexivity|].
destruct (String.eqb k1 k); reflexivity.
Qed.

Lemma updatedNodes_absent nodeId newData l :
  ~ In nodeId (map id l) -> updatedNodes nodeId newData l = l.
Proof.
intros H. unfold updatedNodes. rewrite <- (map_id l) at 2.
apply map_ext_in. intros node Hin.
destruct (String.eqb_spec (id node) nodeId) as [E|E]; [|reflexivity].
exfalso. apply H. apply in_map_iff. exists node. tauto.
Qed.

Lemma spread_same st :
  spread {| u_nodes := Some (nodes st); u_edges := None; u_nodeIdCounter := None |} st = st.
Proof.
destruct st. reflexivity.
Qed.

Lemma withEditor_same a : withEditor (editor a) a = a.
Proof.
destruct a. reflexivity.
Qed.

(** X11. [updateNodeData] with an id no node has changes nothing at all;
    otherwise the state it hands to the history has the same nodes in the
    same order with their ids, types and positions, the same edges and
    counter, and only in the nodes of that id is [data] replaced by the
    merge, in which the keys of [newData] win and the other keys stay. *)
Theorem updateNodeData_patches_one_node a st nodeId newData :
  editorState a = Some st ->
  let st' := withNodes (updatedNodes nodeId newData (nodes st)) st in
  (~ In nodeId (map id (nodes st)) -> updateNodeData nodeId newData a = a) /\
  map id (nodes st') = map id (nodes st) /\
  map type (nodes st') = map type (nodes st) /\
  map position (nodes st') = map position (nodes st) /\
  edges st' = edges st /\
  nodeIdCounter st' = nodeIdCounter st /\
  (forall i node, nth_error (nodes st) i = Some node ->
     nth_error (nodes st') i =
       Some (if String.eqb (id node) nodeId then patch newData node else node)) /\
  (forall node k,
     lookup k (data (patch newData node)) =
       match lookup k (rev newData) with
       | Some v => Some v
       | None => lookup k (data node)
       end) /\
  (History.isApplyingHistory GraphState (editor a) = false ->
   stringify st <> stringify st' ->
   editorState (updateNodeData nodeId newData a) = Some st').
Proof.
intros Hst st'. split; [|split; [|split; [|split; [|split; [|split; [|split; [|split]]]]]]].
- intros Habsent. unfold updateNodeData. rewrite Hst.
  rewrite (updatedNodes_absent _ _ _ Habsent).
  unfold updateEditorState, setState.
  rewrite (History.setState_same GraphState stringify maxHistorySize _ (editor a) st Hst).
  + apply withEditor_same.
  + cbn [History.actualNewState]. rewrite spread_same. reflexivity.
- apply updatedNodes_ids.
- subst st'. cbn [withNodes nodes]. unfold updatedNodes. rewrite map_map.
  apply map_ext. intros node. destruct (String.eqb (id node) nodeId); reflexivity.
- subst st'. cbn [withNodes nodes]. unfold updatedNodes. rewrite map_map.
  apply map_ext. intros node. destruct (String.eqb (id node) nodeId); reflexivity.
- reflexivity.
- reflexivity.
- intros i node Hi. subst st'. cbn [withNodes nodes]. unfold updatedNodes.
  rewrite nth_error_map, Hi. reflexivity.
- intros node k. cbn [patch data]. apply lookup_spreadData.
- intros Hflag Hneq. unfold updateNodeData. rewrite Hst.
  unfold updateEditorState, editorState. cbn [withEditor editor].
  apply (History.setState_push_state GraphState stringify maxHistorySize
           (History.Updater GraphState
              (spread {| u_nodes := Some (updatedNodes nodeId newData (nodes st));
                         u_edges := None; u_nodeIdCounter := None |}))
           (editor a) st Hflag Hst Hneq).
Qed.

Lemma updateNodeData_patches_one_node_witness :
  editorState initialApp = Some initialState /\
  option_map (fun st => map data (nodes st))
    (editorState (updateNodeData "2" [("text", DString "Dear {{name}}")] initialApp)) =
  Some [ [("label", DString "Input Node")];
         [("text", DString "Dear {{name}}")];
         [("label", DString "Output Node")] ].
Proof.
assert (H : editorState initialApp = Some initialState) by reflexivity.
split; [exact H|].
pose proof (updateNodeData_patches_one_node initialApp initialState "2"
              [("text", DString "Dear {{name}}")] H) as (_ & _ & _ & _ & _ & _ & _ & _ & Hcur).
assert (Hflag : History.isApplyingHistory GraphState (editor initialApp) = false)
  by reflexivity.
rewrite (Hcur Hflag); [reflexivity|].
vm_compute. discriminate.
Defined.

(** ** Deleting edges *)

(** X12. [deleteSelectedEdges] with no edge selected changes nothing;
    otherwise it empties the selection and hands to the history the state
    without exactly the edges whose id is selected (all of them, should an
    id occur twice), the nodes and the counter as they were. *)
Theorem deleteSelectedEdges_removes_exactly a st :
  editorState a = Some st ->
  let st' := {| nodes := nodes st;
                edges := filter (fun edge => negb (includes (selectedEdges a) (edge_id edge)))
                                (edges st);
                nodeIdCounter := nodeIdCounter st |} in
  (selectedEdges a = [] -> deleteSelectedEdges a = a) /\
  (selectedEdges a <> [] ->
   selectedEdges (deleteSelectedEdges a) = [] /\
   reactFlowNodes (deleteSelectedEdges a) = reactFlowNodes a /\
   (forall edge, In edge (edges st') <->
      In edge (edges st) /\ ~ In (edge_id edge) (selectedEdges a)) /\
   (History.isApplyingHistory GraphState (editor a) = false ->
    stringify st <> stringify st' ->
    editorState (deleteSelectedEdges a) = Some st')).
Proof.
intros Hst st'. unfold deleteSelectedEdges. rewrite Hst. split.
- intros E. rewrite E. reflexivity.
- intros Hsel. destruct (selectedEdges a) as [|e sel] eqn:E; [contradiction|].
  cbn [length Nat.ltb Nat.leb]. split; [reflexivity|]. split; [reflexivity|]. split.
  + intros edge. subst st'. cbn [edges].
    rewrite filter_In, not_includes_In. reflexivity.
  + intros Hflag Hneq. unfold editorState, updateEditorState.
    cbn [withSelectedEdges withEditor editor].
    apply (History.setState_push_state GraphState stringify maxHistorySize
             (History.Updater GraphState
                (spread {| u_nodes := None;
                           u_edges := Some (filter (fun edge =>
                                              negb (includes (e :: sel) (edge_id edge)))
                                              (edges st));
                           u_nodeIdCounter := None |}))
             (editor a) st Hflag Hst Hneq).
Qed.

Lemma deleteSelectedEdges_removes_exactly_witness :
  editorState (onSelectionChange (Some [plainEdge "e1-2" "1" "2"]) initialApp) =
    Some initialState /\
  option_map (fun st => map edge_id (edges st))
    (editorState
       (deleteSelectedEdges
          (onSelectionChange (Some [plainEdge "e1-2" "1" "2"]) initialApp))) =
  Some ["e2-3"].
Proof.
assert (H : editorState (onSelectionChange (Some [plainEdge "e1-2" "1" "2"]) initialApp) =
            Some initialState) by reflexivity.
split; [exact H|].
pose proof (deleteSelectedEdges_removes_exactly _ initialState H) as [_ Hdel].
assert (Hsel : selectedEdges (onSelectionChange (Some [plainEdge "e1-2" "1" "2"]) initialApp)
               <> []) by discriminate.
destruct (Hdel Hsel) as (_ & _ & _ & Hcur).
rewrite Hcur; [reflexivity | reflexivity | vm_compute; discriminate].
Defined.

(** ** The keyboard *)

(** [onKeyDown] by the kind of key. *)
Lemma onKeyDown_by_kind event a :
  onKeyDown event a =
  if isUndoKey event then snd (undo a)
  else if isRedoKey event then snd (redo a)
  else if isTyping event then a
  else if String.eqb (key event) "?" && negb (shiftKey event) then
    withHelp (negb (showKeyboardHelp a)) a
  else if isDeleteKey event then
    if 0 <? length (selectedEdges a) then deleteSelectedEdges a
    else if 0 <? length (filter isSelected (reactFlowNodes a)) then deleteSelectedNodes a
    else a
  else if String.eqb (key event) "Escape" then
    if showKeyboardHelp a then withHelp false a else clearSelection a
  else a.
Proof.
reflexivity.
Qed.

Lemma escape_is_plain event :
  key event = "Escape" ->
  isUndoKey event = false /\ isRedoKey event = false /\ isDeleteKey event = false /\
  String.eqb (key event) "?" = false.
Proof.
intros H. unfold isUndoKey, isRedoKey, isDeleteKey, isCtrlOrCmd. rewrite H.
destruct (ctrlKey event), (metaKey event), (shiftKey event); repeat split; reflexivity.
Qed.

Lemma delete_is_plain event :
  isDeleteKey event = true ->
  isUndoKey event = false /\ isRedoKey event = false /\
  String.eqb (key event) "?" = false.
Proof.
unfold isDeleteKey, isUndoKey, isRedoKey, isCtrlOrCmd. intros H.
apply orb_true_iff in H. destruct H as [H|H]; apply String.eqb_eq in H; rewrite H;
  destruct (ctrlKey event), (metaKey event), (shiftKey event); repeat split; reflexivity.
Qed.

(** What [undo] and [redo] leave alone. *)
Definition sameButIndex (a b : app) : Prop :=
  History.history GraphState (editor b) = History.history GraphState (editor a) /\
  reactFlowNodes b = reactFlowNodes a /\
  reactFlowEdges b = reactFlowEdges a /\
  selectedEdges b = selectedEdges a /\
  showKeyboardHelp b = showKeyboardHelp a.

Lemma sameButIndex_refl a : sameButIndex a a.
Proof.
repeat split; reflexivity.
Qed.

Lemma undo_sameButIndex a : sameButIndex a (snd (undo a)).
Proof.
unfold undo, History.undo, History.undoFrom.
destruct (0 <? History.currentIndex GraphState (editor a)); repeat split; reflexivity.
Qed.

Lemma redo_sameButIndex a : sameButIndex a (snd (redo a)).
Proof.
unfold redo, History.redo, History.redoFrom.
destruct (History.currentIndex GraphState (editor a) <?
          length (History.history GraphState (editor a)) - 1); repeat split; reflexivity.
Qed.

Lemma accelerator_is_not_escape event :
  isUndoKey event = true \/ isRedoKey event = true ->
  String.eqb (key event) "Escape" = false.
Proof.
intros H. destruct (String.eqb_spec (key event) "Escape") as [E|E]; [exfalso|reflexivity].
unfold isUndoKey, isRedoKey in H. rewrite E in H.
destruct (isCtrlOrCmd event), (shiftKey event); cbn in H; destruct H; discriminate.
Qed.

(** X13. A key pressed while the focus is in an input, a textarea or an
    editable element, as the two listeners on the document handle it: the
    undo and redo accelerators do what [undo] and [redo] do; Escape closes
    the help overlay when it is open; every other key, Delete and Backspace
    among them, changes nothing at all.  So no key typed in a field adds,
    drops or alters an entry of the history, and the state the editor shows
    changes only through undo and redo. *)
Theorem typing_allows_only_undo_and_redo event a :
  isTyping event = true ->
  (isUndoKey event = true -> documentKeyDown event a = snd (undo a)) /\
  (isUndoKey event = false -> isRedoKey event = true ->
   documentKeyDown event a = snd (redo a)) /\
  (isUndoKey event = false -> isRedoKey event = false ->
   documentKeyDown event a =
     if String.eqb (key event) "Escape" && showKeyboardHelp a then withHelp false a else a) /\
  History.history GraphState (editor (documentKeyDown event a)) =
    History.history GraphState (editor a) /\
  (editorState (documentKeyDown event a) <> editorState a ->
   isUndoKey event = true \/ isRedoKey event = true).
Proof.
intros Htyping. unfold documentKeyDown, helpKeyDown.
rewrite onKeyDown_by_kind, Htyping.
destruct (isUndoKey event) eqn:Eu; [|destruct (isRedoKey event) eqn:Er].
- rewrite (accelerator_is_not_escape event (or_introl Eu)). cbn [andb].
  split; [reflexivity|]. split; [discriminate|]. split; [discriminate|].
  split; [apply undo_sameButIndex | intros _; left; reflexivity].
- rewrite (accelerator_is_not_escape event (or_intror Er)). cbn [andb].
  split; [discriminate|]. split; [reflexivity|]. split; [discriminate|].
  split; [apply redo_sameButIndex | intros _; right; reflexivity].
- split; [discriminate|]. split; [discriminate|]. split; [reflexivity|].
  destruct (String.eqb (key event) "Escape" && showKeyboardHelp a).
  + split; [reflexivity|]. intros H. exfalso. apply H. reflexivity.
  + split; [reflexivity|]. intros H. exfalso. apply H. reflexivity.
Qed.

Definition textarea : EventTarget := {| tagName := "TEXTAREA"; contentEditable := "inherit" |}.

(** Backspace pressed in a textarea. *)
Definition backspaceInTextarea : KeyboardEvent :=
  {| key := "Backspace"; shiftKey := false; ctrlKey := false; metaKey := false;
     event_target := textarea |}.

Lemma typing_allows_only_undo_and_redo_witness :
  isTyping backspaceInTextarea = true /\
  selectedNodeIds exampleApp = ["A"; "B"] /\
  documentKeyDown backspaceInTextarea exampleApp = exampleApp.
Proof.
assert (H : isTyping backspaceInTextarea = true) by reflexivity.
split; [exact H|]. split; [reflexivity|].
exact (proj1 (proj2 (proj2
         (typing_allows_only_undo_and_redo backspaceInTextarea exampleApp H)))
         eq_refl eq_refl).
Defined.

(** X14. Escape, through the two listeners on the document: with the
    overlay open it closes the overlay and nothing else, also while typing
    (the overlay's listener does not look at the target); with the overlay
    closed it clears the selection, unless the user is typing. *)
Theorem escape_closes_help_before_selection event a :
  key event = "Escape" ->
  documentKeyDown event a =
    if showKeyboardHelp a then withHelp false a
    else if isTyping event then a else clearSelection a.
Proof.
intros Hkey. destruct (escape_is_plain event Hkey) as (Hu & Hr & Hd & Hq).
unfold documentKeyDown, helpKeyDown.
rewrite onKeyDown_by_kind, Hu, Hr, Hd, Hq, Hkey.
cbn [andb String.eqb Ascii.eqb Bool.eqb].
destruct (showKeyboardHelp a), (isTyping event); reflexivity.
Qed.

Definition escapeKey (target : EventTarget) : KeyboardEvent :=
  {| key := "Escape"; shiftKey := false; ctrlKey := false; metaKey := false;
     event_target := target |}.

Lemma escape_closes_help_before_selection_witness :
  key (escapeKey textarea) = "Escape" /\
  documentKeyDown (escapeKey textarea) (withHelp true exampleApp) = exampleApp.
Proof.
assert (H : key (escapeKey textarea) = "Escape") by reflexivity.
split; [exact H|].
exact (escape_closes_help_before_selection (escapeKey textarea) (withHelp true exampleApp) H).
Defined.

Lemma editorState_updateEditorState updates a st :
  editorState a = Some st ->
  editorState (updateEditorState updates a) = Some st \/
  editorState (updateEditorState updates a) = Some (spread updates st).
Proof.
intros Hst. unfold updateEditorState, editorState, setState. cbn [withEditor editor].
match goal with
| |- context [History.setState _ _ _ ?ns ?h] =>
    destruct (History.setState_cases GraphState stringify maxHistorySize ns h)
      as [E | (cur & Hcur & Hflag & Hneq & _)]
end.
- left. rewrite E. exact Hst.
- right. unfold editorState in Hst. rewrite Hst in Hcur. inversion Hcur; subst cur.
  exact (History.setState_push_state GraphState stringify maxHistorySize _ _ st Hflag Hst Hneq).
Qed.

(** X15. Delete or Backspace outside a text field: when an edge is
    selected the key deletes edges only.  No node leaves the editor's state,
    even if nodes are selected on the canvas too; the counter stays and no
    edge is added.  When the effect of lines 128-134 then copies the state
    to the canvas, the canvas has the nodes of the state, so a selection of
    nodes that only the canvas held is gone with the edges.  When no edge
    is selected the key is [deleteSelectedNodes]. *)
Theorem delete_key_takes_edges_first event a st :
  isDeleteKey event = true ->
  isTyping event = false ->
  editorState a = Some st ->
  (selectedEdges a <> [] ->
   onKeyDown event a = deleteSelectedEdges a /\
   exists st',
     editorState (onKeyDown event a) = Some st' /\
     nodes st' = nodes st /\
     nodeIdCounter st' = nodeIdCounter st /\
     (forall edge, In edge (edges st') -> In edge (edges st)) /\
     (isSyncingState a = false ->
      reactFlowNodes (syncEffect (onKeyDown event a)) = nodes st /\
      reactFlowEdges (syncEffect (onKeyDown event a)) = edges st')) /\
  (selectedEdges a = [] -> onKeyDown event a = deleteSelectedNodes a).
Proof.
intros Hdel Htyping Hst. destruct (delete_is_plain event Hdel) as (Hu & Hr & Hq).
rewrite onKeyDown_by_kind, Hu, Hr, Htyping, Hq, Hdel. cbn [andb]. split.
- intros Hsel. destruct (selectedEdges a) as [|e sel] eqn:E; [contradiction|].
  cbn [length Nat.ltb Nat.leb]. split; [reflexivity|].
  unfold deleteSelectedEdges. rewrite Hst, E. cbn [length Nat.ltb Nat.leb].
  match goal with
  | |- context [updateEditorState ?u a] =>
      set (updates := u);
      destruct (editorState_updateEditorState updates a st Hst) as [H|H]
  end.
  + exists st. split; [exact H|]. split; [reflexivity|]. split; [reflexivity|].
    split; [tauto|]. intros Hsync.
    assert (H' : editorState (withSelectedEdges [] (updateEditorState updates a)) = Some st)
      by exact H.
    unfold syncEffect.
    change (isSyncingState (withSelectedEdges [] (updateEditorState updates a)))
      with (isSyncingState a).
    rewrite Hsync, H'. split; reflexivity.
  + exists (spread updates st). split; [exact H|].
    split; [reflexivity|]. split; [reflexivity|]. split.
    * intros edge Hin. subst updates. cbn [spread edges orElse u_edges] in Hin.
      apply filter_In in Hin. tauto.
    * intros Hsync.
      assert (H' : editorState (withSelectedEdges [] (updateEditorState updates a)) =
                   Some (spread updates st)) by exact H.
      unfold syncEffect.
      change (isSyncingState (withSelectedEdges [] (updateEditorState updates a)))
        with (isSyncingState a).
      rewrite Hsync, H'. split; reflexivity.
- intros E. rewrite E. change (0 <? length (@nil string)) with false. cbv iota.
  unfold deleteSelectedNodes. rewrite Hst.
  destruct (0 <? length (filter isSelected (reactFlowNodes a))); reflexivity.
Qed.

Lemma delete_key_takes_edges_first_witness :
  isDeleteKey deleteKey = true /\
  isTyping deleteKey = false /\
  editorState (withSelectedEdges ["eA-C"] exampleApp) = Some exampleGraph /\
  selectedNodeIds (withSelectedEdges ["eA-C"] exampleApp) = ["A"; "B"] /\
  option_map (fun st => (map id (nodes st), map edge_id (edges st)))
    (editorState (onKeyDown deleteKey (withSelectedEdges ["eA-C"] exampleApp))) =
    Some (["A"; "B"; "C"; "D"], ["eB-D"; "eC-D"]) /\
  selectedNodeIds
    (syncEffect (onKeyDown deleteKey (withSelectedEdges ["eA-C"] exampleApp))) = [].
Proof.
assert (H1 : isDeleteKey deleteKey = true) by reflexivity.
assert (H2 : isTyping deleteKey = false) by reflexivity.
assert (H3 : editorState (withSelectedEdges ["eA-C"] exampleApp) = Some exampleGraph)
  by reflexivity.
split; [exact H1|]. split; [exact H2|]. split; [exact H3|]. split; [reflexivity|].
pose proof (delete_key_takes_edges_first deleteKey (withSelectedEdges ["eA-C"] exampleApp)
              exampleGraph H1 H2 H3) as [Hedges _].
assert (Hsel : selectedEdges (withSelectedEdges ["eA-C"] exampleApp) <> []) by discriminate.
rewrite (proj1 (Hedges Hsel)). split; reflexivity.
Defined.

Lemma clearSelection_none_selected l :
  filter isSelected
    (map (fun node =>
            {| id := id node; type := type node; position := position node;
               data := data node; selected := Some false; dragging := dragging node |}) l) = [].
Proof.
induction l as [|node l IH]; [reflexivity | exact IH].
Qed.

(** X16. After an Escape that cleared the selection, Delete and Backspace
    find nothing to delete: the key leaves the editor as the Escape left
    it. *)
Theorem escape_disarms_delete esc del a :
  key esc = "Escape" ->
  isTyping esc = false ->
  showKeyboardHelp a = false ->
  isDeleteKey del = true ->
  onKeyDown esc a = clearSelection a /\
  selectedNodeIds (onKeyDown esc a) = [] /\
  selectedEdges (onKeyDown esc a) = [] /\
  editor (onKeyDown esc a) = editor a /\
  onKeyDown del (onKeyDown esc a) = onKeyDown esc a.
Proof.
intros Hkey Htyping Hhelp Hdel.
destruct (escape_is_plain esc Hkey) as (Hu & Hr & Hd & Hq).
destruct (delete_is_plain del Hdel) as (Hu' & Hr' & Hq').
assert (E : onKeyDown esc a = clearSelection a).
{ rewrite onKeyDown_by_kind, Hu, Hr, Htyping, Hq, Hd, Hkey, Hhelp. reflexivity. }
rewrite E. split; [reflexivity|].
assert (Hnone : filter isSelected (reactFlowNodes (clearSelection a)) = []).
{ unfold clearSelection. cbn [withMirror reactFlowNodes].
  apply clearSelection_none_selected. }
split; [unfold selectedNodeIds; rewrite Hnone; reflexivity|].
split; [reflexivity|]. split; [reflexivity|].
rewrite onKeyDown_by_kind, Hu', Hr', Hq', Hdel, Hnone. cbn [andb].
destruct (isTyping del); reflexivity.
Qed.

Lemma escape_disarms_delete_witness :
  key (escapeKey canvas) = "Escape" /\
  isTyping (escapeKey canvas) = false /\
  showKeyboardHelp exampleApp = false /\
  isDeleteKey deleteKey = true /\
  selectedNodeIds exampleApp = ["A"; "B"] /\
  onKeyDown deleteKey (onKeyDown (escapeKey canvas) exampleApp) =
    onKeyDown (escapeKey canvas) exampleApp.
Proof.
assert (H1 : key (escapeKey canvas) = "Escape") by reflexivity.
assert (H2 : isTyping (escapeKey canvas) = false) by reflexivity.
assert (H3 : showKeyboardHelp exampleApp = false) by reflexivity.
assert (H4 : isDeleteKey deleteKey = true) by reflexivity.
split; [exact H1|]. split; [exact H2|]. split; [exact H3|]. split; [exact H4|].
split; [reflexivity|].
exact (proj2 (proj2 (proj2 (proj2
         (escape_disarms_delete (escapeKey canvas) deleteKey exampleApp H1 H2 H3 H4))))).
Defined.

(** ** Changes that are always recorded, and changes that are lost *)

Lemma append_assoc (s1 s2 s3 : string) : ((s1 ++ s2) ++ s3 = s1 ++ (s2 ++ s3))%string.
Proof.
induction s1 as [|c s1 IH]; cbn [String.append]; [reflexivity | rewrite IH; reflexivity].
Qed.

Lemma append_cancel (s x y : string) : (s ++ x = s ++ y)%string -> x = y.
Proof.
induction s as [|c s IH]; cbn [String.append]; intros H; [exact H|].
apply IH. congruence.
Qed.

(** The first character of a string. *)
Definition firstChar (s : string) : option ascii :=
  match s with
  | EmptyString => None
  | String c _ => Some c
  end.

(** What [join] puts between the items it has and one more. *)
Definition continued (items : list string) (item : string) : string :=
  match items with
  | [] => item
  | _ :: _ => ("," ++ item)%string
  end.

Lemma join_snoc items item :
  JSON.join (items ++ [item]) = (JSON.join items ++ continued items item)%string.
Proof.
induction items as [|s items IH]; [reflexivity|].
destruct items as [|s' items].
- reflexivity.
- change (JSON.join ((s :: s' :: items) ++ [item]))
    with (s ++ "," ++ JSON.join ((s' :: items) ++ [item]))%string.
  rewrite IH.
  change (JSON.join (s :: s' :: items)) with (s ++ "," ++ JSON.join (s' :: items))%string.
  cbn [continued]. rewrite !append_assoc. reflexivity.
Qed.

Definition beforeNodes : string := ("{" ++ JSON.quote "nodes" ++ ":" ++ "[")%string.
Definition beforeEdges : string := ("]" ++ "," ++ JSON.quote "edges" ++ ":" ++ "[")%string.
Definition afterEdges (counter : N) : string :=
  ("]" ++ "," ++ JSON.quote "nodeIdCounter" ++ ":" ++ JSON.ofN counter ++ "}")%string.

(** The serialization of a state, cut at its two arrays. *)
Lemma stringify_parts st :
  stringify st =
  (beforeNodes ++ JSON.join (map stringifyNode (nodes st)) ++
   beforeEdges ++ JSON.join (map stringifyEdge (edges st)) ++
   afterEdges (nodeIdCounter st))%string.
Proof.
unfold stringify, JSON.object, JSON.array, beforeNodes, beforeEdges, afterEdges.
cbn [flat_map JSON.member fst snd List.app JSON.join].
rewrite !append_assoc. reflexivity.
Qed.

Lemma longer_array_differs (before items extra rest rest' : string) :
  firstChar rest = Some "]"%char ->
  firstChar (extra ++ rest') <> Some "]"%char ->
  (before ++ items ++ rest)%string <> (before ++ (items ++ extra) ++ rest')%string.
Proof.
intros Hrest Hextra E. rewrite append_assoc in E.
apply append_cancel, append_cancel in E. rewrite E in Hrest. contradiction.
Qed.

Lemma continued_first items item rest c :
  firstChar item = Some c -> c <> "]"%char ->
  firstChar (continued items item ++ rest) <> Some "]"%char.
Proof.
intros Hitem Hc. destruct items as [|s items]; cbn [continued].
- destruct item as [|c' item]; [discriminate|]. cbn in *. congruence.
- cbn. discriminate.
Qed.

(** A state with one more node is serialized differently. *)
Lemma more_nodes_differ st node counter :
  stringify st <>
  stringify {| nodes := nodes st ++ [node]; edges := edges st; nodeIdCounter := counter |}.
Proof.
rewrite !stringify_parts. cbn [nodes edges nodeIdCounter].
rewrite map_app. cbn [map]. rewrite join_snoc.
apply longer_array_differs; [reflexivity|].
apply (continued_first _ _ _ "{"%char); [reflexivity | discriminate].
Qed.

(** A state with one more edge is serialized differently. *)
Lemma more_edges_differ st edge :
  stringify st <>
  stringify {| nodes := nodes st; edges := edges st ++ [edge];
               nodeIdCounter := nodeIdCounter st |}.
Proof.
rewrite !stringify_parts. cbn [nodes edges nodeIdCounter].
rewrite map_app. cbn [map]. rewrite join_snoc.
rewrite <- !(append_assoc beforeNodes).
rewrite <- !(append_assoc (beforeNodes ++ JSON.join (map stringifyNode (nodes st)))).
apply longer_array_differs; [reflexivity|].
apply (continued_first _ _ _ "{"%char); [reflexivity | discriminate].
Qed.

(** A change that passes the comparison becomes the last entry. *)
Lemma recorded updates a st :
  editorState a = Some st ->
  History.isApplyingHistory GraphState (editor a) = false ->
  stringify st <> stringify (spread updates st) ->
  editorState (updateEditorState updates a) = Some (spread updates st) /\
  History.canUndo GraphState (editor (updateEditorState updates a)) = true /\
  History.canRedo GraphState (editor (updateEditorState updates a)) = false.
Proof.
intros Hst Hflag Hneq. unfold editorState in *.
unfold updateEditorState, setState. cbn [withEditor editor].
split.
- exact (History.setState_push_state GraphState stringify maxHistorySize
           (History.Updater GraphState (spread updates)) (editor a) st Hflag Hst Hneq).
- rewrite (History.setState_push GraphState stringify maxHistorySize
             (History.Updater GraphState (spread updates)) (editor a) st Hflag Hst Hneq).
  cbv zeta. unfold History.canUndo, History.canRedo. cbn [History.currentIndex History.history].
  assert (Hne : History.history GraphState (editor a) <> []).
  { intros E. unfold History.state in Hst. rewrite E in Hst.
    destruct (History.currentIndex GraphState (editor a)); discriminate. }
  pose proof (History.firstn_succ_nonempty GraphState
                (History.history GraphState (editor a))
                (History.currentIndex GraphState (editor a)) Hne) as Hfirst.
  set (kept := firstn (History.currentIndex GraphState (editor a) + 1)
                      (History.history GraphState (editor a))) in *.
  assert (Hlen : 2 <= length (kept ++ [History.actualNewState GraphState
                                         (History.Updater GraphState (spread updates)) st])).
  { rewrite length_app. cbn [length]. destruct kept; [congruence | cbn [length]; lia]. }
  set (grown := kept ++ [History.actualNewState GraphState
                           (History.Updater GraphState (spread updates)) st]) in *.
  assert (Hlim : 2 <= length (History.limitSize GraphState maxHistorySize grown)).
  { unfold History.limitSize.
    destruct (maxHistorySize <? length grown) eqn:Hcap; [|exact Hlen].
    apply Nat.ltb_lt in Hcap. unfold maxHistorySize in Hcap.
    destruct grown; cbn [length tl] in *; lia. }
  split; [apply Nat.ltb_lt; lia | apply Nat.ltb_irrefl].
Qed.

(** X17. Outside the window that follows an undo or redo, [addNode] is
    always recorded: the comparison of serializations never swallows it,
    whatever the type and the position.  The new state is the old one with
    the node at the end and the counter one higher; it can be undone and
    there is nothing to redo. *)
Theorem addNode_is_always_recorded type position random a st :
  editorState a = Some st ->
  History.isApplyingHistory GraphState (editor a) = false ->
  editorState (addNode type position random a) =
    Some {| nodes := nodes st ++ [newNode type (orElse position random) (nodeIdCounter st)];
            edges := edges st;
            nodeIdCounter := (nodeIdCounter st + 1)%N |} /\
  History.canUndo GraphState (editor (addNode type position random a)) = true /\
  History.canRedo GraphState (editor (addNode type position random a)) = false.
Proof.
intros Hst Hflag. unfold addNode. rewrite Hst. cbv zeta.
exact (recorded
         {| u_nodes := Some (nodes st ++
                             [newNode type (orElse position random) (nodeIdCounter st)]);
            u_edges := None;
            u_nodeIdCounter := Some (nodeIdCounter st + 1)%N |}
         a st Hst Hflag (more_nodes_differ st _ _)).
Qed.

Lemma addNode_is_always_recorded_witness :
  editorState initialApp = Some initialState /\
  History.isApplyingHistory GraphState (editor initialApp) = false /\
  option_map (fun st => (map id (nodes st), nodeIdCounter st))
    (editorState (addNode "delayNode" None origin initialApp)) =
  Some (["1"; "2"; "3"; "4"], 5%N).
Proof.
assert (H1 : editorState initialApp = Some initialState) by reflexivity.
assert (H2 : History.isApplyingHistory GraphState (editor initialApp) = false)
  by reflexivity.
split; [exact H1|]. split; [exact H2|].
rewrite (proj1 (addNode_is_always_recorded "delayNode" None origin initialApp
                  initialState H1 H2)).
reflexivity.
Defined.

(** X18. Outside that window [onConnect] is always recorded too, whatever
    it is given: a connection of a node with itself, one that is there
    already, one between ids no node has.  The new state is the old one
    with the edge at the end. *)
Theorem onConnect_is_always_recorded params now a st :
  editorState a = Some st ->
  History.isApplyingHistory GraphState (editor a) = false ->
  editorState (onConnect params now a) =
    Some {| nodes := nodes st;
            edges := edges st ++ [newEdge params now];
            nodeIdCounter := nodeIdCounter st |} /\
  History.canUndo GraphState (editor (onConnect params now a)) = true /\
  History.canRedo GraphState (editor (onConnect params now a)) = false.
Proof.
intros Hst Hflag. unfold onConnect. rewrite Hst.
exact (recorded
         {| u_nodes := None;
            u_edges := Some (edges st ++ [newEdge params now]);
            u_nodeIdCounter := None |}
         a st Hst Hflag (more_edges_differ st _)).
Qed.

(** Node 1 joined to itself. *)
Definition selfLoop : Connection :=
  {| c_source := "1"; c_sourceHandle := Some "output";
     c_target := "1"; c_targetHandle := Some "input" |}.

Lemma onConnect_is_always_recorded_witness :
  editorState initialApp = Some initialState /\
  History.isApplyingHistory GraphState (editor initialApp) = false /\
  option_map (fun st => map (fun edge => (source edge, target edge)) (edges st))
    (editorState (onConnect selfLoop 0 initialApp)) =
  Some [("1", "2"); ("2", "3"); ("1", "1")].
Proof.
assert (H1 : editorState initialApp = Some initialState) by reflexivity.
assert (H2 : History.isApplyingHistory GraphState (editor initialApp) = false)
  by reflexivity.
split; [exact H1|]. split; [exact H2|].
rewrite (proj1 (onConnect_is_always_recorded selfLoop 0 initialApp initialState H1 H2)).
reflexivity.
Defined.

Lemma updateEditorState_dropped updates a :
  History.isApplyingHistory GraphState (editor a) = true ->
  updateEditorState updates a = a.
Proof.
intros Hflag. unfold updateEditorState, setState, History.setState, History.setStateFrom.
rewrite Hflag. apply withEditor_same.
Qed.

(** X19. In the window between an undo or redo that moved and the timer
    that clears the flag, every change to the graph is lost without a
    trace: [addNode], [onConnect], [updateNodeData] and [deleteSelectedNodes]
    leave the editor exactly as it is, and [deleteSelectedEdges] keeps the
    history and forgets the selection. *)
Theorem changes_are_lost_until_the_timer a :
  History.isApplyingHistory GraphState (editor a) = true ->
  (forall type position random, addNode type position random a = a) /\
  (forall params now, onConnect params now a = a) /\
  (forall nodeId newData, updateNodeData nodeId newData a = a) /\
  deleteSelectedNodes a = a /\
  editor (deleteSelectedEdges a) = editor a /\
  (editorState a <> None -> selectedEdges a <> [] -> selectedEdges (deleteSelectedEdges a) = []).
Proof.
intros Hflag. split; [|split; [|split; [|split; [|split]]]].
- intros type position random. unfold addNode.
  destruct (editorState a); [|reflexivity]. apply updateEditorState_dropped, Hflag.
- intros params now. unfold onConnect.
  destruct (editorState a); [|reflexivity]. apply updateEditorState_dropped, Hflag.
- intros nodeId newData. unfold updateNodeData.
  destruct (editorState a); [|reflexivity]. apply updateEditorState_dropped, Hflag.
- unfold deleteSelectedNodes. destruct (editorState a); [|reflexivity].
  destruct (0 <? length (filter isSelected (reactFlowNodes a))); [|reflexivity].
  apply updateEditorState_dropped, Hflag.
- unfold deleteSelectedEdges. destruct (editorState a); [|reflexivity].
  destruct (0 <? length (selectedEdges a)); [|reflexivity].
  rewrite (updateEditorState_dropped _ a Hflag). reflexivity.
- intros Hst Hsel. unfold deleteSelectedEdges.
  destruct (editorState a); [|congruence].
  destruct (selectedEdges a); [congruence | reflexivity].
Qed.

(** The editor right after an addition was undone, before any timer. *)
Definition justUndone : app := snd (undo (addNode "textNode" None origin initialApp)).

Lemma changes_are_lost_until_the_timer_witness :
  History.isApplyingHistory GraphState (editor justUndone) = true /\
  addNode "llmNode" None origin justUndone = justUndone /\
  option_map (fun st => map id (nodes st))
    (editorState (addNode "llmNode" None origin (tick justUndone))) =
  Some ["1"; "2"; "3"; "4"].
Proof.
assert (H : History.isApplyingHistory GraphState (editor justUndone) = true) by reflexivity.
split; [exact H|].
split; [exact (proj1 (changes_are_lost_until_the_timer justUndone H) "llmNode" None origin)|].
reflexivity.
Defined.

(** X20. An addition, its undo and its redo, as the canvas shows them.
    From an editor whose history is within the cap and which is not inside
    the window of an undo, [addNode] followed by [undo] succeeds, and once
    the effect has copied the state the editor's state and the canvas are
    those from before the addition, so the next node is issued the same id
    again; a [redo] then shows the addition again. *)
Theorem addNode_undo_redo_round_trip type position random a st :
  editorState a = Some st ->
  History.isApplyingHistory GraphState (editor a) = false ->
  History.historySize GraphState (editor a) <= maxHistorySize ->
  isSyncingState a = false ->
  let added := addNode type position random a in
  let undone := syncEffect (snd (undo added)) in
  let redone := syncEffect (snd (redo undone)) in
  fst (undo added) = true /\
  editorState undone = Some st /\
  reactFlowNodes undone = nodes st /\
  reactFlowEdges undone = edges st /\
  issuedId undone = issuedId a /\
  fst (redo undone) = true /\
  editorState redone = editorState added /\
  option_map nodes (editorState redone) = Some (reactFlowNodes redone).
Proof.
intros Hst Hflag Hsize Hsync.
assert (Hwf : History.wf GraphState maxHistorySize (editor a)).
{ unfold History.wf. split.
  - unfold editorState, History.state in Hst. apply nth_error_Some. congruence.
  - unfold History.historySize in Hsize. unfold maxHistorySize in *. lia. }
assert (Hcap : 2 <= maxHistorySize) by (unfold maxHistorySize; lia).
assert (Hissued : issuedId a = Some (JSON.ofN (nodeIdCounter st))).
{ unfold issuedId. rewrite Hst. reflexivity. }
rewrite Hissued.
unfold addNode. rewrite Hst. cbv zeta.
set (u := {| u_nodes := Some (nodes st ++
                              [newNode type (orElse position random) (nodeIdCounter st)]);
             u_edges := None;
             u_nodeIdCounter := Some (nodeIdCounter st + 1)%N |}).
assert (Hneq : stringify st <>
               stringify (History.actualNewState GraphState
                            (History.Updater GraphState (spread u)) st))
  by exact (more_nodes_differ st _ _).
unfold updateEditorState, setState.
rewrite (History.setState_push GraphState stringify maxHistorySize
           (History.Updater GraphState (spread u)) (editor a) st Hflag Hst Hneq).
destruct (HistoryFacts.pushed_history GraphState maxHistorySize (editor a)
            (History.Updater GraphState (spread u)) st Hwf Hst Hcap)
  as (Hlen & Hprev & Hlast).
cbv zeta in Hlen, Hprev, Hlast |- *.
set (pushed := History.limitSize GraphState maxHistorySize
                 (firstn (History.currentIndex GraphState (editor a) + 1)
                    (History.history GraphState (editor a)) ++
                  [History.actualNewState GraphState
                     (History.Updater GraphState (spread u)) st])) in *.
assert (Hpos : (0 <? length pushed - 1) = true) by (apply Nat.ltb_lt; lia).
assert (Hnext : (length pushed - 1 - 1 <? length pushed - 1) = true)
  by (apply Nat.ltb_lt; lia).
assert (Hback : length pushed - 1 - 1 + 1 = length pushed - 1) by lia.
set (added := withEditor {| History.history := pushed;
                            History.currentIndex := length pushed - 1;
                            History.isApplyingHistory := false |} a).
assert (Hadded : editorState added =
                 Some (History.actualNewState GraphState
                         (History.Updater GraphState (spread u)) st)) by exact Hlast.
set (afterUndo := withTimers (timers added ++ [ResetApplying])
                    (withEditor {| History.history := pushed;
                                   History.currentIndex := length pushed - 1 - 1;
                                   History.isApplyingHistory := true |} added)).
assert (Hundo : undo added = (true, afterUndo)).
{ unfold undo, History.undo, History.undoFrom, added.
  cbn [withEditor editor History.currentIndex]. rewrite Hpos. reflexivity. }
rewrite Hundo. cbn [fst snd].
assert (Hshown : syncEffect afterUndo = withMirror (nodes st) (edges st) afterUndo).
{ assert (E1 : isSyncingState afterUndo = false) by exact Hsync.
  assert (E2 : editorState afterUndo = Some st) by exact Hprev.
  unfold syncEffect. rewrite E1, E2. reflexivity. }
rewrite Hshown.
set (undone := withMirror (nodes st) (edges st) afterUndo).
assert (Hundone : editorState undone = Some st) by exact Hprev.
set (afterRedo := withTimers (timers undone ++ [ResetApplying])
                    (withEditor {| History.history := pushed;
                                   History.currentIndex := length pushed - 1 - 1 + 1;
                                   History.isApplyingHistory := true |} undone)).
assert (Hredo : redo undone = (true, afterRedo)).
{ unfold redo, History.redo, History.redoFrom, undone, afterUndo.
  cbn [withMirror withTimers withEditor editor History.currentIndex History.history].
  rewrite Hnext. reflexivity. }
rewrite Hredo. cbn [fst snd].
assert (Hredone : editorState afterRedo = editorState added).
{ rewrite Hadded. unfold editorState, History.state, afterRedo.
  cbn [withTimers withEditor editor History.currentIndex History.history].
  rewrite Hback. exact Hlast. }
assert (Hshown' : syncEffect afterRedo =
                  withMirror (nodes (spread u st)) (edges (spread u st)) afterRedo).
{ assert (E1 : isSyncingState afterRedo = false) by exact Hsync.
  unfold syncEffect. rewrite E1, Hredone, Hadded. reflexivity. }
rewrite Hshown'.
assert (Hfinal : editorState (withMirror (nodes (spread u st)) (edges (spread u st)) afterRedo)
                 = editorState added) by exact Hredone.
split; [reflexivity|]. split; [exact Hundone|].
split; [reflexivity|]. split; [reflexivity|].
split; [unfold issuedId; rewrite Hundone; reflexivity|].
split; [reflexivity|]. split; [exact Hfinal|].
rewrite Hfinal, Hadded. reflexivity.
Qed.

Lemma addNode_undo_redo_round_trip_witness :
  editorState initialApp = Some initialState /\
  History.isApplyingHistory GraphState (editor initialApp) = false /\
  History.historySize GraphState (editor initialApp) <= maxHistorySize /\
  isSyncingState initialApp = false /\
  reactFlowNodes (syncEffect (snd (undo (addNode "textNode" None origin initialApp)))) =
    initialNodes.
Proof.
assert (H1 : editorState initialApp = Some initialState) by reflexivity.
assert (H2 : History.isApplyingHistory GraphState (editor initialApp) = false)
  by reflexivity.
assert (H3 : History.historySize GraphState (editor initialApp) <= maxHistorySize)
  by (vm_compute; lia).
assert (H4 : isSyncingState initialApp = false) by reflexivity.
split; [exact H1|]. split; [exact H2|]. split; [exact H3|]. split; [exact H4|].
exact (proj1 (proj2 (proj2
         (addNode_undo_redo_round_trip "textNode" None origin initialApp initialState
            H1 H2 H3 H4)))).
Defined.

End EditorFacts.
